(** * sql-playground-api: the explanation pipeline

    A shallow embedding of the TypeScript service: the LLM provider
    variants and their factory (services/llmProvider.ts), the engine service
    with its EXPLAIN-plan dispatch (the second module of server.ts), the
    Redis cache layer (lib/cache.ts), the database client (lib/db.ts), and
    the handlers of POST /v1/explain and GET /health (the second and third
    module of services/llmProvider.ts), and, around that pipeline, the rate
    limiter and the connection handling of lib/cache.ts and lib/db.ts with
    the start and the shutdown of the server (server.ts).

    Conventions.
    - A JavaScript string is a [string]: the bytes of its UTF-16 code units
      in the CESU-8 encoding, so ASCII text is itself.  Case mapping is the
      ASCII one; code units above 127 are left alone by [toUpperCase].
    - A JavaScript [number] is a rational [Q]; the only arithmetic the
      service does on numbers is [Math.random() * 100].  Clock readings and
      durations are whole milliseconds, in [nat].
    - [undefined]/[null] of an optional field is [None].  The body of a
      request is the JSON value it is, so that a member that is [null] or
      of the wrong type is told from one that is absent.
    - TypeScript's types are not checked at run time.  A value of type
      [ExplanationResult] therefore carries, besides the fields of the
      declared type, the two facts that the code tests on it whatever its
      shape: whether it is truthy, and whether its [optimizations] member
      is an array.
    - An [async] function is a computation in the monad [M] over a [World]
      that holds what the process talks to: environment variables, the
      Redis store, the database table, the clock and the log.
    - What the process holds besides that world (whether the Redis client
      is open, the address it listens on, the counters of the rate
      limiter) is a [Process.t]; the functions that use it are computations
      in [Proc], and those that await the connection to Redis, whose
      promise may stay pending for ever, are computations in [Wait]. *)

From Stdlib Require Import String Ascii List ZArith NArith QArith Lia Bool DecimalString.
From stdpp Require Import base gmap strings list.

Set Warnings "-register-all".

Local Open Scope string_scope.
Local Open Scope list_scope.

(** ** JavaScript strings *)

Module JS.

Definition dquote : ascii := "034"%char.

(** [s || d] on an optional string: [undefined] and [''] are falsy. *)
Definition truthy (o : option string) : bool :=
  match o with
  | Some s => negb (String.eqb s "")
  | None => false
  end.

Definition or_else (o : option string) (d : string) : string :=
  match o with
  | Some s => if String.eqb s "" then d else s
  | None => d
  end.

(** [a || b] where both sides may be [undefined]. *)
Definition or_opt (a b : option string) : option string :=
  if truthy a then a else b.

Definition upper_char (c : ascii) : ascii :=
  let n := nat_of_ascii c in
  if (97 <=? n)%nat && (n <=? 122)%nat then ascii_of_nat (n - 32) else c.

(** [String.prototype.toUpperCase] *)
Fixpoint toUpperCase (s : string) : string :=
  match s with
  | EmptyString => EmptyString
  | String c r => String (upper_char c) (toUpperCase r)
  end.

Fixpoint starts_with (needle hay : string) : bool :=
  match needle, hay with
  | EmptyString, _ => true
  | String a n, String b h => Ascii.eqb a b && starts_with n h
  | String _ _, EmptyString => false
  end.

(** [hay.includes(needle)] *)
Fixpoint includes (needle hay : string) : bool :=
  starts_with needle hay ||
  match hay with
  | EmptyString => false
  | String _ h => includes needle h
  end.

(** [xs.join(sep)] *)
Fixpoint join (sep : string) (xs : list string) : string :=
  match xs with
  | [] => ""
  | [x] => x
  | x :: r => x +:+ sep +:+ join sep r
  end.

(** [`${xs[0]}`]: an absent element prints as [undefined]. *)
Definition first_or_undefined (xs : list string) : string :=
  match xs with
  | [] => "undefined"
  | x :: _ => x
  end.

(** The declarative reading of [includes]. *)
Definition Contains (needle hay : string) : Prop :=
  exists pre post : string, hay = pre +:+ needle +:+ post.

End JS.

(** ** JSON.parse *)

Module JSON.

Inductive value : Type :=
| Null
| Bool (b : bool)
| Number (literal : string)
| Str (s : string)
| Array (items : list value)
| Object (members : list (string * value)).

Definition is_ws (c : ascii) : bool :=
  match c with
  | " "%char | "009"%char | "010"%char | "013"%char => true
  | _ => false
  end.

Definition is_digit (c : ascii) : bool :=
  let n := nat_of_ascii c in (48 <=? n)%nat && (n <=? 57)%nat.

Fixpoint skip_ws (s : list ascii) : list ascii :=
  match s with
  | c :: r => if is_ws c then skip_ws r else s
  | [] => []
  end.

Fixpoint digits (s : list ascii) : list ascii * list ascii :=
  match s with
  | c :: r =>
      if is_digit c then let '(d, r') := digits r in (c :: d, r') else ([], s)
  | [] => ([], [])
  end.

(** [s] without its first character, when that is [c]. *)
Definition after (c : ascii) (s : list ascii) : option (list ascii) :=
  match s with
  | x :: r => if Ascii.eqb x c then Some r else None
  | [] => None
  end.

(** [int frac? exp?] after the optional sign. *)
Definition fraction (s : list ascii) : option (list ascii * list ascii) :=
  match after "." s with
  | Some r =>
      match digits r with
      | ([], _) => None
      | (d, r') => Some ("."%char :: d, r')
      end
  | None => Some ([], s)
  end.

Definition exponent (s : list ascii) : option (list ascii * list ascii) :=
  match s with
  | e :: r =>
      if Ascii.eqb e "e" || Ascii.eqb e "E" then
        let '(sign, r1) :=
          match after "+" r with
          | Some r1 => (["+"%char], r1)
          | None =>
              match after "-" r with
              | Some r1 => (["-"%char], r1)
              | None => ([], r)
              end
          end in
        match digits r1 with
        | ([], _) => None
        | (d, r') => Some (e :: sign ++ d, r')
        end
      else Some ([], s)
  | [] => Some ([], s)
  end.

Definition integer (s : list ascii) : option (list ascii * list ascii) :=
  match s with
  | c :: r =>
      if Ascii.eqb c "0" then Some (["0"%char], r)
      else if is_digit c then let '(d, r') := digits r in Some (c :: d, r')
      else None
  | [] => None
  end.

Definition number (s : list ascii) : option (value * list ascii) :=
  let '(sign, s1) :=
    match after "-" s with
    | Some r => (["-"%char], r)
    | None => ([], s)
    end in
  match integer s1 with
  | None => None
  | Some (i, r) =>
      match fraction r with
      | None => None
      | Some (f, r1) =>
          match exponent r1 with
          | None => None
          | Some (e, r2) =>
              Some (Number (string_of_list_ascii (sign ++ i ++ f ++ e)), r2)
          end
      end
  end.

Definition hex_val (c : ascii) : option N :=
  let n := N_of_ascii c in
  if (48 <=? n)%N && (n <=? 57)%N then Some (n - 48)%N
  else if (65 <=? n)%N && (n <=? 70)%N then Some (n - 55)%N
  else if (97 <=? n)%N && (n <=? 102)%N then Some (n - 87)%N
  else None.

(** The bytes of one UTF-16 code unit. *)
Definition code_unit (u : N) : list ascii :=
  if (u <? 128)%N then [ascii_of_N u]
  else if (u <? 2048)%N then
    [ascii_of_N (192 + u / 64); ascii_of_N (128 + u mod 64)]
  else
    [ascii_of_N (224 + u / 4096); ascii_of_N (128 + (u / 64) mod 64);
     ascii_of_N (128 + u mod 64)].

Definition simple_escape (c : ascii) : option ascii :=
  match c with
  | "034"%char => Some "034"%char
  | "\"%char => Some "\"%char
  | "/"%char => Some "/"%char
  | "b"%char => Some "008"%char
  | "f"%char => Some "012"%char
  | "n"%char => Some "010"%char
  | "r"%char => Some "013"%char
  | "t"%char => Some "009"%char
  | _ => None
  end.

(** The characters of a string literal after its opening quote; [acc] holds
    the decoded text so far, reversed. *)
Fixpoint string_body (s : list ascii) (acc : list ascii)
  : option (string * list ascii) :=
  match s with
  | [] => None
  | c :: r =>
      if Ascii.eqb c JS.dquote then
        Some (string_of_list_ascii (rev acc), r)
      else if Ascii.eqb c "\" then
        match r with
        | [] => None
        | e :: r1 =>
            if Ascii.eqb e "u" then
              match r1 with
              | h1 :: h2 :: h3 :: h4 :: r' =>
                  match hex_val h1, hex_val h2, hex_val h3, hex_val h4 with
                  | Some a, Some b, Some c', Some d =>
                      string_body r'
                        (rev (code_unit (a * 4096 + b * 256 + c' * 16 + d)%N) ++ acc)
                  | _, _, _, _ => None
                  end
              | _ => None
              end
            else
              match simple_escape e with
              | Some x => string_body r1 (x :: acc)
              | None => None
              end
        end
      else if (nat_of_ascii c <? 32)%nat then None
      else string_body r (c :: acc)
  end.

Fixpoint literal (word : list ascii) (s : list ascii) : option (list ascii) :=
  match word, s with
  | [], _ => Some s
  | a :: w, b :: r => if Ascii.eqb a b then literal w r else None
  | _ :: _, [] => None
  end.

(** Recursive descent.  [fuel] bounds the depth of the calls; a text of
    length n never needs more than 2n + 1. *)
Fixpoint value_ (fuel : nat) (s : list ascii) : option (value * list ascii) :=
  match fuel with
  | O => None
  | S fuel =>
      match skip_ws s with
      | [] => None
      | c :: r =>
          if Ascii.eqb c "n" then
            option_map (fun r' => (Null, r')) (literal (list_ascii_of_string "ull") r)
          else if Ascii.eqb c "t" then
            option_map (fun r' => (Bool true, r')) (literal (list_ascii_of_string "rue") r)
          else if Ascii.eqb c "f" then
            option_map (fun r' => (Bool false, r')) (literal (list_ascii_of_string "alse") r)
          else if Ascii.eqb c JS.dquote then
            option_map (fun '(t, r') => (Str t, r')) (string_body r [])
          else if Ascii.eqb c "[" then
            match after "]" (skip_ws r) with
            | Some r' => Some (Array [], r')
            | None => elements_ fuel r []
            end
          else if Ascii.eqb c "{" then
            match after "}" (skip_ws r) with
            | Some r' => Some (Object [], r')
            | None => members_ fuel r []
            end
          else number (c :: r)
      end
  end
with elements_ (fuel : nat) (s : list ascii) (acc : list value)
  : option (value * list ascii) :=
  match fuel with
  | O => None
  | S fuel =>
      match value_ fuel s with
      | None => None
      | Some (v, r) =>
          match after "," (skip_ws r) with
          | Some r' => elements_ fuel r' (v :: acc)
          | None =>
              match after "]" (skip_ws r) with
              | Some r' => Some (Array (rev (v :: acc)), r')
              | None => None
              end
          end
      end
  end
with members_ (fuel : nat) (s : list ascii) (acc : list (string * value))
  : option (value * list ascii) :=
  match fuel with
  | O => None
  | S fuel =>
      match after JS.dquote (skip_ws s) with
      | None => None
      | Some r =>
          match string_body r [] with
          | None => None
          | Some (k, r1) =>
              match after ":" (skip_ws r1) with
              | None => None
              | Some r2 =>
                  match value_ fuel r2 with
                  | None => None
                  | Some (v, r3) =>
                      match after "," (skip_ws r3) with
                      | Some r4 => members_ fuel r4 ((k, v) :: acc)
                      | None =>
                          match after "}" (skip_ws r3) with
                          | Some r4 => Some (Object (rev ((k, v) :: acc)), r4)
                          | None => None
                          end
                      end
                  end
              end
          end
      end
  end.

(** A whole text as one value, with the given fuel. *)
Definition parse_with (fuel : nat) (text : string) : option value :=
  match value_ fuel (list_ascii_of_string text) with
  | Some (v, r) =>
      match skip_ws r with
      | [] => Some v
      | _ => None
      end
  | None => None
  end.

(** [JSON.parse(text)]; [None] is the thrown [SyntaxError]. *)
Definition parse (text : string) : option value :=
  parse_with (S (2 * String.length text)) text.

Definition isArray (v : value) : bool :=
  match v with
  | Array _ => true
  | _ => false
  end.

(** [o[k]]: the last member named [k] wins, as in JavaScript. *)
Fixpoint get (k : string) (members : list (string * value)) : option value :=
  match members with
  | [] => None
  | (k', v) :: r =>
      match get k r with
      | Some v' => Some v'
      | None => if String.eqb k k' then Some v else None
      end
  end.

(** The number that a literal denotes, as a natural [m] and a decimal
    exponent [e]: [m * 10^e], the sign left out. *)
Definition digits_value (d : list ascii) : N :=
  fold_left (fun acc c => (10 * acc + (N_of_ascii c - 48))%N) d 0%N.

Definition decimal (literal : string) : N * Z :=
  let s := list_ascii_of_string literal in
  let s := match after "-" s with Some r => r | None => s end in
  let '(i, r) := digits s in
  let '(f, r1) :=
    match after "." r with
    | Some r' => digits r'
    | None => ([], r)
    end in
  let e :=
    match r1 with
    | _ :: r2 =>
        match after "-" r2 with
        | Some d => (- Z.of_N (digits_value d))%Z
        | None =>
            match after "+" r2 with
            | Some d => Z.of_N (digits_value d)
            | None => Z.of_N (digits_value r2)
            end
        end
    | [] => 0%Z
    end in
  (digits_value (i ++ f), (e - Z.of_nat (length f))%Z).

(** Whether the double that a literal is read as is zero: the literal
    denotes at most [2^-1075], half the least positive double (a tie goes to
    the even neighbour, which is zero). *)
Definition denotes_zero (literal : string) : bool :=
  let '(m, e) := decimal literal in
  (m =? 0)%N || ((e <? 0)%Z && (m * 2 ^ 1075 <=? 10 ^ Z.to_N (- e))%N).

(** [!!v]: [null], [false], zero and the empty string are falsy. *)
Definition truthy (v : value) : bool :=
  match v with
  | Null => false
  | Bool b => b
  | Number literal => negb (denotes_zero literal)
  | Str s => negb (String.eqb s "")
  | Array _ | Object _ => true
  end.

(** What [v.optimizations] holds, for a value other than [null]: only an
    object has members of its own, and neither an array nor a string has a
    property of that name. *)
Inductive Slot : Type := holds_array | holds_undefined | holds_null | holds_other.

Definition optimizations (v : value) : Slot :=
  match v with
  | Object members =>
      match get "optimizations" members with
      | Some (Array _) => holds_array
      | Some Null => holds_null
      | Some _ => holds_other
      | None => holds_undefined
      end
  | _ => holds_undefined
  end.

End JSON.

(** ** Data model *)

Definition number : Type := Q.

Inductive Level : Type := low | medium | high.

Inductive Operation : Type :=
| SeqScan | IndexScan | IndexOnlyScan | BitmapHeapScan | HashJoin
| NestedLoop | Sort | Aggregate | Limit | Other.

Module Cost.
Record t : Type := { startup : number; total : number }.
End Cost.

Module QueryFingerprint.
Record t : Type := {
  hash : string;
  pattern : string;
  tables : list string;
  joinCount : number;
  whereClauseComplexity : number
}.
End QueryFingerprint.

Module PlanAnalysisNode.
Record t : Type := {
  nodeId : string;
  operation : Operation;
  estimatedRows : option number;
  actualRows : option number;
  cost : option Cost.t;
  hotnessScore : number;
  explanation : string
}.
End PlanAnalysisNode.

Module OptimizationSuggestion.
Record t : Type := {
  title : string;
  severity : Level;
  reason : string;
  change : string;
  estimatedImpact : string
}.
End OptimizationSuggestion.

Module Antipattern.
Record t : Type := { name : string; severity : Level; explain : string }.
End Antipattern.

(** Modelled from the spec: the type [ExplanationResult] that the routes
    and providers import from the engine package (spec section 3).

    TypeScript checks nothing at run time: a value of this type is whatever
    the provider returned or [JSON.parse] gave.  Besides the fields that the
    declared type gives it, a value therefore carries the two facts that the
    service and the route test at run time: whether it is truthy, and what
    its [optimizations] member holds ([optimizations] below is that array
    when it holds one). *)
Module ExplanationResult.
Record t : Type := {
  summary : string;
  walkthrough : list string;
  planAnalysis : list PlanAnalysisNode.t;
  optimizations : list OptimizationSuggestion.t;
  antipatterns : list Antipattern.t;
  rewrittenSQL : option string;
  confidence : Level;
  fingerprint : QueryFingerprint.t;
  executionTimeMs : number;
  truthy : bool;
  optimizations_slot : JSON.Slot
}.

(** [explanation.optimizations.push(...more)] *)
Definition push_optimizations (more : list OptimizationSuggestion.t) (r : t) : t :=
  {| summary := summary r;
     walkthrough := walkthrough r;
     planAnalysis := planAnalysis r;
     optimizations := optimizations r ++ more;
     antipatterns := antipatterns r;
     rewrittenSQL := rewrittenSQL r;
     confidence := confidence r;
     fingerprint := fingerprint r;
     executionTimeMs := executionTimeMs r;
     truthy := truthy r;
     optimizations_slot := optimizations_slot r |}.

(** [{...r, fingerprint: fp}]: an object, which is truthy whatever [r] was. *)
Definition with_fingerprint (fp : QueryFingerprint.t) (r : t) : t :=
  {| summary := summary r;
     walkthrough := walkthrough r;
     planAnalysis := planAnalysis r;
     optimizations := optimizations r;
     antipatterns := antipatterns r;
     rewrittenSQL := rewrittenSQL r;
     confidence := confidence r;
     fingerprint := fp;
     executionTimeMs := executionTimeMs r;
     truthy := true;
     optimizations_slot := optimizations_slot r |}.
End ExplanationResult.

(** Modelled from the spec: the engine package's plan tree [ExplainNode]
    (PlanNode in spec section 3). *)
Inductive ExplainNode : Type :=
| MkExplainNode (nodeId : string) (operation : Operation)
    (estimatedRows actualRows : option number) (cost : option Cost.t)
    (children : list ExplainNode).

(** Modelled from the spec: a recommendation of the engine's heuristic
    analyzer (spec section 3). *)
Module Recommendation.
Record t : Type := {
  type : string;
  table : string;
  columns : list string;
  reason : string
}.
End Recommendation.

(** [LLMRequest] of services/llmProvider.ts *)
Module LLMRequest.
Record t : Type := {
  sql : string;
  sanitizedSql : option string;
  dialect : string;
  schema : option string;
  explainPlan : option string;
  privacyMode : bool
}.
End LLMRequest.

(** The output of [ExplainRequestSchema] (types.ts). *)
Module ExplainRequest.
Record t : Type := {
  sql : string;
  dialect : string;
  schema : option string;
  explainPlan : option string;
  privacyMode : bool;
  cache : bool
}.
End ExplainRequest.

(** The [data] of [prisma.explanationCache.create]. *)
Module CacheRecord.
Record t : Type := {
  queryHash : string;
  queryPattern : string;
  sql : string;
  sanitizedSql : string;
  dialect : string;
  explanation : ExplanationResult.t;
  confidence : Level
}.
End CacheRecord.

(** ** Errors *)

Inductive Error : Type := MkError (message : string).

Definition message (e : Error) : string := let 'MkError m := e in m.

Inductive Outcome (A : Type) : Type :=
| Returned (a : A)
| Thrown (e : Error).
Arguments Returned {A} a.
Arguments Thrown {A} e.

(** ** The engine package

    [@sql-playground/engine] is an external library; the service is
    verified against its interface.  The fingerprinter, the sanitizer and
    the analyzer are pure and total, the plan parsers may throw. *)

Class Engine : Type := {
  fingerprint : string -> QueryFingerprint.t;
  sanitizeSQL : string -> bool -> string;
  analyzeExplainPlan : ExplainNode -> list Recommendation.t;
  parsePostgresExplainJson : JSON.value -> Outcome ExplainNode;
  parsePostgresExplainText : string -> Outcome ExplainNode;
  parseMysqlExplainJson : JSON.value -> Outcome ExplainNode;
  parseSqliteExplainQueryPlan : string -> Outcome ExplainNode;
  (** [JSON.stringify] on a plan tree *)
  stringifyPlan : ExplainNode -> string;
  (** [JSON.parse(text) as ExplanationResult]: the parsed reply seen through
      the declared type; TypeScript checks nothing at run time, so the value
      stays what it is. *)
  asExplanationResult : JSON.value -> ExplanationResult.t;
  asExplanationResult_truthy :
    forall v, ExplanationResult.truthy (asExplanationResult v) = JSON.truthy v;
  asExplanationResult_optimizations :
    forall v,
      ExplanationResult.optimizations_slot (asExplanationResult v) = JSON.optimizations v
}.

(** ** The world outside the process *)

Inductive LogLevel : Type := Debug | Info | Warn | LogError.

Inductive RedisCommand : Type :=
| GET (key : string)
| SETEX (key : string) (seconds : nat)
| SETNX (key : string)
| EXPIRE (key : string) (seconds : nat)
| DEL (key : string).

(** What one run does to the outside, in the order it happens.
    [PlanParseCall], [BackendCall] and [DbCreate] record calls of
    [parseExplainPlan], [llmProvider.explainSQL] and
    [prisma.explanationCache.create]; [DbCreate] is recorded when the
    promise settles. *)
Inductive Event : Type :=
| Log (level : LogLevel) (msg : string)
| CacheHit (cacheType : string)
| CacheMiss (cacheType : string)
| RequestMetrics (method route : string) (statusCode duration : nat)
| Redis (command : RedisCommand)
| PlanParseCall (explainOutput dialect : string)
| BackendCall (request : LLMRequest.t)
| DbCreate (data : CacheRecord.t) (fulfilled : bool)
| DbQuery (fulfilled : bool)
| Send (statusCode : nat).

(** [process.env] *)
Record Env : Type := {
  OPENAI_API_KEY : option string;
  LLM_PROVIDER : option string;
  NODE_ENV : option string
}.

(** What the process cannot change: its environment, whether Redis and the
    database answer, how long (in ms) the awaited calls take, the values
    [Math.random()] draws, and the content of the remote model's k-th
    completion for a user prompt ([Thrown]: the API call rejects). *)
Record Outside : Type := {
  env : Env;
  redis_up : bool;
  db_up : bool;
  redis_latency : nat;
  llm_latency : nat;
  db_latency : nat;
  Math_random : nat -> number;
  completion : nat -> string -> Outcome (option string)
}.

(** Redis holds two families of keys: [explain:*] with the JSON text of a
    result and its time to live, and [lock:*] with ['1'] and, once [EXPIRE]
    ran, a time to live.  A JSON entry is kept as the value its text
    denotes.  Entries do not expire during a run: the time to live is
    recorded, the runs considered are short against it.

    Redis itself has one key space.  The two maps below are its two
    families: [locks] is the keys that start with [lock:], which are the
    only ones that SETNX, EXPIRE and DEL are given, and [cache] is the keys
    that GET and SETEX are given, which the route takes from [explain:*].
    A value stored by [cacheSet] under a [lock:*] key would, in Redis, take
    that lock; the maps do not express this, and what is stated about the
    locks after a store is stated for keys outside [lock:*]. *)
Record World : Type := {
  outside : Outside;
  now : nat;
  cache : gmap string (ExplanationResult.t * nat);
  locks : gmap string (option nat);
  explanation_cache : list CacheRecord.t;
  events : list Event;
  draws : nat;
  calls : nat
}.

Definition set_now (n : nat) (w : World) : World :=
  {| outside := outside w; now := n; cache := cache w; locks := locks w;
     explanation_cache := explanation_cache w; events := events w;
     draws := draws w; calls := calls w |}.

Definition set_cache (c : gmap string (ExplanationResult.t * nat)) (w : World) : World :=
  {| outside := outside w; now := now w; cache := c; locks := locks w;
     explanation_cache := explanation_cache w; events := events w;
     draws := draws w; calls := calls w |}.

Definition set_locks (l : gmap string (option nat)) (w : World) : World :=
  {| outside := outside w; now := now w; cache := cache w; locks := l;
     explanation_cache := explanation_cache w; events := events w;
     draws := draws w; calls := calls w |}.

Definition set_explanation_cache (t : list CacheRecord.t) (w : World) : World :=
  {| outside := outside w; now := now w; cache := cache w; locks := locks w;
     explanation_cache := t; events := events w;
     draws := draws w; calls := calls w |}.

Definition set_events (e : list Event) (w : World) : World :=
  {| outside := outside w; now := now w; cache := cache w; locks := locks w;
     explanation_cache := explanation_cache w; events := e;
     draws := draws w; calls := calls w |}.

Definition set_draws (n : nat) (w : World) : World :=
  {| outside := outside w; now := now w; cache := cache w; locks := locks w;
     explanation_cache := explanation_cache w; events := events w;
     draws := n; calls := calls w |}.

Definition set_calls (n : nat) (w : World) : World :=
  {| outside := outside w; now := now w; cache := cache w; locks := locks w;
     explanation_cache := explanation_cache w; events := events w;
     draws := draws w; calls := n |}.

Definition set_outside (o : Outside) (w : World) : World :=
  {| outside := o; now := now w; cache := cache w; locks := locks w;
     explanation_cache := explanation_cache w; events := events w;
     draws := draws w; calls := calls w |}.

(** ** Awaited computations *)

Definition M (A : Type) : Type := World -> Outcome A * World.

Definition ret {A} (a : A) : M A := fun w => (Returned a, w).

Definition throw {A} (e : Error) : M A := fun w => (Thrown e, w).

Definition bind {A B} (m : M A) (k : A -> M B) : M B :=
  fun w =>
    match m w with
    | (Returned a, w') => k a w'
    | (Thrown e, w') => (Thrown e, w')
    end.

(** [try { m } catch (error) { h error }] *)
Definition try_catch {A} (m : M A) (h : Error -> M A) : M A :=
  fun w =>
    match m w with
    | (Returned a, w') => (Returned a, w')
    | (Thrown e, w') => h e w'
    end.

Definition lift {A} (o : Outcome A) : M A := fun w => (o, w).

Notation "x <- m ;; k" := (bind m (fun x => k))
  (at level 90, m at level 80, right associativity).
Notation "m ;;; k" := (bind m (fun _ => k))
  (at level 90, right associativity).

Definition emit (e : Event) : M unit :=
  fun w => (Returned tt, set_events (events w ++ [e]) w).

(** Time passing while a promise is pending. *)
Definition elapse (ms : nat) : M unit :=
  fun w => (Returned tt, set_now (now w + ms) w).

Definition Date_now : M nat := fun w => (Returned (now w), w).

Definition the_outside : M Outside := fun w => (Returned (outside w), w).

Definition logger (level : LogLevel) (msg : string) : M unit :=
  emit (Log level msg).

Definition Math_random_next : M number :=
  fun w => (Returned (Math_random (outside w) (draws w)), set_draws (S (draws w)) w).

(** ** lib/cache.ts *)

Definition redis_closed : Error := MkError "The client is closed".

(** A command of the Redis client: it takes [redis_latency], and rejects
    when the server does not answer.  The rejection is that of a client
    that is not connected ([redis_closed]).  A client that was opened and
    has lost its server holds the command until the server is back; such a
    command does not settle, and no run with one is considered: where Redis
    is away, the client is one that was not opened. *)
Definition client (command : RedisCommand) : M unit :=
  o <- the_outside ;;
  elapse (redis_latency o) ;;;
  emit (Redis command) ;;;
  if redis_up o then ret tt else throw redis_closed.

Definition client_get (key : string) : M (option ExplanationResult.t) :=
  client (GET key) ;;;
  fun w => (Returned (fst <$> cache w !! key), w).

Definition client_setEx (key : string) (seconds : nat) (value : ExplanationResult.t) : M unit :=
  client (SETEX key seconds) ;;;
  fun w => (Returned tt, set_cache (<[key := (value, seconds)]> (cache w)) w).

Definition client_setNX (key : string) : M bool :=
  client (SETNX key) ;;;
  fun w =>
    match locks w !! key with
    | Some _ => (Returned false, w)
    | None => (Returned true, set_locks (<[key := None]> (locks w)) w)
    end.

Definition client_expire (key : string) (seconds : nat) : M unit :=
  client (EXPIRE key seconds) ;;;
  fun w =>
    match locks w !! key with
    | Some _ => (Returned tt, set_locks (<[key := Some seconds]> (locks w)) w)
    | None => (Returned tt, w)
    end.

Definition client_del (key : string) : M unit :=
  client (DEL key) ;;;
  fun w => (Returned tt, set_locks (delete key (locks w)) w).

Definition CACHE_TTL_SECONDS : nat := 3600.
Definition STAMPEDE_LOCK_TTL_SECONDS : nat := 10.

Definition cacheGet (key : string) : M (option ExplanationResult.t) :=
  try_catch
    (value <- client_get key ;;
     ret value)
    (fun error => logger LogError "Cache get failed" ;;; ret None).

(** [ttl || CACHE_TTL_SECONDS]: an absent or zero [ttl] is falsy. *)
Definition ttl_or_default (ttl : option nat) : nat :=
  match ttl with
  | Some (S n) => S n
  | Some O | None => CACHE_TTL_SECONDS
  end.

Definition cacheSet (key : string) (value : ExplanationResult.t) (ttl : option nat) : M unit :=
  try_catch
    (client_setEx key (ttl_or_default ttl) value)
    (fun error => logger LogError "Cache set failed").

Definition acquireStampedeLock (key : string) : M bool :=
  try_catch
    (let lockKey := "lock:" +:+ key in
     acquired <- client_setNX lockKey ;;
     if acquired : bool then
       client_expire lockKey STAMPEDE_LOCK_TTL_SECONDS ;;;
       ret true
     else ret false)
    (fun error => logger LogError "Stampede lock acquisition failed" ;;; ret false).

Definition releaseStampedeLock (key : string) : M unit :=
  try_catch
    (let lockKey := "lock:" +:+ key in
     client_del lockKey)
    (fun error => logger LogError "Stampede lock release failed").

(** ** lib/db.ts and the table behind [prisma.explanationCache]

    schema.sql puts a unique index on [queryHash]: a second row for the same
    hash is rejected. *)

Definition hash_taken (h : string) (rows : list CacheRecord.t) : bool :=
  existsb (fun r => String.eqb (CacheRecord.queryHash r) h) rows.

Definition prisma_explanationCache_create (data : CacheRecord.t) : M unit :=
  o <- the_outside ;;
  elapse (db_latency o) ;;;
  fun w =>
    if db_up o && negb (hash_taken (CacheRecord.queryHash data) (explanation_cache w)) then
      emit (DbCreate data true)
        (set_explanation_cache (explanation_cache w ++ [data]) w)
    else
      (emit (DbCreate data false) ;;;
       throw (MkError "Invalid `prisma.explanationCache.create()` invocation")) w.

Definition prisma_queryRaw_select_1 : M unit :=
  o <- the_outside ;;
  elapse (db_latency o) ;;;
  emit (DbQuery (db_up o)) ;;;
  if db_up o then ret tt else throw (MkError "Can't reach database server").

Definition checkDBHealth : M bool :=
  try_catch
    (prisma_queryRaw_select_1 ;;; ret true)
    (fun _ => ret false).

(** ** services/llmProvider.ts *)

Inductive LLMProvider : Type :=
| OpenAIProvider (apiKey : string)
| LocalStubProvider.

(** [new OpenAIProvider(apiKey)] *)
Definition new_OpenAIProvider (e : Env) (apiKey : option string) : Outcome LLMProvider :=
  let key := JS.or_else apiKey (JS.or_else (OPENAI_API_KEY e) "") in
  if String.eqb key "" then
    Thrown (MkError "OPENAI_API_KEY environment variable not set")
  else Returned (OpenAIProvider key).

Definition createLLMProvider (e : Env) (providerName : option string) : Outcome LLMProvider :=
  let provider := JS.or_else providerName (JS.or_else (LLM_PROVIDER e) "openai") in
  if String.eqb provider "openai" then new_OpenAIProvider e None
  else if String.eqb provider "stub" || bool_decide (NODE_ENV e = Some "test") then
    Returned LocalStubProvider
  else Thrown (MkError ("Unknown LLM provider: " +:+ provider)).

Definition nl : string := String "010"%char "".

Definition buildPrompt (request : LLMRequest.t) : string :=
  let sql :=
    if LLMRequest.privacyMode request
    then JS.or_else (LLMRequest.sanitizedSql request) (LLMRequest.sql request)
    else LLMRequest.sql request in
  let prompt :=
    "Analyze this " +:+ LLMRequest.dialect request +:+ " SQL query:" +:+ nl +:+ nl +:+ sql in
  let prompt :=
    if JS.truthy (LLMRequest.schema request)
    then prompt +:+ nl +:+ nl +:+ "Schema: " +:+ JS.or_else (LLMRequest.schema request) ""
    else prompt in
  let prompt :=
    if JS.truthy (LLMRequest.explainPlan request)
    then prompt +:+ nl +:+ nl +:+ "EXPLAIN output:" +:+ nl
           +:+ JS.or_else (LLMRequest.explainPlan request) ""
    else prompt in
  let prompt :=
    prompt +:+ nl +:+ nl +:+ "Privacy mode: "
      +:+ (if LLMRequest.privacyMode request then "enabled" else "disabled") in
  prompt +:+ nl +:+ nl +:+ "Respond with JSON only.".

(** [client.chat.completions.create] with the fixed model, token budget and
    system prompt; the value is [message.choices[0]?.message?.content]. *)
Definition chat_completions_create (content : string) : M (option string) :=
  o <- the_outside ;;
  elapse (llm_latency o) ;;;
  fun w => (completion o (calls w) content, set_calls (S (calls w)) w).

Definition invalid_format : Error := MkError "Invalid LLM response format".

(** The [try] block that turns the reply text into a result: [JSON.parse]
    throws on text that is not JSON, and reading [result.summary] for the
    debug line throws on [null]. *)
Definition parseResponse (responseText : string) : Outcome JSON.value :=
  match JSON.parse responseText with
  | Some JSON.Null => Thrown invalid_format
  | Some result => Returned result
  | None => Thrown invalid_format
  end.

(** The [LocalStubProvider] result for a statement, given the value of
    [Math.random() * 100]. *)
Definition stubResult (sql : string) (executionTimeMs : number) : ExplanationResult.t :=
  let isSelect := JS.includes "SELECT" (JS.toUpperCase sql) in
  let isJoin := JS.includes "JOIN" (JS.toUpperCase sql) in
  let hasWhere := JS.includes "WHERE" (JS.toUpperCase sql) in
  {| ExplanationResult.summary :=
       if isSelect
       then "Execute a " +:+ (if isJoin then "join " else "") +:+ "SELECT query"
              +:+ (if hasWhere then " with filtering" else "")
       else "Execute a data modification";
     ExplanationResult.walkthrough :=
       [ if isSelect then "Parse SELECT columns" else "Parse statement";
         if isJoin then "Join tables" else "Access table";
         if hasWhere then "Apply WHERE filters" else "Process all rows";
         "Return results" ];
     ExplanationResult.planAnalysis :=
       [ {| PlanAnalysisNode.nodeId := "node_0";
            PlanAnalysisNode.operation := if hasWhere then SeqScan else SeqScan;
            PlanAnalysisNode.estimatedRows := Some 1000%Q;
            PlanAnalysisNode.actualRows := None;
            PlanAnalysisNode.cost := Some {| Cost.startup := 0%Q; Cost.total := 100%Q |};
            PlanAnalysisNode.hotnessScore := if hasWhere then 75%Q else 30%Q;
            PlanAnalysisNode.explanation := "Basic table scan" |} ];
     ExplanationResult.optimizations :=
       if hasWhere
       then [ {| OptimizationSuggestion.title := "Add index on filtered column";
                 OptimizationSuggestion.severity := medium;
                 OptimizationSuggestion.reason := "WHERE clause would benefit from index";
                 OptimizationSuggestion.change := "CREATE INDEX idx_filtered ON table(column)";
                 OptimizationSuggestion.estimatedImpact := "2-5x faster filtering" |} ]
       else [];
     ExplanationResult.antipatterns := [];
     ExplanationResult.rewrittenSQL := Some sql;
     ExplanationResult.confidence := low;
     ExplanationResult.fingerprint :=
       {| QueryFingerprint.hash := "stub_hash_1234567890";
          QueryFingerprint.pattern := "STUB_PATTERN";
          QueryFingerprint.tables := ["stub_table"];
          QueryFingerprint.joinCount := if isJoin then 1%Q else 0%Q;
          QueryFingerprint.whereClauseComplexity := if hasWhere then 1%Q else 0%Q |};
     ExplanationResult.executionTimeMs := executionTimeMs;
     ExplanationResult.truthy := true;
     ExplanationResult.optimizations_slot := JSON.holds_array |}.

Section Service.

Context `{Engine}.

Definition OpenAIProvider_explainSQL (request : LLMRequest.t) : M ExplanationResult.t :=
  let content := buildPrompt request in
  logger Debug "Calling OpenAI" ;;;
  message <- chat_completions_create content ;;
  let responseText := JS.or_else message "" in
  match parseResponse responseText with
  | Returned result =>
      logger Debug "OpenAI response parsed" ;;;
      ret (asExplanationResult result)
  | Thrown _ =>
      logger LogError "Failed to parse OpenAI response" ;;;
      throw invalid_format
  end.

Definition LocalStubProvider_explainSQL (request : LLMRequest.t) : M ExplanationResult.t :=
  logger Info "Using LocalStubProvider (mock)" ;;;
  random <- Math_random_next ;;
  ret (stubResult (LLMRequest.sql request) (random * 100)%Q).

(** [llmProvider.explainSQL(request)], dispatched on the variant. *)
Definition explainSQL (llmProvider : LLMProvider) (request : LLMRequest.t) : M ExplanationResult.t :=
  emit (BackendCall request) ;;;
  match llmProvider with
  | OpenAIProvider _ => OpenAIProvider_explainSQL request
  | LocalStubProvider => LocalStubProvider_explainSQL request
  end.

(** ** The engine service (server.ts, second module) *)

Definition parseExplainPlan (explainOutput dialect : string) : Outcome ExplainNode :=
  let after_postgres :=
    if String.eqb dialect "mysql" then
      match JSON.parse explainOutput with
      | Some parsed =>
          match parseMysqlExplainJson parsed with
          | Returned node => Returned node
          | Thrown _ => Thrown (MkError "MySQL text format EXPLAIN not yet supported")
          end
      | None => Thrown (MkError "MySQL text format EXPLAIN not yet supported")
      end
    else if String.eqb dialect "sqlite" then
      parseSqliteExplainQueryPlan explainOutput
    else Thrown (MkError ("Unsupported dialect: " +:+ dialect)) in
  if String.eqb dialect "postgres" then
    match JSON.parse explainOutput with
    | Some parsed =>
        if JSON.isArray parsed then
          match parsePostgresExplainJson parsed with
          | Returned node => Returned node
          | Thrown _ => parsePostgresExplainText explainOutput
          end
        else after_postgres
    | None => parsePostgresExplainText explainOutput
    end
  else after_postgres.

(** The suggestion built from one recommendation of the analyzer. *)
Definition heuristicSuggestion (rec : Recommendation.t) : OptimizationSuggestion.t :=
  let severity :=
    if JS.includes "missing" (Recommendation.reason rec)
       || JS.includes "sequential" (Recommendation.reason rec)
    then high else medium in
  {| OptimizationSuggestion.title :=
       "Add " +:+ Recommendation.type rec +:+ " index on " +:+ Recommendation.table rec
         +:+ "(" +:+ JS.join "," (Recommendation.columns rec) +:+ ")";
     OptimizationSuggestion.severity := severity;
     OptimizationSuggestion.reason := Recommendation.reason rec;
     OptimizationSuggestion.change :=
       "CREATE INDEX idx_" +:+ Recommendation.table rec +:+ "_"
         +:+ JS.first_or_undefined (Recommendation.columns rec)
         +:+ " ON " +:+ Recommendation.table rec
         +:+ "(" +:+ JS.join "," (Recommendation.columns rec) +:+ ")";
     OptimizationSuggestion.estimatedImpact := "2-10x faster queries" |}.

(** The [if (explainPlan) { try { ... } catch { ... } }] block. *)
Definition parsePlan (explainPlan : option string) (dialect : string) : M (option ExplainNode) :=
  match explainPlan with
  | Some text =>
      if JS.truthy explainPlan then
        try_catch
          (emit (PlanParseCall text dialect) ;;;
           node <- lift (parseExplainPlan text dialect) ;;
           ret (Some node))
          (fun error => logger Warn "Failed to parse EXPLAIN plan" ;;; ret None)
      else ret None
  | None => ret None
  end.

(** The [TypeError] of [explanation.optimizations.push(...)] when the member
    does not hold an array: reading [push] off [undefined] or [null] fails,
    and on any other value [push] is not a function. *)
Definition push_TypeError (slot : JSON.Slot) : Error :=
  match slot with
  | JSON.holds_undefined =>
      MkError "Cannot read properties of undefined (reading 'push')"
  | JSON.holds_null =>
      MkError "Cannot read properties of null (reading 'push')"
  | _ => MkError "explanation.optimizations.push is not a function"
  end.

(** The heuristics merge: [if (parsedPlan) { ...push(...) }]. *)
Definition mergeHeuristics (parsedPlan : option ExplainNode) (explanation : ExplanationResult.t)
  : Outcome ExplanationResult.t :=
  match parsedPlan with
  | Some plan =>
      let heuristics := analyzeExplainPlan plan in
      match ExplanationResult.optimizations_slot explanation with
      | JSON.holds_array =>
          Returned (ExplanationResult.push_optimizations
                      (map heuristicSuggestion heuristics) explanation)
      | slot => Thrown (push_TypeError slot)
      end
  | None => Returned explanation
  end.

(** The [try { await prisma.explanationCache.create(...) } catch { ... }]
    block. *)
Definition persist (originalSql dialect : string) (fp : QueryFingerprint.t)
    (explanation : ExplanationResult.t) : M unit :=
  try_catch
    (let sanitized := sanitizeSQL originalSql true in
     prisma_explanationCache_create
       {| CacheRecord.queryHash := QueryFingerprint.hash fp;
          CacheRecord.queryPattern := QueryFingerprint.pattern fp;
          CacheRecord.sql := originalSql;
          CacheRecord.sanitizedSql := sanitized;
          CacheRecord.dialect := dialect;
          CacheRecord.explanation := explanation;
          CacheRecord.confidence := ExplanationResult.confidence explanation |})
    (fun error => logger Warn "Failed to cache explanation in database").

Definition explainSQLService (originalSql sanitizedSql dialect : string)
    (schema explainPlan : option string) : M ExplanationResult.t :=
  o <- the_outside ;;
  llmProvider <- lift (createLLMProvider (env o) None) ;;
  logger Debug "Explaining SQL" ;;;
  parsedPlan <- parsePlan explainPlan dialect ;;
  explanation <-
    explainSQL llmProvider
      {| LLMRequest.sql := originalSql;
         LLMRequest.sanitizedSql := Some sanitizedSql;
         LLMRequest.dialect := dialect;
         LLMRequest.schema := schema;
         LLMRequest.explainPlan :=
           JS.or_opt explainPlan (option_map stringifyPlan parsedPlan);
         LLMRequest.privacyMode := true |} ;;
  let fp := fingerprint originalSql in
  explanation <- lift (mergeHeuristics parsedPlan explanation) ;;
  persist originalSql dialect fp explanation ;;;
  ret explanation.

End Service.

(** ** The explain route (services/llmProvider.ts, second module) *)

(** [request.body] is the decoded JSON of the request, [None] when the
    request has no body. *)
Module Request.
Record t : Type := { id : string; body : option JSON.value }.
End Request.

(** [{...result, cached: fromCache, fingerprint: fp}] *)
Module ReplyData.
Record t : Type := { result : ExplanationResult.t; cached : bool }.
End ReplyData.

Module Reply.
Record t : Type := {
  statusCode : nat;
  success : bool;
  data : option ReplyData.t;
  error : option string;
  requestId : string;
  timestamp : nat
}.
End Reply.

Definition is_dialect (d : string) : bool :=
  String.eqb d "postgres" || String.eqb d "mysql" || String.eqb d "sqlite".

(** The schemas of the members (types.ts); [None] is an absent member.
    The error stands for the issue that zod raises, under the first words of
    its message. *)

(** [z.string().min(1, 'SQL required')] *)
Definition schema_sql (member : option JSON.value) : Outcome string :=
  match member with
  | Some (JSON.Str s) =>
      if String.eqb s "" then Thrown (MkError "SQL required") else Returned s
  | Some _ => Thrown (MkError "Expected string")
  | None => Thrown (MkError "Required")
  end.

(** [z.enum(['postgres', 'mysql', 'sqlite']).default('postgres')] *)
Definition schema_dialect (member : option JSON.value) : Outcome string :=
  match member with
  | Some (JSON.Str d) =>
      if is_dialect d then Returned d else Thrown (MkError "Invalid enum value")
  | Some _ => Thrown (MkError "Invalid enum value")
  | None => Returned "postgres"
  end.

(** [z.optional(z.string())] *)
Definition schema_optional_string (member : option JSON.value) : Outcome (option string) :=
  match member with
  | Some (JSON.Str s) => Returned (Some s)
  | Some _ => Thrown (MkError "Expected string")
  | None => Returned None
  end.

(** [z.boolean().default(true)] *)
Definition schema_boolean (member : option JSON.value) : Outcome bool :=
  match member with
  | Some (JSON.Bool b) => Returned b
  | Some _ => Thrown (MkError "Expected boolean")
  | None => Returned true
  end.

Definition and_then {A B} (o : Outcome A) (k : A -> Outcome B) : Outcome B :=
  match o with
  | Returned a => k a
  | Thrown e => Thrown e
  end.

(** [ExplainRequestSchema.safeParse(request.body)] (types.ts): the body has
    to be an object; members that the schema does not name are dropped.  The
    error is the first issue, where zod's lists them all. *)
Definition ExplainRequestSchema_safeParse (body : option JSON.value)
  : Outcome ExplainRequest.t :=
  match body with
  | Some (JSON.Object members) =>
      and_then (schema_sql (JSON.get "sql" members)) (fun sql =>
      and_then (schema_dialect (JSON.get "dialect" members)) (fun dialect =>
      and_then (schema_optional_string (JSON.get "schema" members)) (fun schema =>
      and_then (schema_optional_string (JSON.get "explainPlan" members)) (fun explainPlan =>
      and_then (schema_boolean (JSON.get "privacyMode" members)) (fun privacyMode =>
      and_then (schema_boolean (JSON.get "cache" members)) (fun cache =>
      Returned
        {| ExplainRequest.sql := sql;
           ExplainRequest.dialect := dialect;
           ExplainRequest.schema := schema;
           ExplainRequest.explainPlan := explainPlan;
           ExplainRequest.privacyMode := privacyMode;
           ExplainRequest.cache := cache |}))))))
  | Some _ => Thrown (MkError "Expected object")
  | None => Thrown (MkError "Required")
  end.

Definition send (reply : Reply.t) : M Reply.t :=
  emit (Send (Reply.statusCode reply)) ;;; ret reply.

Section Routes.

Context `{Engine}.

Definition cacheKeyOf (req : ExplainRequest.t) : string :=
  "explain:" +:+ QueryFingerprint.hash (fingerprint (ExplainRequest.sql req)).

(** [if (req.cache) { const cached = await cacheGet(cacheKey); if (cached)
    { ... } }]: the value is [Some] when [result] has been assigned, which a
    falsy entry is not. *)
Definition checkCache (req : ExplainRequest.t) : M (option ExplanationResult.t) :=
  if ExplainRequest.cache req then
    cached <- cacheGet (cacheKeyOf req) ;;
    match cached with
    | Some result =>
        if ExplanationResult.truthy result then
          emit (CacheHit "explain") ;;;
          logger Debug "Cache hit" ;;;
          ret (Some result)
        else ret None
    | None => ret None
    end
  else ret None.

(** [if (!result) { ... }] *)
Definition compute (req : ExplainRequest.t) : M ExplanationResult.t :=
  emit (CacheMiss "explain") ;;;
  let sanitized := sanitizeSQL (ExplainRequest.sql req) (ExplainRequest.privacyMode req) in
  logger Debug "Computing explanation" ;;;
  result <-
    explainSQLService (ExplainRequest.sql req) sanitized (ExplainRequest.dialect req)
      (ExplainRequest.schema req) (ExplainRequest.explainPlan req) ;;
  (if ExplainRequest.cache req
   then cacheSet (cacheKeyOf req) result (Some 3600)
   else ret tt) ;;;
  ret result.

(** The handler from the point where the cache lookup has settled. *)
Definition respond (startTime : nat) (request : Request.t) (req : ExplainRequest.t)
    (cached : option ExplanationResult.t) : M Reply.t :=
  let fp := fingerprint (ExplainRequest.sql req) in
  result <- match cached with
            | Some result => ret result
            | None => compute req
            end ;;
  let fromCache := bool_decide (is_Some cached) in
  t <- Date_now ;;
  let duration := t - startTime in
  emit (RequestMetrics "POST" "/v1/explain" 200 duration) ;;;
  timestamp <- Date_now ;;
  send {| Reply.statusCode := 200;
          Reply.success := true;
          Reply.data :=
            Some {| ReplyData.result := ExplanationResult.with_fingerprint fp result;
                    ReplyData.cached := fromCache |};
          Reply.error := None;
          Reply.requestId := Request.id request;
          Reply.timestamp := timestamp |}.

(** The [catch (error)] block of the handler. *)
Definition on_error (startTime : nat) (request : Request.t) (error : Error) : M Reply.t :=
  t <- Date_now ;;
  let duration := t - startTime in
  emit (RequestMetrics "POST" "/v1/explain" 500 duration) ;;;
  logger LogError "Explain endpoint error" ;;;
  timestamp <- Date_now ;;
  send {| Reply.statusCode := 500;
          Reply.success := false;
          Reply.data := None;
          Reply.error := Some (message error);
          Reply.requestId := Request.id request;
          Reply.timestamp := timestamp |}.

Definition bad_request (request : Request.t) (error : Error) : M Reply.t :=
  timestamp <- Date_now ;;
  send {| Reply.statusCode := 400;
          Reply.success := false;
          Reply.data := None;
          Reply.error := Some ("Invalid request: " +:+ message error);
          Reply.requestId := Request.id request;
          Reply.timestamp := timestamp |}.

(** The handler of [POST /v1/explain]. *)
Definition explainRoute (request : Request.t) : M Reply.t :=
  startTime <- Date_now ;;
  try_catch
    (match ExplainRequestSchema_safeParse (Request.body request) with
     | Thrown error => bad_request request error
     | Returned req =>
         cached <- checkCache req ;;
         respond startTime request req cached
     end)
    (on_error startTime request).

(** *** Concurrent requests

    Node runs one handler until it awaits; the handlers of other requests
    run meanwhile.  A task is a handler suspended at [await cacheGet] or
    finished; the scheduler resumes tasks in any order. *)

Inductive Task : Type :=
| Arrived (request : Request.t)
| Looked (startTime : nat) (request : Request.t) (req : ExplainRequest.t)
    (cached : option ExplanationResult.t)
| Finished (reply : Reply.t).

Definition resume (task : Task) : M Task :=
  match task with
  | Arrived request =>
      startTime <- Date_now ;;
      match ExplainRequestSchema_safeParse (Request.body request) with
      | Thrown error =>
          reply <- bad_request request error ;;
          ret (Finished reply)
      | Returned req =>
          cached <- checkCache req ;;
          ret (Looked startTime request req cached)
      end
  | Looked startTime request req cached =>
      reply <- try_catch (respond startTime request req cached)
                 (on_error startTime request) ;;
      ret (Finished reply)
  | Finished reply => ret (Finished reply)
  end.

Definition schedule_one (i : nat) (tasks : list Task) (w : World) : list Task * World :=
  match tasks !! i with
  | Some task =>
      match resume task w with
      | (Returned task', w') => (<[i := task']> tasks, w')
      | (Thrown _, w') => (tasks, w')
      end
  | None => (tasks, w)
  end.

Fixpoint schedule (order : list nat) (tasks : list Task) (w : World) : list Task * World :=
  match order with
  | [] => (tasks, w)
  | i :: rest => let '(tasks', w') := schedule_one i tasks w in schedule rest tasks' w'
  end.

End Routes.

(** ** The health route (services/llmProvider.ts, third module)

    The [services] object of the response is flattened into the fields
    [api], [database] and [cache]. *)

Module HealthStatus.
Inductive t : Type := healthy | degraded | unhealthy.
End HealthStatus.

Module ServiceState.
Inductive t : Type := ok | error.
End ServiceState.

Module HealthResponse.
Record t : Type := {
  status : HealthStatus.t;
  timestamp : nat;
  api : ServiceState.t;
  database : ServiceState.t;
  cache : ServiceState.t;
  uptime : nat
}.
End HealthResponse.

(** The handler of [GET /health]; [startTime] is the module's load time. *)
Definition healthRoute (startTime : nat) : M (nat * HealthResponse.t) :=
  dbHealth <- checkDBHealth ;;
  let status := if dbHealth : bool then HealthStatus.healthy else HealthStatus.degraded in
  timestamp <- Date_now ;;
  t <- Date_now ;;
  let response :=
    {| HealthResponse.status := status;
       HealthResponse.timestamp := timestamp;
       HealthResponse.api := ServiceState.ok;
       HealthResponse.database := if dbHealth then ServiceState.ok else ServiceState.error;
       HealthResponse.cache := ServiceState.ok;
       HealthResponse.uptime := (t - startTime) / 1000 |} in
  let statusCode := if dbHealth then 200 else 503 in
  emit (Send statusCode) ;;;
  ret (statusCode, response).

(** ** Dates and integers of JavaScript

    What the rate limiter and the start of the server use of [Date] and
    [parseInt]: the ISO form of a time at or after the epoch, and the
    decimal reading of a string (white space is the ASCII one). *)

Module JSDate.

Local Open Scope N_scope.

(** A decimal digit and a number padded with zeros to a width. *)
Definition digit (n : N) : ascii := ascii_of_N (48 + n mod 10).

Fixpoint pad (width : nat) (n : N) : string :=
  match width with
  | O => ""
  | S k => pad k (n / 10) +:+ String (digit n) ""
  end%string.

Definition MS_PER_DAY : N := 86400000.

(** The civil date of a day number counted from 1970-01-01, in the
    proleptic Gregorian calendar: year, month and day of the month. *)
Definition civil (day : N) : N * N * N :=
  let z := day + 719468 in
  let era := z / 146097 in
  let doe := z mod 146097 in
  let yoe := (doe - doe / 1460 + doe / 36524 - doe / 146096) / 365 in
  let doy := doe - (365 * yoe + yoe / 4 - yoe / 100) in
  let mp := (5 * doy + 2) / 153 in
  let d := doy - (153 * mp + 2) / 5 + 1 in
  let m := if mp <? 10 then mp + 3 else mp - 9 in
  (yoe + era * 400 + (if m <=? 2 then 1 else 0), m, d).

(** The date part of [toISOString]: years after 9999 are written with a
    sign and six digits. *)
Definition date (day : N) : string :=
  let '(y, m, d) := civil day in
  (if y <=? 9999 then pad 4 y else "+" +:+ pad 6 y)
    +:+ "-" +:+ pad 2 m +:+ "-" +:+ pad 2 d.

(** [new Date(ms).toISOString()] for a time at or after the epoch. *)
Definition toISOString (ms : N) : string :=
  let t := ms mod MS_PER_DAY in
  date (ms / MS_PER_DAY)
    +:+ "T" +:+ pad 2 (t / 3600000) +:+ ":" +:+ pad 2 (t / 60000 mod 60)
    +:+ ":" +:+ pad 2 (t / 1000 mod 60) +:+ "." +:+ pad 3 (t mod 1000) +:+ "Z".

(** [s.split(c)[0]] *)
Fixpoint before (c : ascii) (s : string) : string :=
  match s with
  | EmptyString => EmptyString
  | String a r => if Ascii.eqb a c then EmptyString else String a (before c r)
  end.

End JSDate.

Module JSNumber.

Definition is_space (c : ascii) : bool :=
  let n := nat_of_ascii c in
  (n =? 32)%nat || ((9 <=? n)%nat && (n <=? 13)%nat).

Fixpoint trim_start (s : string) : string :=
  match s with
  | String c r => if is_space c then trim_start r else s
  | EmptyString => EmptyString
  end.

Definition digit_value (c : ascii) : option Z :=
  let n := nat_of_ascii c in
  if (48 <=? n)%nat && (n <=? 57)%nat then Some (Z.of_nat (n - 48)) else None.

(** The value of the longest prefix of decimal digits, given the value of
    the digits already read; [None] when no digit was read. *)
Fixpoint digits_value (s : string) (acc : option Z) : option Z :=
  match s with
  | String c r =>
      match digit_value c with
      | Some d => digits_value r (Some (10 * default 0%Z acc + d)%Z)
      | None => acc
      end
  | EmptyString => acc
  end.

(** [parseInt(s, 10)]; [None] is [NaN]. *)
Definition parseInt (s : string) : option Z :=
  match trim_start s with
  | String "-" r => Z.opp <$> digits_value r None
  | String "+" r => digits_value r None
  | r => digits_value r None
  end.

(** [`${n}`] for an integer or [NaN]. *)
Definition toString (n : option Z) : string :=
  match n with
  | Some z => NilZero.string_of_int (Z.to_int z)
  | None => "NaN"
  end.

End JSNumber.

(** ** The process around the pipeline

    The rest of lib/cache.ts and lib/db.ts, and [start] of server.ts.  A
    command of the Redis client and a connection to the database resolve
    when the server answers and reject when it does not; [INCR] and
    [FLUSHDB] leave no event.  The Redis client itself is created with the
    default options: while the server does not answer, [connect()] tries
    again and again and its promise stays pending. *)

(** The variables of [process.env] read outside the request pipeline. *)
Module Settings.
Record t : Type := {
  ENABLE_RATE_LIMITING : option string;
  REDIS_URL : option string;
  DATABASE_URL : option string;
  PORT : option string;
  HOST : option string
}.
End Settings.

(** What the process holds besides the stores of [World]. *)
Module Process.
Record t : Type := {
  world : World;
  settings : Settings.t;
  (** whether [app.listen] can bind the address *)
  address_free : bool;
  (** the [rate_limit:*] keys of Redis: a count and, once [EXPIRE] ran, a
      time to live; the keys of the cache, of the locks and of the
      counters differ in their prefix, so each family is a store of its
      own *)
  counters : gmap string (nat * option nat);
  (** [client.isOpen] *)
  isOpen : bool;
  (** whether [prisma] holds a connection *)
  connected : bool;
  (** the host and port that [app.listen] was given and accepted *)
  listening : option (string * option Z);
  (** the signals that have a handler *)
  handled : list string;
  (** the status [process.exit] was called with *)
  exited : option nat
}.

Definition set_world (w : World) (p : t) : t :=
  {| world := w; settings := settings p; address_free := address_free p;
     counters := counters p; isOpen := isOpen p; connected := connected p;
     listening := listening p; handled := handled p; exited := exited p |}.

Definition set_counters (c : gmap string (nat * option nat)) (p : t) : t :=
  {| world := world p; settings := settings p; address_free := address_free p;
     counters := c; isOpen := isOpen p; connected := connected p;
     listening := listening p; handled := handled p; exited := exited p |}.

Definition set_isOpen (b : bool) (p : t) : t :=
  {| world := world p; settings := settings p; address_free := address_free p;
     counters := counters p; isOpen := b; connected := connected p;
     listening := listening p; handled := handled p; exited := exited p |}.

Definition set_connected (b : bool) (p : t) : t :=
  {| world := world p; settings := settings p; address_free := address_free p;
     counters := counters p; isOpen := isOpen p; connected := b;
     listening := listening p; handled := handled p; exited := exited p |}.

Definition set_listening (l : option (string * option Z)) (p : t) : t :=
  {| world := world p; settings := settings p; address_free := address_free p;
     counters := counters p; isOpen := isOpen p; connected := connected p;
     listening := l; handled := handled p; exited := exited p |}.

Definition set_handled (s : list string) (p : t) : t :=
  {| world := world p; settings := settings p; address_free := address_free p;
     counters := counters p; isOpen := isOpen p; connected := connected p;
     listening := listening p; handled := s; exited := exited p |}.

Definition set_exited (c : option nat) (p : t) : t :=
  {| world := world p; settings := settings p; address_free := address_free p;
     counters := counters p; isOpen := isOpen p; connected := connected p;
     listening := listening p; handled := handled p; exited := c |}.
End Process.

(** Awaited computations of the process. *)
Definition Proc (A : Type) : Type := Process.t -> Outcome A * Process.t.

Definition proc_ret {A} (a : A) : Proc A := fun p => (Returned a, p).

Definition proc_bind {A B} (m : Proc A) (k : A -> Proc B) : Proc B :=
  fun p =>
    match m p with
    | (Returned a, p') => k a p'
    | (Thrown e, p') => (Thrown e, p')
    end.

Definition proc_try {A} (m : Proc A) (h : Error -> Proc A) : Proc A :=
  fun p =>
    match m p with
    | (Returned a, p') => (Returned a, p')
    | (Thrown e, p') => h e p'
    end.

(** A computation of the pipeline, run on the world of the process. *)
Definition in_world {A} (m : M A) : Proc A :=
  fun p => let '(o, w) := m (Process.world p) in (o, Process.set_world w p).

Definition the_process : Proc Process.t := fun p => (Returned p, p).

Declare Scope process_scope.
Delimit Scope process_scope with proc.
Notation "x <- m ;; k" := (proc_bind m (fun x => k))
  (at level 90, m at level 80, right associativity) : process_scope.
Notation "m ;;; k" := (proc_bind m (fun _ => k))
  (at level 90, right associativity) : process_scope.

(** A promise that may stay pending for ever, and the computations that
    await one. *)
Inductive Settling (A : Type) : Type :=
| Settled (outcome : Outcome A)
| Pending.
Arguments Settled {A} outcome.
Arguments Pending {A}.

Definition Wait (A : Type) : Type := Process.t -> Settling A * Process.t.

Definition settled {A} (m : Proc A) : Wait A :=
  fun p => let '(o, p') := m p in (Settled o, p').

Definition wait_bind {A B} (m : Wait A) (k : A -> Wait B) : Wait B :=
  fun p =>
    match m p with
    | (Settled (Returned a), p') => k a p'
    | (Settled (Thrown e), p') => (Settled (Thrown e), p')
    | (Pending, p') => (Pending, p')
    end.

Definition wait_try {A} (m : Wait A) (h : Error -> Wait A) : Wait A :=
  fun p =>
    match m p with
    | (Settled (Returned a), p') => (Settled (Returned a), p')
    | (Settled (Thrown e), p') => h e p'
    | (Pending, p') => (Pending, p')
    end.

Declare Scope wait_scope.
Delimit Scope wait_scope with wait.
Notation "x <- m ;; k" := (wait_bind m (fun x => k))
  (at level 90, m at level 80, right associativity) : wait_scope.
Notation "m ;;; k" := (wait_bind m (fun _ => k))
  (at level 90, right associativity) : wait_scope.

(** A command that the Redis server answers or not, and a call that the
    database answers or not. *)
Definition redis_round_trip : M unit :=
  o <- the_outside ;;
  elapse (redis_latency o) ;;;
  if redis_up o then ret tt else throw redis_closed.

Definition db_round_trip : M unit :=
  o <- the_outside ;;
  elapse (db_latency o) ;;;
  if db_up o then ret tt else throw (MkError "Can't reach database server").

Section Lifecycle.
Local Open Scope process_scope.

(** [client.incr(key)]: an absent key counts from zero. *)
Definition client_incr (key : string) : Proc nat :=
  in_world redis_round_trip ;;;
  fun p =>
    let current :=
      S (match Process.counters p !! key with Some (n, _) => n | None => 0 end) in
    let ttl := match Process.counters p !! key with Some (_, ttl) => ttl | None => None end in
    (Returned current, Process.set_counters (<[key := (current, ttl)]> (Process.counters p)) p).

(** [client.expire(key, seconds)] on a counter. *)
Definition client_expire_counter (key : string) (seconds : nat) : Proc unit :=
  in_world (client (EXPIRE key seconds)) ;;;
  fun p =>
    match Process.counters p !! key with
    | Some (n, _) => (Returned tt, Process.set_counters (<[key := (n, Some seconds)]> (Process.counters p)) p)
    | None => (Returned tt, p)
    end.


(** [client.connect()]: [isOpen] is true from the call on.  While the
    server does not answer, the client reports each failed attempt to its
    ['error'] listener, which logs it, and tries again: the promise neither
    resolves nor rejects.  The one line logged here stands for the lines of
    all the attempts. *)
Definition client_connect : Wait unit :=
  fun p =>
    let o := outside (Process.world p) in
    let opened := Process.set_isOpen true p in
    if redis_up o then settled (in_world (elapse (redis_latency o))) opened
    else (Pending, snd (in_world (logger LogError "Redis error") opened)).

(** [client.quit()] *)
Definition client_quit : Proc unit :=
  in_world redis_round_trip ;;; fun p => (Returned tt, Process.set_isOpen false p).

(** [prisma.$connect()] and [prisma.$disconnect()] *)
Definition prisma_connect : Proc unit :=
  in_world db_round_trip ;;; fun p => (Returned tt, Process.set_connected true p).

Definition prisma_disconnect : Proc unit :=
  fun p => (Returned tt, Process.set_connected false p).

(** *** lib/cache.ts, continued *)

(** The [provider] that [initCache] names in its log lines. *)
Definition redisProvider (s : Settings.t) : string :=
  let isUpstash :=
    match Settings.REDIS_URL s with
    | Some url => JS.includes "upstash.io" url
    | None => false
    end in
  if isUpstash then "Upstash" else "Local/Custom Redis".

Definition initCache : Wait unit :=
  (p <- settled the_process ;;
   if negb (Process.isOpen p) then
     let provider := redisProvider (Process.settings p) in
     settled (in_world (logger Info ("Attempting " +:+ provider +:+ " Redis connection..."))) ;;;
     wait_try
       (client_connect ;;;
        settled (in_world (logger Info "Redis connected successfully")))
       (fun error =>
          settled (in_world (logger Warn (provider +:+ " connection failed, cache disabled"))))
   else settled (proc_ret tt))%wait.

Definition closeCache : Proc unit :=
  p <- the_process ;;
  if Process.isOpen p then
    client_quit ;;;
    in_world (logger Info "Redis disconnected")
  else proc_ret tt.

(** 86400 seconds, 24 hours. *)
Definition DAY_SECONDS : nat := 24 * 3600.

(** The key of a user's counter at a time of the clock. *)
Definition rateLimitKey (userId : string) (now : nat) : string :=
  "rate_limit:" +:+ userId +:+ ":"
    +:+ JSDate.before "T" (JSDate.toISOString (N.of_nat now)).

Definition checkRateLimit (userId : string) (maxTokens : option number) : Proc bool :=
  let maxTokens := default 100%Q maxTokens in
  p <- the_process ;;
  if negb (JS.truthy (Settings.ENABLE_RATE_LIMITING (Process.settings p)))
     || bool_decide (Settings.ENABLE_RATE_LIMITING (Process.settings p) = Some "false")
  then proc_ret true
  else
    proc_try
      (now <- in_world Date_now ;;
       let key := rateLimitKey userId now in
       current <- client_incr key ;;
       (if (current =? 1)%nat then client_expire_counter key DAY_SECONDS else proc_ret tt) ;;;
       proc_ret (Qle_bool (inject_Z (Z.of_nat current)) maxTokens))
      (fun error =>
         in_world (logger LogError "Rate limit check failed") ;;;
         proc_ret true).


(** *** lib/db.ts, continued *)

(** The [provider] that [initDB] names in its log lines. *)
Definition databaseProvider (s : Settings.t) : string :=
  let dbUrl := JS.or_else (Settings.DATABASE_URL s) "" in
  let isSupabase := JS.includes "supabase.co" dbUrl in
  let isLocal := JS.includes "localhost" dbUrl in
  if isSupabase then "Supabase"
  else if isLocal then "Local PostgreSQL" else "External PostgreSQL".

Definition initDB : Proc unit :=
  proc_try
    (p <- the_process ;;
     let provider := databaseProvider (Process.settings p) in
     in_world (logger Info ("Attempting database connection to " +:+ provider +:+ "...")) ;;;
     prisma_connect ;;;
     in_world (logger Info "Database connected successfully"))
    (fun error =>
       in_world (logger LogError "Database connection failed") ;;;
       in_world (logger LogError
              "Check that DATABASE_URL is set correctly and database is accessible") ;;;
       fun p => (Thrown error, p)).

Definition closeDB : Proc unit :=
  prisma_disconnect ;;;
  in_world (logger Info "Database disconnected").

(** *** server.ts: starting and stopping *)

(** [createApp()]: the plugins and the three routes are registered. *)
Definition createApp : Proc unit :=
  in_world (logger Info "Health routes registered") ;;;
  in_world (logger Info "Explain route registered") ;;;
  in_world (logger Info "Metrics route registered").

(** A port that [listen] accepts: an integer from 0 to 65535; [NaN] is
    none. *)
Definition valid_port (port : option Z) : bool :=
  match port with
  | Some n => (0 <=? n)%Z && (n <=? 65535)%Z
  | None => false
  end.

(** [app.listen({ port, host })] and [app.close()] *)
Definition app_listen (port : option Z) (host : string) : Proc unit :=
  fun p =>
    if valid_port port then
      if Process.address_free p
      then (Returned tt, Process.set_listening (Some (host, port)) p)
      else (Thrown (MkError "listen EADDRINUSE"), p)
    else (Thrown (MkError "options.port should be >= 0 and < 65536"), p).

Definition app_close : Proc unit :=
  fun p => (Returned tt, Process.set_listening None p).

Definition process_exit (code : nat) : Proc unit :=
  fun p => (Returned tt, Process.set_exited (Some code) p).

(** The handler that [start] installs for a signal. *)
Definition shutdown (signal : string) : Proc unit :=
  in_world (logger Info ("Received " +:+ signal +:+ ", shutting down gracefully...")) ;;;
  app_close ;;;
  closeCache ;;;
  closeDB ;;;
  process_exit 0.

(** [for (const signal of signals) { process.on(signal, ...) }] *)
Definition install_handlers : Proc unit :=
  fun p => (Returned tt, Process.set_handled (Process.handled p ++ ["SIGINT"; "SIGTERM"]) p).

Definition start : Wait unit :=
  wait_try
    (settled initDB ;;;
     initCache ;;;
     settled
       (createApp ;;;
        p <- the_process ;;
        let port := JSNumber.parseInt (JS.or_else (Settings.PORT (Process.settings p)) "3000") in
        let host := JS.or_else (Settings.HOST (Process.settings p)) "0.0.0.0" in
        app_listen port host ;;;
        in_world (logger Info ("Server listening on http://" +:+ host +:+ ":"
                            +:+ JSNumber.toString port)) ;;;
        e <- in_world the_outside ;;
        in_world (logger Info ("Environment: " +:+ JS.or_else (NODE_ENV (env e)) "development")) ;;;
        install_handlers)%proc)%wait
    (fun err =>
       settled
         (in_world (logger LogError "Failed to start server") ;;;
          process_exit 1)%proc).

End Lifecycle.

(** ** The shape of a reply

    Modelled from the spec: the type [ExplanationResult] is declared in the
    engine package; the shape below is the one of spec section 3, which is
    also the JSON schema that the system prompt gives the remote model.
    [fingerprint] and [executionTimeMs] are not part of that schema and are
    not required of a reply. *)

Module Shape.

Definition is_string (v : JSON.value) : bool :=
  match v with JSON.Str _ => true | _ => false end.

Definition is_number (v : JSON.value) : bool :=
  match v with JSON.Number _ => true | _ => false end.

Definition one_of (names : list string) (v : JSON.value) : bool :=
  match v with
  | JSON.Str s => existsb (String.eqb s) names
  | _ => false
  end.

Definition nullable (check : JSON.value -> bool) (v : JSON.value) : bool :=
  match v with JSON.Null => true | _ => check v end.

Definition array_of (check : JSON.value -> bool) (v : JSON.value) : bool :=
  match v with JSON.Array items => forallb check items | _ => false end.

Definition required (k : string) (check : JSON.value -> bool)
    (members : list (string * JSON.value)) : bool :=
  match JSON.get k members with Some v => check v | None => false end.

Definition optional (k : string) (check : JSON.value -> bool)
    (members : list (string * JSON.value)) : bool :=
  match JSON.get k members with Some v => check v | None => true end.

Definition object_with (checks : list (list (string * JSON.value) -> bool))
    (v : JSON.value) : bool :=
  match v with
  | JSON.Object members => forallb (fun check => check members) checks
  | _ => false
  end.

Definition level : JSON.value -> bool := one_of ["low"; "medium"; "high"].

Definition operation : JSON.value -> bool :=
  one_of ["SeqScan"; "IndexScan"; "IndexOnlyScan"; "BitmapHeapScan"; "HashJoin";
          "NestedLoop"; "Sort"; "Aggregate"; "Limit"; "Other"].

Definition cost : JSON.value -> bool :=
  object_with [required "startup" is_number; required "total" is_number].

Definition planAnalysisNode : JSON.value -> bool :=
  object_with
    [required "nodeId" is_string; required "operation" operation;
     optional "estimatedRows" (nullable is_number);
     optional "actualRows" (nullable is_number);
     optional "cost" (nullable cost);
     required "hotnessScore" is_number; required "explanation" is_string].

Definition optimizationSuggestion : JSON.value -> bool :=
  object_with
    [required "title" is_string; required "severity" level;
     required "reason" is_string; required "change" is_string;
     required "estimatedImpact" is_string].

Definition antipattern : JSON.value -> bool :=
  object_with
    [required "name" is_string; required "severity" level;
     required "explain" is_string].

Definition matchesExplanationResult : JSON.value -> bool :=
  object_with
    [required "summary" is_string;
     required "walkthrough" (array_of is_string);
     required "planAnalysis" (array_of planAnalysisNode);
     required "optimizations" (array_of optimizationSuggestion);
     required "antipatterns" (array_of antipattern);
     optional "rewrittenSQL" is_string;
     required "confidence" level].

End Shape.

(** ** Observations on a run *)

Definition is_backend_call (e : Event) : bool :=
  match e with BackendCall _ => true | _ => false end.

Definition is_db_create (e : Event) : bool :=
  match e with DbCreate _ _ => true | _ => false end.

Definition is_lock_command (e : Event) : bool :=
  match e with
  | Redis (SETNX _) | Redis (EXPIRE _ _) | Redis (DEL _) => true
  | _ => false
  end.

(** How often [llmProvider.explainSQL] was invoked. *)
Definition backend_calls (es : list Event) : nat :=
  length (List.filter is_backend_call es).

(** No command on a [lock:*] key. *)
Definition lock_free (es : list Event) : bool :=
  forallb (fun e => negb (is_lock_command e)) es.

Definition is_finished (t : Task) : bool :=
  match t with Finished _ => true | _ => false end.

(** Redis in some other state: reachable or not, slow or fast, with other
    entries. *)
Definition with_redis (up : bool) (latency : nat)
    (c : gmap string (ExplanationResult.t * nat))
    (l : gmap string (option nat)) (w : World) : World :=
  set_outside
    {| env := env (outside w); redis_up := up; db_up := db_up (outside w);
       redis_latency := latency;
       llm_latency := llm_latency (outside w);
       db_latency := db_latency (outside w);
       Math_random := Math_random (outside w);
       completion := completion (outside w) |}
    (set_cache c (set_locks l w)).

(** The value of [cacheGet key], and the world once it has settled. *)
Definition cache_entry (key : string) (w : World) : option ExplanationResult.t :=
  if redis_up (outside w) then fst <$> cache w !! key else None.

Definition got (key : string) (w : World) : World :=
  set_events
    (events w ++ Redis (GET key)
       :: (if redis_up (outside w) then [] else [Log LogError "Cache get failed"]))
    (set_now (now w + redis_latency (outside w)) w).

(** The world once [cacheSet key value ttl] has settled. *)
Definition stored (key : string) (value : ExplanationResult.t) (ttl : option nat)
    (w : World) : World :=
  let w' := set_now (now w + redis_latency (outside w)) w in
  if redis_up (outside w) then
    set_cache (<[key := (value, ttl_or_default ttl)]> (cache w))
      (set_events (events w ++ [Redis (SETEX key (ttl_or_default ttl))]) w')
  else
    set_events (events w ++ [Redis (SETEX key (ttl_or_default ttl));
                             Log LogError "Cache set failed"]) w'.

(** An entry that passes [if (cached)]. *)
Definition if_truthy (entry : option ExplanationResult.t) : option ExplanationResult.t :=
  match entry with
  | Some result => if ExplanationResult.truthy result then Some result else None
  | None => None
  end.

(** The outcome of the route's cache lookup and the world after it. *)
Definition checked_result `{Engine} (req : ExplainRequest.t) (w : World)
  : option ExplanationResult.t :=
  if ExplainRequest.cache req then if_truthy (cache_entry (cacheKeyOf req) w) else None.

Definition checked `{Engine} (req : ExplainRequest.t) (w : World) : World :=
  if ExplainRequest.cache req then
    let w' := got (cacheKeyOf req) w in
    match if_truthy (cache_entry (cacheKeyOf req) w) with
    | Some _ => set_events (events w' ++ [CacheHit "explain"; Log Debug "Cache hit"]) w'
    | None => w'
    end
  else w.

(** The world from which the route calls the service on a miss. *)
Definition missed (w : World) : World :=
  set_events (events w ++ [CacheMiss "explain"; Log Debug "Computing explanation"]) w.


(** The reply of a run that found [result], from the cache or not. *)
Definition success_reply `{Engine} (request : Request.t) (req : ExplainRequest.t)
    (result : ExplanationResult.t) (fromCache : bool) (timestamp : nat) : Reply.t :=
  {| Reply.statusCode := 200;
     Reply.success := true;
     Reply.data :=
       Some {| ReplyData.result :=
                 ExplanationResult.with_fingerprint
                   (fingerprint (ExplainRequest.sql req)) result;
               ReplyData.cached := fromCache |};
     Reply.error := None;
     Reply.requestId := Request.id request;
     Reply.timestamp := timestamp |}.

Definition failure_reply (request : Request.t) (error : Error) (timestamp : nat) : Reply.t :=
  {| Reply.statusCode := 500;
     Reply.success := false;
     Reply.data := None;
     Reply.error := Some (message error);
     Reply.requestId := Request.id request;
     Reply.timestamp := timestamp |}.


(** A task that looked up the cache and found nothing. *)
Definition is_missed (req : ExplainRequest.t) (t : Task) : Prop :=
  exists startTime request, t = Looked startTime request req None.

(** A stretch of a run that leaves the environment and the locks alone and
    invokes the backend [calls] times. *)
Definition advanced (calls : nat) (w w' : World) : Prop :=
  outside w' = outside w /\ locks w' = locks w
  /\ exists added,
       events w' = events w ++ added
       /\ backend_calls added = calls /\ lock_free added = true.

Definition is_send (e : Event) : bool :=
  match e with Send _ => true | _ => false end.


(** The row that the service writes for a statement and its explanation. *)
Definition cacheRecord `{Engine} (originalSql dialect : string)
    (explanation : ExplanationResult.t) : CacheRecord.t :=
  {| CacheRecord.queryHash := QueryFingerprint.hash (fingerprint originalSql);
     CacheRecord.queryPattern := QueryFingerprint.pattern (fingerprint originalSql);
     CacheRecord.sql := originalSql;
     CacheRecord.sanitizedSql := sanitizeSQL originalSql true;
     CacheRecord.dialect := dialect;
     CacheRecord.explanation := explanation;
     CacheRecord.confidence := ExplanationResult.confidence explanation |}.

(** The request that the service hands to the backend. *)
Definition llmRequest (originalSql sanitizedSql dialect : string)
    (schema explainPlan : option string) : LLMRequest.t :=
  {| LLMRequest.sql := originalSql;
     LLMRequest.sanitizedSql := Some sanitizedSql;
     LLMRequest.dialect := dialect;
     LLMRequest.schema := schema;
     LLMRequest.explainPlan := explainPlan;
     LLMRequest.privacyMode := true |}.

Definition is_log (e : Event) : bool :=
  match e with Log _ _ => true | _ => false end.

Section Runs.
Context `{Engine}.

(** The plan that [parsePlan] yields and what it records on the way. *)
Definition plan_outcome (explainPlan : option string) (dialect : string)
  : option ExplainNode * list Event :=
  match explainPlan with
  | Some text =>
      if JS.truthy explainPlan then
        match parseExplainPlan text dialect with
        | Returned node => (Some node, [PlanParseCall text dialect])
        | Thrown _ =>
            (None, [PlanParseCall text dialect;
                    Log Warn "Failed to parse EXPLAIN plan"])
        end
      else (None, [])
  | None => (None, [])
  end.

(** Whether the row can be written: the database answers and the hash is
    not in the table yet. *)
Definition write_succeeds (data : CacheRecord.t) (w : World) : bool :=
  db_up (outside w)
  && negb (hash_taken (CacheRecord.queryHash data) (explanation_cache w)).

(** The world once the write of [data] has settled. *)
Definition persisted (data : CacheRecord.t) (w : World) : World :=
  let w' := set_now (now w + db_latency (outside w)) w in
  if write_succeeds data w then
    set_events (events w ++ [DbCreate data true])
      (set_explanation_cache (explanation_cache w ++ [data]) w')
  else
    set_events (events w ++ [DbCreate data false;
                             Log Warn "Failed to cache explanation in database"]) w'.

End Runs.

(** The mapping rule of spec section 3, in the spec's words: what the
    suggestion derived from a recommendation looks like. *)
Definition DerivedFrom (rec : Recommendation.t) (s : OptimizationSuggestion.t) : Prop :=
  OptimizationSuggestion.title s
  = "Add " +:+ Recommendation.type rec +:+ " index on " +:+ Recommendation.table rec
      +:+ "(" +:+ JS.join "," (Recommendation.columns rec) +:+ ")"
  /\ (JS.Contains "missing" (Recommendation.reason rec)
      \/ JS.Contains "sequential" (Recommendation.reason rec) ->
      OptimizationSuggestion.severity s = high)
  /\ (~ (JS.Contains "missing" (Recommendation.reason rec)
         \/ JS.Contains "sequential" (Recommendation.reason rec)) ->
      OptimizationSuggestion.severity s = medium)
  /\ (forall firstColumn others,
        Recommendation.columns rec = firstColumn :: others ->
        OptimizationSuggestion.change s
        = "CREATE INDEX idx_" +:+ Recommendation.table rec +:+ "_" +:+ firstColumn
            +:+ " ON " +:+ Recommendation.table rec
            +:+ "(" +:+ JS.join "," (Recommendation.columns rec) +:+ ")").

(** *** What the schema asks of a body

    In the words of types.ts: an object whose [sql] is a string that is not
    empty, whose [dialect], when there, is one of the three names, whose
    [schema] and [explainPlan], when there, are strings, and whose
    [privacyMode] and [cache], when there, are booleans. *)

Definition absent_or (P : JSON.value -> Prop) (member : option JSON.value) : Prop :=
  match member with
  | Some v => P v
  | None => True
  end.

Definition is_a_string (v : JSON.value) : Prop := exists s, v = JSON.Str s.

Definition is_a_boolean (v : JSON.value) : Prop := exists b, v = JSON.Bool b.

Definition is_a_dialect (v : JSON.value) : Prop :=
  v = JSON.Str "postgres" \/ v = JSON.Str "mysql" \/ v = JSON.Str "sqlite".

Definition ValidBody (body : option JSON.value) : Prop :=
  exists members,
    body = Some (JSON.Object members)
    /\ (exists sql, JSON.get "sql" members = Some (JSON.Str sql) /\ sql <> "")
    /\ absent_or is_a_dialect (JSON.get "dialect" members)
    /\ absent_or is_a_string (JSON.get "schema" members)
    /\ absent_or is_a_string (JSON.get "explainPlan" members)
    /\ absent_or is_a_boolean (JSON.get "privacyMode" members)
    /\ absent_or is_a_boolean (JSON.get "cache" members).

(** *** More observations

    The events of one family, and what the route and the service record. *)

(** The commands sent to Redis, the two kinds of metric, and what the
    service records. *)
Definition is_redis (e : Event) : bool :=
  match e with Redis _ => true | _ => false end.

Definition is_request_metrics (e : Event) : bool :=
  match e with RequestMetrics _ _ _ _ => true | _ => false end.

Definition is_cache_metric (e : Event) : bool :=
  match e with CacheHit _ | CacheMiss _ => true | _ => false end.

Definition is_service_event (e : Event) : bool :=
  match e with
  | Log _ _ | PlanParseCall _ _ | BackendCall _ | DbCreate _ _ => true
  | _ => false
  end.

(** What [explainSQL] of a provider yields in a world: the value of the
    stand-in, or the parsed completion of the remote model. *)
Definition backend_result `{Engine} (llmProvider : LLMProvider) (request : LLMRequest.t)
    (w : World) : Outcome ExplanationResult.t :=
  match llmProvider with
  | LocalStubProvider =>
      Returned (stubResult (LLMRequest.sql request)
                  (Math_random (outside w) (draws w) * 100)%Q)
  | OpenAIProvider _ =>
      match completion (outside w) (calls w) (buildPrompt request) with
      | Returned content =>
          match parseResponse (JS.or_else content "") with
          | Returned v => Returned (asExplanationResult v)
          | Thrown _ => Thrown invalid_format
          end
      | Thrown e => Thrown e
      end
  end.

(** The plan that the service hands to the backend: an empty text counts
    as none. *)
Definition plan_passed (explainPlan : option string) : option string :=
  if JS.truthy explainPlan then explainPlan else None.

(** What the route records while it looks a request up, and while it
    stores a result. *)
Definition lookup_trace `{Engine} (req : ExplainRequest.t) (w : World) : list Event :=
  if ExplainRequest.cache req then
    Redis (GET (cacheKeyOf req))
    :: (if redis_up (outside w) then
          match if_truthy (fst <$> cache w !! cacheKeyOf req) with
          | Some _ => [CacheHit "explain"; Log Debug "Cache hit"]
          | None => []
          end
        else [Log LogError "Cache get failed"])
  else [].

Definition store_trace `{Engine} (req : ExplainRequest.t) (w : World) : list Event :=
  if ExplainRequest.cache req then
    Redis (SETEX (cacheKeyOf req) 3600)
    :: (if redis_up (outside w) then [] else [Log LogError "Cache set failed"])
  else [].

(** The same request with caching switched off. *)
Definition uncached (req : ExplainRequest.t) : ExplainRequest.t :=
  {| ExplainRequest.sql := ExplainRequest.sql req;
     ExplainRequest.dialect := ExplainRequest.dialect req;
     ExplainRequest.schema := ExplainRequest.schema req;
     ExplainRequest.explainPlan := ExplainRequest.explainPlan req;
     ExplainRequest.privacyMode := ExplainRequest.privacyMode req;
     ExplainRequest.cache := false |}.

(** The request that the service builds for the backend from a request
    of the route. *)
Definition serviceRequest `{Engine} (req : ExplainRequest.t) : LLMRequest.t :=
  llmRequest (ExplainRequest.sql req)
    (sanitizeSQL (ExplainRequest.sql req) (ExplainRequest.privacyMode req))
    (ExplainRequest.dialect req) (ExplainRequest.schema req)
    (plan_passed (ExplainRequest.explainPlan req)).

(** What the route itself records, outside the service. *)
Definition is_route_event (e : Event) : bool :=
  match e with
  | Redis _ | CacheHit _ | CacheMiss _ | Log _ _ | RequestMetrics _ _ _ _ | Send _ => true
  | _ => false
  end.

(** A world without its table and its trace. *)
Definition core (w : World)
  : Outside * nat * gmap string (ExplanationResult.t * nat) * gmap string (option nat)
    * nat * nat :=
  (outside w, now w, cache w, locks w, draws w, calls w).

(** The call of the service that the route makes for a request. *)
Definition serviceOf `{Engine} (req : ExplainRequest.t) : M ExplanationResult.t :=
  explainSQLService (ExplainRequest.sql req)
    (sanitizeSQL (ExplainRequest.sql req) (ExplainRequest.privacyMode req))
    (ExplainRequest.dialect req) (ExplainRequest.schema req)
    (ExplainRequest.explainPlan req).

(** Whether a reply says that it comes from the cache. *)
Definition served_from_cache (reply : Reply.t) : bool :=
  match Reply.data reply with
  | Some d => ReplyData.cached d
  | None => false
  end.


(** Rate limiting is switched on. *)
Definition rate_limited (s : Settings.t) : Prop :=
  exists flag,
    Settings.ENABLE_RATE_LIMITING s = Some flag /\ flag <> "" /\ flag <> "false".

(** A character does not occur in a string. *)
Fixpoint free_of (c : ascii) (s : string) : bool :=
  match s with
  | EmptyString => true
  | String a r => negb (Ascii.eqb a c) && free_of c r
  end.

(** ** A concrete deployment, for running the model *)

Module Demo.

Definition leaf : ExplainNode := MkExplainNode "1" SeqScan None None None [].

Definition recommendations : list Recommendation.t :=
  [ {| Recommendation.type := "btree"; Recommendation.table := "users";
       Recommendation.columns := ["created_at"; "id"];
       Recommendation.reason := "sequential scan on a filtered column" |};
    {| Recommendation.type := "hash"; Recommendation.table := "orders";
       Recommendation.columns := ["user_id"];
       Recommendation.reason := "join key without index" |} ].

(** A result with nothing in it. *)
Definition blank : ExplanationResult.t :=
  {| ExplanationResult.summary := "";
     ExplanationResult.walkthrough := [];
     ExplanationResult.planAnalysis := [];
     ExplanationResult.optimizations := [];
     ExplanationResult.antipatterns := [];
     ExplanationResult.rewrittenSQL := None;
     ExplanationResult.confidence := low;
     ExplanationResult.fingerprint :=
       {| QueryFingerprint.hash := ""; QueryFingerprint.pattern := "";
          QueryFingerprint.tables := []; QueryFingerprint.joinCount := 0%Q;
          QueryFingerprint.whereClauseComplexity := 0%Q |};
     ExplanationResult.executionTimeMs := 0%Q;
     ExplanationResult.truthy := true;
     ExplanationResult.optimizations_slot := JSON.holds_undefined |}.

(** A value with no field of the declared type in it. *)
Definition seen (v : JSON.value) : ExplanationResult.t :=
  {| ExplanationResult.summary := "";
     ExplanationResult.walkthrough := [];
     ExplanationResult.planAnalysis := [];
     ExplanationResult.optimizations := [];
     ExplanationResult.antipatterns := [];
     ExplanationResult.rewrittenSQL := None;
     ExplanationResult.confidence := low;
     ExplanationResult.fingerprint := ExplanationResult.fingerprint blank;
     ExplanationResult.executionTimeMs := 0%Q;
     ExplanationResult.truthy := JSON.truthy v;
     ExplanationResult.optimizations_slot := JSON.optimizations v |}.

(** An engine whose postgres text parser rejects everything and whose other
    parsers accept everything; a reply is viewed as a value without fields. *)
Definition engine : Engine := {|
  fingerprint s :=
    {| QueryFingerprint.hash := "fp_" +:+ s;
       QueryFingerprint.pattern := s;
       QueryFingerprint.tables := [];
       QueryFingerprint.joinCount := 0%Q;
       QueryFingerprint.whereClauseComplexity := 0%Q |};
  sanitizeSQL s enabled := if enabled then "/*redacted*/ " +:+ s else s;
  analyzeExplainPlan _ := recommendations;
  parsePostgresExplainJson _ := Returned leaf;
  parsePostgresExplainText _ := Thrown (MkError "not a text plan");
  parseMysqlExplainJson _ := Returned leaf;
  parseSqliteExplainQueryPlan _ := Returned leaf;
  stringifyPlan _ := "{}";
  asExplanationResult := seen;
  asExplanationResult_truthy _ := eq_refl;
  asExplanationResult_optimizations _ := eq_refl
|}.

Definition stub_env : Env :=
  {| OPENAI_API_KEY := None; LLM_PROVIDER := Some "stub"; NODE_ENV := None |}.

Definition openai_env : Env :=
  {| OPENAI_API_KEY := Some "sk-test"; LLM_PROVIDER := None; NODE_ENV := None |}.

Definition bare_env : Env :=
  {| OPENAI_API_KEY := None; LLM_PROVIDER := None; NODE_ENV := Some "production" |}.

(** [Math.random()] draws 0, 1/4, 1/2, 3/4 and so on in turn; the remote
    model answers every prompt with [{}]. *)
Definition outside_of (e : Env) (redis db : bool) (db_ms : nat) : Outside :=
  {| env := e; redis_up := redis; db_up := db;
     redis_latency := 2; llm_latency := 900; db_latency := db_ms;
     Math_random := fun k => (Z.of_nat (k mod 4) # 4)%Q;
     completion := fun _ _ => Returned (Some "{}") |}.

Definition world_of (o : Outside) : World :=
  {| outside := o; now := 1000; cache := ∅; locks := ∅;
     explanation_cache := []; events := []; draws := 0; calls := 0 |}.

Definition world : World := world_of (outside_of stub_env true true 5).

Definition openai_world : World := world_of (outside_of openai_env true true 5).

Definition select_1 : LLMRequest.t :=
  llmRequest "SELECT 1" "SELECT 1" "postgres" None None.

Definition body (sql : string) (dialect explainPlan : option string) : option JSON.value :=
  Some (JSON.Object
          ([("sql", JSON.Str sql)]
             ++ match dialect with Some d => [("dialect", JSON.Str d)] | None => [] end
             ++ match explainPlan with
                | Some plan => [("explainPlan", JSON.Str plan)]
                | None => []
                end)).

Definition sql : string := "SELECT name FROM users WHERE id = 1".

Definition request (id : string) : Request.t :=
  {| Request.id := id; Request.body := body sql None None |}.

(** What the schema makes of that body. *)
Definition parsed : ExplainRequest.t :=
  {| ExplainRequest.sql := sql;
     ExplainRequest.dialect := "postgres";
     ExplainRequest.schema := None;
     ExplainRequest.explainPlan := None;
     ExplainRequest.privacyMode := true;
     ExplainRequest.cache := true |}.


Definition db_down_world : World := world_of (outside_of stub_env true false 5).

(** The first of two identical requests, and what it is answered. *)
Definition first_run : Outcome Reply.t * World :=
  explainRoute (H := engine) (request "a") world.

Definition first_reply : Reply.t :=
  success_reply (H := engine) (request "a") parsed
    (stubResult sql ((0 # 4) * 100)%Q) false 1009.

(** A run of the service with a plan that parses. *)
Definition planned_run : Outcome ExplanationResult.t * World :=
  explainSQLService (H := engine) sql "SELECT name FROM users WHERE id = ?"
    "postgres" None (Some "[]") world.

Definition planned_result : ExplanationResult.t :=
  ExplanationResult.push_optimizations
    (map (heuristicSuggestion) recommendations)
    (stubResult sql ((0 # 4) * 100)%Q).

End Demo.

(** ** More deployments and requests *)

Module Scenario.

(** No provider can be constructed; Redis does not answer; the remote API
    rejects every call. *)
Definition unconfigured_world : World :=
  Demo.world_of (Demo.outside_of Demo.bare_env true true 5).

Definition redis_down_world : World :=
  Demo.world_of (Demo.outside_of Demo.stub_env false true 5).

Definition rate_limited_api : Error := MkError "429 Too Many Requests".

Definition rejecting_world : World :=
  Demo.world_of
    {| env := Demo.openai_env; redis_up := true; db_up := true;
       redis_latency := 2; llm_latency := 900; db_latency := 5;
       Math_random := fun _ => 0%Q;
       completion := fun _ _ => Thrown rate_limited_api |}.


(** The statement of [Demo.request] with caching switched off, and for
    another dialect with a plan. *)
Definition uncached_request : Request.t :=
  {| Request.id := "u";
     Request.body :=
       Some (JSON.Object [("sql", JSON.Str Demo.sql); ("cache", JSON.Bool false)]) |}.



(** A process that has not started, with rate limiting on or off. *)
Definition settings (limiting : option string) : Settings.t :=
  {| Settings.ENABLE_RATE_LIMITING := limiting;
     Settings.REDIS_URL := None;
     Settings.DATABASE_URL := Some "postgresql://localhost:5432/playground";
     Settings.PORT := None;
     Settings.HOST := None |}.

Definition process (w : World) (limiting : option string) : Process.t :=
  {| Process.world := w;
     Process.settings := settings limiting;
     Process.address_free := true;
     Process.counters := ∅;
     Process.isOpen := false;
     Process.connected := false;
     Process.listening := None;
     Process.handled := [];
     Process.exited := None |}.

(** The same process told to listen on another port. *)
Definition process_on_port (w : World) (port : string) : Process.t :=
  {| Process.world := w;
     Process.settings :=
       {| Settings.ENABLE_RATE_LIMITING := None;
          Settings.REDIS_URL := None;
          Settings.DATABASE_URL := Some "postgresql://localhost:5432/playground";
          Settings.PORT := Some port;
          Settings.HOST := None |};
     Process.address_free := true;
     Process.counters := ∅;
     Process.isOpen := false;
     Process.connected := false;
     Process.listening := None;
     Process.handled := [];
     Process.exited := None |}.

(** Request bodies that the schema rejects for a member other than [sql]
    and [dialect]. *)
Definition null_plan_body : option JSON.value :=
  Some (JSON.Object [("sql", JSON.Str Demo.sql); ("explainPlan", JSON.Null)]).

Definition text_flag_body : option JSON.value :=
  Some (JSON.Object [("sql", JSON.Str Demo.sql); ("cache", JSON.Str "yes")]).

End Scenario.

(** * Properties *)

Ltac list_norm := repeat first [rewrite <- app_assoc | progress (cbn [app])].

(** ** JSON.parse does not depend on its fuel *)

Section ParserFuel.
Import JSON.

Lemma skip_ws_length (s : list ascii) : length (skip_ws s) <= length s.
Proof.
  induction s as [|c r IH]; [done |]. simpl.
  destruct (is_ws c); simpl; lia.
Qed.

Lemma after_length (c : ascii) (s r : list ascii) :
  after c s = Some r -> length s = S (length r).
Proof.
  destruct s as [|x s]; [done |]. simpl.
  destruct (Ascii.eqb x c); [|done]. by intros [= ->].
Qed.

Lemma literal_length (word s r : list ascii) :
  literal word s = Some r -> length r <= length s.
Proof.
  revert s. induction word as [|a word IH]; intros s; simpl.
  - by intros [= ->].
  - destruct s as [|b s]; [done |].
    destruct (Ascii.eqb a b); [|done]. intros Hl%IH. simpl. lia.
Qed.

Lemma string_body_length (s acc : list ascii) (t : string) (r : list ascii) :
  string_body s acc = Some (t, r) -> length r < length s.
Proof.
  remember (length s) as n eqn:Hn. revert s acc Hn.
  induction n as [n IH] using lt_wf_ind. intros s acc ->.
  destruct s as [|c s]; [done |]. simpl.
  destruct (Ascii.eqb c JS.dquote); [intros [= _ ->]; lia |].
  destruct (Ascii.eqb c "\").
  - destruct s as [|e s]; [done |].
    destruct (Ascii.eqb e "u").
    + destruct s as [|h1 [|h2 [|h3 [|h4 s]]]]; try done.
      destruct (hex_val h1), (hex_val h2), (hex_val h3), (hex_val h4); try done.
      intros Hb. eapply IH in Hb; [| |reflexivity]; simpl in *; lia.
    + destruct (simple_escape e); [|done].
      intros Hb. eapply IH in Hb; [| |reflexivity]; simpl in *; lia.
  - destruct (nat_of_ascii c <? 32)%nat; [done |].
    intros Hb. eapply IH in Hb; [| |reflexivity]; simpl in *; lia.
Qed.

Lemma digits_length (s : list ascii) : length (snd (digits s)) <= length s.
Proof.
  induction s as [|c r IH]; [done |]. simpl.
  destruct (is_digit c); [|simpl; lia].
  destruct (digits r) as [d r']. simpl in *. lia.
Qed.

Lemma fraction_length (s f r : list ascii) :
  fraction s = Some (f, r) -> length r <= length s.
Proof.
  unfold fraction. destruct (after "." s) as [r0|] eqn:Ha; [|by intros [= _ <-]].
  apply after_length in Ha. pose proof (digits_length r0) as Hd.
  destruct (digits r0) as [[|d ds] r']; [done |]. intros [= _ <-]. simpl in *. lia.
Qed.

Lemma exponent_length (s e r : list ascii) :
  exponent s = Some (e, r) -> length r <= length s.
Proof.
  unfold exponent. destruct s as [|c s]; [by intros [= _ <-] |].
  destruct (Ascii.eqb c "e" || Ascii.eqb c "E"); [|by intros [= _ <-]].
  assert (exists sign r1,
            match after "+" s with
            | Some r1 => (["+"%char], r1)
            | None =>
                match after "-" s with
                | Some r1 => (["-"%char], r1)
                | None => ([], s)
                end
            end = (sign, r1) /\ length r1 <= length s) as (sign & r1 & -> & Hr1).
  { destruct (after "+" s) as [r1|] eqn:Hp.
    - apply after_length in Hp. eexists _, _. split; [reflexivity | lia].
    - destruct (after "-" s) as [r1|] eqn:Hm.
      + apply after_length in Hm. eexists _, _. split; [reflexivity | lia].
      + eexists _, _. split; [reflexivity | lia]. }
  pose proof (digits_length r1) as Hd.
  destruct (digits r1) as [[|d ds] r']; [done |]. intros [= _ <-]. simpl in *. lia.
Qed.

Lemma integer_length (s i r : list ascii) :
  integer s = Some (i, r) -> length r < length s.
Proof.
  unfold integer. destruct s as [|c s]; [done |].
  destruct (Ascii.eqb c "0"); [intros [= _ <-]; simpl; lia |].
  destruct (is_digit c); [|done].
  pose proof (digits_length s) as Hd. destruct (digits s) as [d r'].
  intros [= _ <-]. simpl in *. lia.
Qed.

Lemma number_length (s : list ascii) (v : value) (r : list ascii) :
  number s = Some (v, r) -> length r < length s.
Proof.
  unfold number.
  assert (exists sign s1,
            match after "-" s with
            | Some r0 => (["-"%char], r0)
            | None => ([], s)
            end = (sign, s1) /\ length s1 <= length s) as (sign & s1 & -> & Hs1).
  { destruct (after "-" s) as [r0|] eqn:Hm.
    - apply after_length in Hm. eexists _, _. split; [reflexivity | lia].
    - eexists _, _. split; [reflexivity | lia]. }
  destruct (integer s1) as [[i r0]|] eqn:Hi; [|done]. apply integer_length in Hi.
  destruct (fraction r0) as [[f r1]|] eqn:Hf; [|done]. apply fraction_length in Hf.
  destruct (exponent r1) as [[e r2]|] eqn:He; [|done]. apply exponent_length in He.
  intros [= _ <-]. lia.
Qed.

Local Arguments literal : simpl never.
Local Arguments string_body : simpl never.
Local Arguments number : simpl never.
Local Arguments skip_ws : simpl never.
Local Arguments after : simpl never.
Local Arguments list_ascii_of_string : simpl never.

(** A parsed value, element list or member list has consumed input. *)
Lemma value_length (fuel : nat) :
  (forall s v r, value_ fuel s = Some (v, r) -> length r < length s)
  /\ (forall s acc v r, elements_ fuel s acc = Some (v, r) -> length r < length s)
  /\ (forall s acc v r, members_ fuel s acc = Some (v, r) -> length r < length s).
Proof.
  induction fuel as [|fuel (IHv & IHe & IHm)]; [done |].
  split; [|split].
  - intros s v r. simpl. pose proof (skip_ws_length s) as Hs.
    destruct (skip_ws s) as [|c s']; [done |]. simpl in Hs.
    destruct (Ascii.eqb c "n").
    { match goal with |- context [literal ?word s'] =>
        destruct (literal word s') as [r'|] eqn:Hl end; [|done].
      apply literal_length in Hl. intros [= _ <-]. lia. }
    destruct (Ascii.eqb c "t").
    { match goal with |- context [literal ?word s'] =>
        destruct (literal word s') as [r'|] eqn:Hl end; [|done].
      apply literal_length in Hl. intros [= _ <-]. lia. }
    destruct (Ascii.eqb c "f").
    { match goal with |- context [literal ?word s'] =>
        destruct (literal word s') as [r'|] eqn:Hl end; [|done].
      apply literal_length in Hl. intros [= _ <-]. lia. }
    destruct (Ascii.eqb c JS.dquote).
    { destruct (string_body s' []) as [[t r']|] eqn:Hb; [|done].
      apply string_body_length in Hb. intros [= _ <-]. lia. }
    destruct (Ascii.eqb c "[").
    { pose proof (skip_ws_length s') as Hs'.
      destruct (after "]" (skip_ws s')) as [r'|] eqn:Ha.
      - apply after_length in Ha. intros [= _ <-]. lia.
      - intros He%IHe. lia. }
    destruct (Ascii.eqb c "{").
    { pose proof (skip_ws_length s') as Hs'.
      destruct (after "}" (skip_ws s')) as [r'|] eqn:Ha.
      - apply after_length in Ha. intros [= _ <-]. lia.
      - intros He%IHm. lia. }
    intros Hn%number_length. simpl in Hn. lia.
  - intros s acc v r. simpl.
    destruct (value_ fuel s) as [[v0 r0]|] eqn:Hv; [|done]. apply IHv in Hv.
    pose proof (skip_ws_length r0) as Hs.
    destruct (after "," (skip_ws r0)) as [r'|] eqn:Hc.
    + apply after_length in Hc. intros He%IHe. lia.
    + destruct (after "]" (skip_ws r0)) as [r'|] eqn:Hb; [|done].
      apply after_length in Hb. intros [= _ <-]. lia.
  - intros s acc v r. simpl. pose proof (skip_ws_length s) as Hs.
    destruct (after JS.dquote (skip_ws s)) as [r0|] eqn:Hq; [|done].
    apply after_length in Hq.
    destruct (string_body r0 []) as [[k r1]|] eqn:Hb; [|done].
    apply string_body_length in Hb. pose proof (skip_ws_length r1) as Hs1.
    destruct (after ":" (skip_ws r1)) as [r2|] eqn:Hc; [|done].
    apply after_length in Hc.
    destruct (value_ fuel r2) as [[v0 r3]|] eqn:Hv; [|done]. apply IHv in Hv.
    pose proof (skip_ws_length r3) as Hs3.
    destruct (after "," (skip_ws r3)) as [r4|] eqn:Hcomma.
    + apply after_length in Hcomma. intros He%IHm. lia.
    + destruct (after "}" (skip_ws r3)) as [r4|] eqn:Hclose; [|done].
      apply after_length in Hclose. intros [= _ <-]. lia.
Qed.

(** Any fuel above twice the length of the input gives the same result. *)
Lemma fuel_irrelevant (n : nat) :
  (forall m s, 2 * length s < n -> 2 * length s < m -> value_ n s = value_ m s)
  /\ (forall m s acc, 2 * length s + 1 < n -> 2 * length s + 1 < m ->
        elements_ n s acc = elements_ m s acc)
  /\ (forall m s acc, 2 * length s + 1 < n -> 2 * length s + 1 < m ->
        members_ n s acc = members_ m s acc).
Proof.
  induction n as [|n (IHv & IHe & IHm)]; [repeat split; intros; lia |].
  split; [|split].
  - intros [|m] s Hn Hm; [lia |]. simpl. pose proof (skip_ws_length s) as Hs.
    destruct (skip_ws s) as [|c s']; [done |]. simpl in Hs.
    pose proof (skip_ws_length s') as Hs'.
    repeat (match goal with |- context [if ?b then _ else _] => destruct b end; try done).
    + destruct (after "]" (skip_ws s')); [done |]. apply IHe; lia.
    + destruct (after "}" (skip_ws s')); [done |]. apply IHm; lia.
  - intros [|m] s acc Hn Hm; [lia |]. simpl.
    rewrite (IHv m s) by lia.
    destruct (value_ m s) as [[v0 r0]|] eqn:Hv; [|done].
    apply (proj1 (value_length m)) in Hv. pose proof (skip_ws_length r0) as Hs.
    destruct (after "," (skip_ws r0)) as [r'|] eqn:Hc; [|done].
    apply after_length in Hc. apply IHe; lia.
  - intros [|m] s acc Hn Hm; [lia |]. simpl. pose proof (skip_ws_length s) as Hs.
    destruct (after JS.dquote (skip_ws s)) as [r0|] eqn:Hq; [|done].
    apply after_length in Hq.
    destruct (string_body r0 []) as [[k r1]|] eqn:Hb; [|done].
    apply string_body_length in Hb. pose proof (skip_ws_length r1) as Hs1.
    destruct (after ":" (skip_ws r1)) as [r2|] eqn:Hc; [|done].
    apply after_length in Hc.
    rewrite (IHv m r2) by lia.
    destruct (value_ m r2) as [[v0 r3]|] eqn:Hv; [|done].
    apply (proj1 (value_length m)) in Hv. pose proof (skip_ws_length r3) as Hs3.
    destruct (after "," (skip_ws r3)) as [r4|] eqn:Hcomma; [|done].
    apply after_length in Hcomma. apply IHm; lia.
Qed.

Lemma length_list_ascii_of_string (text : string) :
  length (list_ascii_of_string text) = String.length text.
Proof. induction text as [|c text IH]; simpl; congruence. Qed.

(** [JSON.parse] is the parser at any sufficient fuel. *)
Lemma parse_any_fuel (fuel : nat) (text : string) :
  2 * String.length text < fuel -> parse_with fuel text = parse text.
Proof.
  intros Hfuel. unfold parse, parse_with.
  rewrite (proj1 (fuel_irrelevant fuel) (S (2 * String.length text)));
    rewrite ?length_list_ascii_of_string; [reflexivity | lia | lia].
Qed.

End ParserFuel.

Example parse_empty_object : JSON.parse "{}" = Some (JSON.Object []).
Proof. reflexivity. Qed.

Example parse_array :
  JSON.parse "[1, -2.5e3, null, [true, {}]]"
  = Some (JSON.Array [JSON.Number "1"; JSON.Number "-2.5e3"; JSON.Null;
                      JSON.Array [JSON.Bool true; JSON.Object []]]).
Proof. reflexivity. Qed.

Example parse_rejects :
  map JSON.parse ["Seq Scan on users  (cost=0.00..35.50 rows=2550 width=4)";
                  ""; "[1,]"; "01"; "{} {}"; "[[1]"; "nul"]
  = [None; None; None; None; None; None; None].
Proof. reflexivity. Qed.

(** ** Strings *)

Lemma starts_with_prefix (needle hay : string) :
  JS.starts_with needle hay = true <-> exists post, hay = needle +:+ post.
Proof.
  revert hay. induction needle as [|a n IH]; intros hay; simpl.
  - split; [intros _; by exists hay | done].
  - destruct hay as [|b h].
    + split; [done | intros [post Hp]; discriminate].
    + rewrite andb_true_iff, IH. split.
      * intros [Hab [post ->]]. apply Ascii.eqb_eq in Hab as ->. by exists post.
      * intros [post Hp]. injection Hp as -> ->. split; [apply Ascii.eqb_refl | by exists post].
Qed.

Lemma includes_Contains (needle hay : string) :
  JS.includes needle hay = true <-> JS.Contains needle hay.
Proof.
  unfold JS.Contains. induction hay as [|b h IH].
  - simpl. rewrite orb_false_r, starts_with_prefix. split.
    + intros [post Hp]. by exists "", post.
    + intros [pre [post Hp]]. destruct pre; simpl in Hp; [by exists post | discriminate].
  - cbn [JS.includes]. rewrite orb_true_iff, starts_with_prefix, IH. split.
    + intros [[post Hp] | [pre [post Hp]]].
      * by exists "", post.
      * exists (String b pre), post. simpl. by rewrite Hp.
    + intros [pre [post Hp]]. destruct pre as [|c pre]; simpl in Hp.
      * left. by exists post.
      * right. injection Hp as -> ->. by exists pre, post.
Qed.

(** ** The health route *)

(** C10: [GET /health] reports [services.cache] as ok whatever the state of
    Redis; the status and the HTTP code follow the database check alone, and
    the whole response is the same for every state of the cache store, an
    unreachable one included. *)
Theorem health_ignores_cache (startTime : nat) (w : World) :
  exists response,
    fst (healthRoute startTime w)
      = Returned (if db_up (outside w) then 200 else 503, response)
    /\ HealthResponse.cache response = ServiceState.ok
    /\ HealthResponse.status response
       = (if db_up (outside w) then HealthStatus.healthy else HealthStatus.degraded)
    /\ forall up latency c l,
         fst (healthRoute startTime (with_redis up latency c l w))
         = Returned (if db_up (outside w) then 200 else 503, response).
Proof.
  unfold healthRoute, checkDBHealth, prisma_queryRaw_select_1, try_catch, bind,
    the_outside, elapse, emit, Date_now, ret, throw.
  simpl. destruct (db_up (outside w)); simpl; eexists; repeat split.
Qed.

(** ** The provider factory *)

Lemma factory_stub_branch (e : Env) (name : option string) :
  let provider := JS.or_else name (JS.or_else (LLM_PROVIDER e) "openai") in
  String.eqb provider "openai" = false ->
  createLLMProvider e name
  = if String.eqb provider "stub" || bool_decide (NODE_ENV e = Some "test")
    then Returned LocalStubProvider
    else Thrown (MkError ("Unknown LLM provider: " +:+ provider)).
Proof. intros provider Hne. unfold createLLMProvider. fold provider. by rewrite Hne. Qed.

(** C6, as the code has it: the factory yields the stand-in when the chosen
    provider name (the argument, else LLM_PROVIDER, else openai) is stub, or
    is another name than openai in a test context; when the name is openai
    and no credential is configured, construction fails outside a test
    context instead of falling back to the stand-in. *)
Theorem factory_selection (e : Env) (name : option string) :
  let provider := JS.or_else name (JS.or_else (LLM_PROVIDER e) "openai") in
  (provider = "stub" \/ (provider <> "openai" /\ NODE_ENV e = Some "test") ->
   createLLMProvider e name = Returned LocalStubProvider)
  /\ (provider = "openai" -> JS.truthy (OPENAI_API_KEY e) = false ->
      NODE_ENV e <> Some "test" ->
      createLLMProvider e name
      = Thrown (MkError "OPENAI_API_KEY environment variable not set")).
Proof.
  intros provider. split.
  - intros Hsel.
    assert (String.eqb provider "openai" = false) as Hne.
    { apply String.eqb_neq. destruct Hsel as [-> | [Hne _]]; [discriminate | done]. }
    unfold provider in *. rewrite factory_stub_branch by done.
    destruct Hsel as [-> | [_ Htest]]; [done |].
    rewrite (bool_decide_eq_true_2 _ Htest). by rewrite orb_true_r.
  - intros Hp Hkey _. unfold createLLMProvider. fold provider. rewrite Hp. simpl.
    unfold new_OpenAIProvider. simpl.
    destruct (OPENAI_API_KEY e) as [k|]; simpl in *; [|done].
    destruct (String.eqb k "") eqn:Hk; [done | discriminate].
Qed.

Lemma factory_selection_witness :
  createLLMProvider Demo.stub_env None = Returned LocalStubProvider
  /\ createLLMProvider Demo.bare_env None
     = Thrown (MkError "OPENAI_API_KEY environment variable not set").
Proof.
  split.
  - apply (proj1 (factory_selection Demo.stub_env None)). left. reflexivity.
  - apply (proj2 (factory_selection Demo.bare_env None)).
    + reflexivity.
    + reflexivity.
    + simpl. discriminate.
Defined.

(** C6 as stated fails: with no credential configured the factory throws
    rather than yielding the stand-in. *)
Lemma factory_without_credential_throws :
  JS.truthy (OPENAI_API_KEY Demo.bare_env) = false
  /\ createLLMProvider Demo.bare_env None
     = Thrown (MkError "OPENAI_API_KEY environment variable not set")
  /\ createLLMProvider Demo.bare_env None <> Returned LocalStubProvider.
Proof. repeat split. discriminate. Qed.

(** In a test context with no provider name the default name is openai:
    the test-context check is never reached. *)
Lemma factory_in_test_context :
  createLLMProvider
    {| OPENAI_API_KEY := None; LLM_PROVIDER := None; NODE_ENV := Some "test" |} None
    = Thrown (MkError "OPENAI_API_KEY environment variable not set")
  /\ createLLMProvider
       {| OPENAI_API_KEY := Some "sk-test"; LLM_PROVIDER := None; NODE_ENV := Some "test" |} None
     = Returned (OpenAIProvider "sk-test").
Proof. split; reflexivity. Qed.

(** ** Plan-parse dispatch *)

Section Dispatch.
Context `{Engine}.

Lemma parseExplainPlan_other_dialect (explainOutput dialect : string) :
  dialect <> "postgres" -> dialect <> "mysql" -> dialect <> "sqlite" ->
  parseExplainPlan explainOutput dialect
  = Thrown (MkError ("Unsupported dialect: " +:+ dialect)).
Proof.
  intros Hp Hm Hs. unfold parseExplainPlan.
  apply String.eqb_neq in Hp, Hm, Hs. by rewrite Hp, Hm, Hs.
Qed.

Lemma parseExplainPlan_postgres_text (explainOutput : string) :
  JSON.parse explainOutput = None ->
  parseExplainPlan explainOutput "postgres" = parsePostgresExplainText explainOutput.
Proof. intros Hp. unfold parseExplainPlan. simpl. by rewrite Hp. Qed.

Lemma parseExplainPlan_postgres_array (explainOutput : string) (items : list JSON.value) :
  JSON.parse explainOutput = Some (JSON.Array items) ->
  parseExplainPlan explainOutput "postgres"
  = match parsePostgresExplainJson (JSON.Array items) with
    | Returned node => Returned node
    | Thrown _ => parsePostgresExplainText explainOutput
    end.
Proof. intros Hp. unfold parseExplainPlan. simpl. by rewrite Hp. Qed.

(** C7 fails on the code: for dialect postgres, a plan text that is valid
    JSON but not an array (an object, as EXPLAIN (FORMAT JSON) prints one
    level down, a number, a string) leaves the postgres branch without a
    result and is rejected as an unsupported dialect. *)
Theorem postgres_non_array_rejected (explainOutput : string) (parsed : JSON.value) :
  JSON.parse explainOutput = Some parsed ->
  JSON.isArray parsed = false ->
  parseExplainPlan explainOutput "postgres"
  = Thrown (MkError "Unsupported dialect: postgres").
Proof. intros Hp Ha. unfold parseExplainPlan. simpl. by rewrite Hp, Ha. Qed.

End Dispatch.

Lemma postgres_non_array_rejected_witness :
  parseExplainPlan (H := Demo.engine) "{}" "postgres"
  = Thrown (MkError "Unsupported dialect: postgres").
Proof.
  apply (postgres_non_array_rejected (H := Demo.engine) "{}" (JSON.Object [])).
  - reflexivity.
  - reflexivity.
Defined.


(** ** The remote variant *)

Section Remote.
Context `{Engine}.

Lemma parseResponse_cases (responseText : string) :
  match JSON.parse responseText with
  | None | Some JSON.Null => parseResponse responseText = Thrown invalid_format
  | Some v => parseResponse responseText = Returned v
  end.
Proof. unfold parseResponse. by destruct (JSON.parse responseText) as [[]|]. Qed.

(** What the remote variant returns once the completion has arrived. *)
Lemma OpenAIProvider_explainSQL_outcome (key : string) (request : LLMRequest.t)
    (w : World) (content : option string) :
  completion (outside w) (calls w) (buildPrompt request) = Returned content ->
  fst (explainSQL (OpenAIProvider key) request w)
  = match parseResponse (JS.or_else content "") with
    | Returned v => Returned (asExplanationResult v)
    | Thrown _ => Thrown invalid_format
    end.
Proof.
  intros Hc.
  unfold explainSQL, OpenAIProvider_explainSQL, chat_completions_create, logger,
    bind, the_outside, elapse, emit. simpl. rewrite Hc.
  by destruct (parseResponse (JS.or_else content "")).
Qed.

(** C4, as the code has it: the remote variant fails with the invalid-format
    error for every reply that is not valid JSON, and for the JSON [null];
    every other reply that is valid JSON is returned whole as the result,
    with no check against the ExplanationResult shape. *)
Theorem remote_reply_accepted_iff_json (key : string) (request : LLMRequest.t)
    (w : World) (content : option string) :
  completion (outside w) (calls w) (buildPrompt request) = Returned content ->
  match JSON.parse (JS.or_else content "") with
  | None | Some JSON.Null =>
      fst (explainSQL (OpenAIProvider key) request w) = Thrown invalid_format
  | Some v =>
      fst (explainSQL (OpenAIProvider key) request w) = Returned (asExplanationResult v)
  end.
Proof.
  intros Hc. rewrite (OpenAIProvider_explainSQL_outcome _ _ _ _ Hc).
  pose proof (parseResponse_cases (JS.or_else content "")) as Hp.
  destruct (JSON.parse (JS.or_else content "")) as [[]|]; by rewrite Hp.
Qed.

End Remote.

Lemma remote_reply_accepted_iff_json_witness :
  fst (explainSQL (H := Demo.engine) (OpenAIProvider "sk-test")
         Demo.select_1 Demo.openai_world)
  = Returned (asExplanationResult (Engine := Demo.engine) (JSON.Object [])).
Proof.
  apply (remote_reply_accepted_iff_json (H := Demo.engine) "sk-test"
           Demo.select_1
           Demo.openai_world (Some "{}")).
  reflexivity.
Defined.

(** C4 as stated fails: the reply [{}] is valid JSON that has none of the
    fields of an ExplanationResult, and the remote variant returns it. *)
Lemma remote_accepts_shapeless_reply :
  completion (outside Demo.openai_world) (calls Demo.openai_world)
    (buildPrompt Demo.select_1)
  = Returned (Some "{}")
  /\ JSON.parse "{}" = Some (JSON.Object [])
  /\ Shape.matchesExplanationResult (JSON.Object []) = false
  /\ fst (explainSQL (H := Demo.engine) (OpenAIProvider "sk-test")
            Demo.select_1 Demo.openai_world)
     <> Thrown invalid_format.
Proof. repeat split. vm_compute. discriminate. Qed.

(** ** The stand-in variant *)

Section StandIn.
Context `{Engine}.

Lemma LocalStubProvider_explainSQL_outcome (request : LLMRequest.t) (w : World) :
  explainSQL LocalStubProvider request w
  = (Returned (stubResult (LLMRequest.sql request)
                 (Math_random (outside w) (draws w) * 100)%Q),
     set_draws (S (draws w))
       (set_events (events w ++ [BackendCall request;
                                 Log Info "Using LocalStubProvider (mock)"]) w)).
Proof.
  unfold explainSQL, LocalStubProvider_explainSQL, Math_random_next, logger, bind,
    emit, ret. simpl. by rewrite <- app_assoc.
Qed.

(** Apart from [executionTimeMs], the stand-in's result is a function of the
    statement, with confidence low. *)
Lemma stubResult_but_time (sql : string) (t1 t2 : number) :
  ExplanationResult.confidence (stubResult sql t1) = low
  /\ stubResult sql t1
     = {| ExplanationResult.summary := ExplanationResult.summary (stubResult sql t2);
          ExplanationResult.walkthrough := ExplanationResult.walkthrough (stubResult sql t2);
          ExplanationResult.planAnalysis := ExplanationResult.planAnalysis (stubResult sql t2);
          ExplanationResult.optimizations := ExplanationResult.optimizations (stubResult sql t2);
          ExplanationResult.antipatterns := ExplanationResult.antipatterns (stubResult sql t2);
          ExplanationResult.rewrittenSQL := ExplanationResult.rewrittenSQL (stubResult sql t2);
          ExplanationResult.confidence := ExplanationResult.confidence (stubResult sql t2);
          ExplanationResult.fingerprint := ExplanationResult.fingerprint (stubResult sql t2);
          ExplanationResult.executionTimeMs := t1;
          ExplanationResult.truthy := true;
          ExplanationResult.optimizations_slot := JSON.holds_array |}.
Proof. split; reflexivity. Qed.

(** The example scenario of the spec: a filtered SELECT without a plan. *)
Example stub_scenario (t : number) :
  let result :=
    stubResult "SELECT name FROM users WHERE created_at > '2024-01-01'" t in
  ExplanationResult.confidence result = low
  /\ map OptimizationSuggestion.title (ExplanationResult.optimizations result)
     = ["Add index on filtered column"]
  /\ map PlanAnalysisNode.operation (ExplanationResult.planAnalysis result)
     = [SeqScan].
Proof. repeat split. Qed.

End StandIn.

(** C5 fails on the code: [executionTimeMs] is [Math.random() * 100], so two
    calls on the same request return different results.  Here the first two
    draws are 0 and 1/4. *)
Theorem stub_calls_differ :
  let request := Demo.select_1 in
  let first := explainSQL (H := Demo.engine) LocalStubProvider request Demo.world in
  let second := explainSQL (H := Demo.engine) LocalStubProvider request (snd first) in
  fst first = Returned (stubResult "SELECT 1" ((0 # 4) * 100)%Q)
  /\ fst second = Returned (stubResult "SELECT 1" ((1 # 4) * 100)%Q)
  /\ ~ ((0 # 4) * 100 == (1 # 4) * 100)%Q
  /\ fst first <> fst second.
Proof.
  split; [reflexivity |]. split; [reflexivity |]. split.
  - intros Heq. vm_compute in Heq. discriminate.
  - vm_compute. discriminate.
Qed.

(** ** The engine service, step by step *)

Section ServiceSteps.
Context `{Engine}.

Lemma parsePlan_run (explainPlan : option string) (dialect : string) (w : World) :
  parsePlan explainPlan dialect w
  = (Returned (fst (plan_outcome explainPlan dialect)),
     set_events (events w ++ snd (plan_outcome explainPlan dialect)) w).
Proof.
  unfold parsePlan, plan_outcome.
  destruct explainPlan as [text|]; [|destruct w; simpl; by rewrite app_nil_r].
  destruct (JS.truthy (Some text)); [|destruct w; simpl; by rewrite app_nil_r].
  unfold try_catch, bind, emit, lift, logger, emit, ret. simpl.
  destruct (parseExplainPlan text dialect); simpl; [done |].
  by rewrite <- app_assoc.
Qed.

Lemma persist_run (originalSql dialect : string) (explanation : ExplanationResult.t)
    (w : World) :
  persist originalSql dialect (fingerprint originalSql) explanation w
  = (Returned tt, persisted (cacheRecord originalSql dialect explanation) w).
Proof.
  unfold persist, persisted, write_succeeds, prisma_explanationCache_create,
    try_catch, bind, the_outside, elapse, emit, logger, emit, throw, cacheRecord.
  simpl.
  destruct (db_up (outside w) && _); simpl; [done |].
  by rewrite <- app_assoc.
Qed.

Lemma explainSQLService_run (originalSql sanitizedSql dialect : string)
    (schema explainPlan : option string) (w : World) :
  explainSQLService originalSql sanitizedSql dialect schema explainPlan w
  = match createLLMProvider (env (outside w)) None with
    | Thrown e => (Thrown e, w)
    | Returned llmProvider =>
        let '(parsedPlan, parsing) := plan_outcome explainPlan dialect in
        let request :=
          llmRequest originalSql sanitizedSql dialect schema
            (JS.or_opt explainPlan (option_map stringifyPlan parsedPlan)) in
        match explainSQL llmProvider request
                (set_events (events w ++ Log Debug "Explaining SQL" :: parsing) w) with
        | (Thrown e, w2) => (Thrown e, w2)
        | (Returned explanation, w2) =>
            match mergeHeuristics parsedPlan explanation with
            | Returned merged =>
                (Returned merged, persisted (cacheRecord originalSql dialect merged) w2)
            | Thrown e => (Thrown e, w2)
            end
        end
    end.
Proof.
  unfold explainSQLService.
  unfold bind at 1. unfold the_outside at 1. unfold bind at 1. unfold lift at 1.
  destruct (createLLMProvider (env (outside w)) None) as [p|e]; [|done].
  unfold bind at 1. unfold logger, emit at 1. unfold bind at 1.
  rewrite parsePlan_run.
  destruct (plan_outcome explainPlan dialect) as [parsed parsing] eqn:Hplan.
  cbn [fst snd set_events events outside now cache locks explanation_cache draws calls].
  rewrite <- app_assoc. cbn [app].
  unfold bind at 1. unfold llmRequest.
  change (set_events ?e (set_events _ w)) with (set_events e w).
  match goal with |- context [explainSQL p ?r ?w0] => destruct (explainSQL p r w0) as [[r'|e] w2] end;
    [|done].
  unfold bind at 1. unfold lift at 1.
  destruct (mergeHeuristics parsed r') as [merged|e]; [|done].
  unfold bind at 1. rewrite persist_run. done.
Qed.

(** The merge returns when there is no plan or the member holds an array,
    and throws otherwise. *)
Lemma mergeHeuristics_returns (parsedPlan : option ExplainNode)
    (explanation merged : ExplanationResult.t) :
  mergeHeuristics parsedPlan explanation = Returned merged
  <-> match parsedPlan with
      | Some plan =>
          ExplanationResult.optimizations_slot explanation = JSON.holds_array
          /\ merged = ExplanationResult.push_optimizations
                        (map heuristicSuggestion (analyzeExplainPlan plan)) explanation
      | None => merged = explanation
      end.
Proof.
  unfold mergeHeuristics. destruct parsedPlan as [plan|].
  - destruct (ExplanationResult.optimizations_slot explanation); cbn;
      split; try (intros [= <-]; by split); try (by intros [[=] _]).
    by intros [_ ->].
  - split; [by intros [= <-] | by intros ->].
Qed.


(** What a call of the backend does to the world: it is recorded once,
    writes log lines, lets time pass and leaves the stores alone. *)
Lemma explainSQL_effect (llmProvider : LLMProvider) (request : LLMRequest.t) (w : World) :
  let w' := snd (explainSQL llmProvider request w) in
  outside w' = outside w /\ cache w' = cache w /\ locks w' = locks w
  /\ explanation_cache w' = explanation_cache w
  /\ now w <= now w'
  /\ exists logs, events w' = events w ++ BackendCall request :: logs
                  /\ forallb is_log logs = true.
Proof.
  destruct llmProvider as [key|].
  - unfold explainSQL, OpenAIProvider_explainSQL, chat_completions_create, logger,
      bind, the_outside, elapse, emit. simpl.
    destruct (completion _ _ _) as [content|e]; simpl.
    + destruct (parseResponse _); simpl; repeat split; try lia;
        eexists; rewrite <- !app_assoc; simpl; split; reflexivity.
    + repeat split; try lia. eexists; rewrite <- !app_assoc; simpl; split; reflexivity.
  - unfold explainSQL, LocalStubProvider_explainSQL, Math_random_next, logger,
      bind, emit, ret. simpl. repeat split; try lia.
    eexists; rewrite <- !app_assoc; simpl; split; reflexivity.
Qed.

End ServiceSteps.

Section Orchestration.
Context `{Engine}.

Lemma heuristicSuggestion_DerivedFrom (rec : Recommendation.t) :
  DerivedFrom rec (heuristicSuggestion rec).
Proof.
  unfold DerivedFrom, heuristicSuggestion. cbn [OptimizationSuggestion.title
    OptimizationSuggestion.severity OptimizationSuggestion.change].
  split; [reflexivity |].
  rewrite <- !includes_Contains.
  destruct (JS.includes "missing" _) eqn:Hm, (JS.includes "sequential" _) eqn:Hs;
    cbn [orb]; (split; [|split]); try tauto; try (intros; intuition congruence).
  all: intros c cs ->; reflexivity.
Qed.

(** C3: when the supplied plan parses, the service returns the backend's
    result with one suggestion per recommendation of the analyzer appended to
    its optimizations, after the backend's own and in recommendation order;
    each has the title, severity and CREATE INDEX change of the mapping rule;
    nothing else of the backend's result changes. *)
Theorem heuristics_appended (originalSql sanitizedSql dialect : string)
    (schema : option string) (text : string) (plan : ExplainNode)
    (w w' : World) (result : ExplanationResult.t) :
  text <> "" ->
  parseExplainPlan text dialect = Returned plan ->
  explainSQLService originalSql sanitizedSql dialect schema (Some text) w
  = (Returned result, w') ->
  exists llmProvider backend w2 added,
    createLLMProvider (env (outside w)) None = Returned llmProvider
    /\ explainSQL llmProvider
         (llmRequest originalSql sanitizedSql dialect schema (Some text))
         (set_events (events w ++ [Log Debug "Explaining SQL";
                                   PlanParseCall text dialect]) w)
       = (Returned backend, w2)
    /\ ExplanationResult.optimizations result
       = ExplanationResult.optimizations backend ++ added
    /\ Forall2 DerivedFrom (analyzeExplainPlan plan) added
    /\ result = ExplanationResult.push_optimizations added backend.
Proof.
  intros Htext Hparse Hrun. rewrite explainSQLService_run in Hrun.
  destruct (createLLMProvider (env (outside w)) None) as [p|e]; [|discriminate].
  assert (JS.truthy (Some text) = true) as Htruthy.
  { simpl. apply negb_true_iff, String.eqb_neq, Htext. }
  unfold plan_outcome in Hrun. rewrite Htruthy, Hparse in Hrun.
  unfold JS.or_opt in Hrun. rewrite Htruthy in Hrun.
  match type of Hrun with context [explainSQL p ?r ?w0] =>
    destruct (explainSQL p r w0) as [[backend|e] w2] eqn:Hcall end; [|discriminate].
  destruct (mergeHeuristics (Some plan) backend) as [merged|e] eqn:Hmerge; [|discriminate].
  apply mergeHeuristics_returns in Hmerge as [_ ->].
  injection Hrun as <- <-.
  eexists p, backend, w2, _. split; [reflexivity |]. split; [exact Hcall |].
  split; [reflexivity |]. split; [|reflexivity].
  induction (analyzeExplainPlan plan) as [|rec recs IH]; constructor;
    [apply heuristicSuggestion_DerivedFrom | exact IH].
Qed.


(** C8: a plan text that its dialect's parser rejects does not fail the
    request.  The failure is logged as a warning; the service then returns
    exactly what the backend returns for the request, nothing merged in, as
    it does when no plan is supplied; with the stand-in backend the result
    is the very one of the same request without a plan. *)
Theorem parse_failure_degrades (originalSql sanitizedSql dialect : string)
    (schema : option string) (text : string) (err : Error)
    (llmProvider : LLMProvider) (w : World) :
  text <> "" ->
  parseExplainPlan text dialect = Thrown err ->
  createLLMProvider (env (outside w)) None = Returned llmProvider ->
  let service := explainSQLService originalSql sanitizedSql dialect schema in
  let request := llmRequest originalSql sanitizedSql dialect schema in
  let warned :=
    set_events (events w ++ [Log Debug "Explaining SQL";
                             PlanParseCall text dialect;
                             Log Warn "Failed to parse EXPLAIN plan"]) w in
  let plain := set_events (events w ++ [Log Debug "Explaining SQL"]) w in
  fst (service (Some text) w) = fst (explainSQL llmProvider (request (Some text)) warned)
  /\ fst (service None w) = fst (explainSQL llmProvider (request None) plain)
  /\ (exists rest, events (snd (service (Some text) w)) = events warned ++ rest)
  /\ (llmProvider = LocalStubProvider ->
      fst (service (Some text) w) = fst (service None w)).
Proof.
  intros Htext Hparse Hprov service request warned plain.
  assert (JS.truthy (Some text) = true) as Htruthy.
  { simpl. apply negb_true_iff, String.eqb_neq, Htext. }
  assert (fst (service (Some text) w)
          = fst (explainSQL llmProvider (request (Some text)) warned)
          /\ exists rest, events (snd (service (Some text) w)) = events warned ++ rest)
    as [Hwith Hlog].
  { unfold service. rewrite explainSQLService_run, Hprov.
    unfold plan_outcome. rewrite Htruthy, Hparse. unfold JS.or_opt. rewrite Htruthy.
    cbv zeta. fold warned. fold (request (Some text)).
    pose proof (explainSQL_effect llmProvider (request (Some text)) warned)
      as (_ & _ & _ & _ & _ & logs & He & _).
    destruct (explainSQL llmProvider (request (Some text)) warned) as [[r|e] w2];
      cbn [fst snd mergeHeuristics] in *; (split; [reflexivity |]).
    - unfold persisted. rewrite He.
      destruct (write_succeeds _ _); cbn [events set_events set_explanation_cache set_now];
        rewrite <- app_assoc; eexists; reflexivity.
    - rewrite He. eexists; reflexivity. }
  assert (fst (service None w) = fst (explainSQL llmProvider (request None) plain))
    as Hwithout.
  { unfold service. rewrite explainSQLService_run, Hprov. simpl.
    fold plain. change (llmRequest _ _ _ _ (JS.or_opt None None)) with (request None).
    by destruct (explainSQL llmProvider (request None) plain) as [[r|e] w2]. }
  repeat split; try done.
  intros ->. rewrite Hwith, Hwithout.
  by rewrite !LocalStubProvider_explainSQL_outcome.
Qed.

End Orchestration.

(** ** The stampede lock of lib/cache.ts *)

Lemma acquireStampedeLock_free (key : string) (w : World) :
  redis_up (outside w) = true ->
  locks w !! ("lock:" +:+ key) = None ->
  fst (acquireStampedeLock key w) = Returned true
  /\ outside (snd (acquireStampedeLock key w)) = outside w
  /\ locks (snd (acquireStampedeLock key w))
     = <["lock:" +:+ key := Some STAMPEDE_LOCK_TTL_SECONDS]> (locks w).
Proof.
  intros Hup Hfree.
  unfold acquireStampedeLock, client_setNX, client_expire, client, try_catch, bind,
    the_outside, elapse, emit, ret, throw.
  cbn [fst snd outside locks set_now set_events set_locks]. rewrite Hup.
  cbn [fst snd outside locks set_now set_events set_locks]. rewrite Hfree.
  cbn [fst snd outside locks set_now set_events set_locks]. rewrite Hup.
  cbn [fst snd outside locks set_now set_events set_locks]. rewrite lookup_insert_eq.
  cbn [fst snd outside locks set_now set_events set_locks].
  by rewrite insert_insert_eq.
Qed.

Lemma acquireStampedeLock_held (key : string) (w : World) (ttl : option nat) :
  redis_up (outside w) = true ->
  locks w !! ("lock:" +:+ key) = Some ttl ->
  fst (acquireStampedeLock key w) = Returned false
  /\ outside (snd (acquireStampedeLock key w)) = outside w
  /\ locks (snd (acquireStampedeLock key w)) = locks w.
Proof.
  intros Hup Hheld.
  unfold acquireStampedeLock, client_setNX, client_expire, client, try_catch, bind,
    the_outside, elapse, emit, ret, throw.
  cbn [fst snd outside locks set_now set_events set_locks]. rewrite Hup.
  cbn [fst snd outside locks set_now set_events set_locks]. by rewrite Hheld.
Qed.

Lemma releaseStampedeLock_frees (key : string) (w : World) :
  redis_up (outside w) = true ->
  outside (snd (releaseStampedeLock key w)) = outside w
  /\ locks (snd (releaseStampedeLock key w)) = delete ("lock:" +:+ key) (locks w).
Proof.
  intros Hup.
  unfold releaseStampedeLock, client_del, client, try_catch, bind,
    the_outside, elapse, emit, ret, throw.
  cbn [fst snd outside locks set_now set_events set_locks]. by rewrite Hup.
Qed.

(** The lock itself works: on a reachable store the first caller acquires
    it, and a second caller is refused until it is released. *)
Lemma acquireStampedeLock_excludes (key : string) (w : World) :
  redis_up (outside w) = true ->
  locks w !! ("lock:" +:+ key) = None ->
  let first := acquireStampedeLock key w in
  let second := acquireStampedeLock key (snd first) in
  fst first = Returned true
  /\ fst second = Returned false
  /\ fst (acquireStampedeLock key (snd (releaseStampedeLock key (snd second))))
     = Returned true.
Proof.
  intros Hup Hfree first second.
  destruct (acquireStampedeLock_free key w Hup Hfree) as (H1 & Ho1 & Hl1).
  fold first in H1, Ho1, Hl1.
  assert (redis_up (outside (snd first)) = true) as Hup1 by (by rewrite Ho1).
  assert (locks (snd first) !! ("lock:" +:+ key) = Some (Some STAMPEDE_LOCK_TTL_SECONDS))
    as Hheld by (by rewrite Hl1, lookup_insert_eq).
  destruct (acquireStampedeLock_held key (snd first) _ Hup1 Hheld) as (H2 & Ho2 & Hl2).
  fold second in H2, Ho2, Hl2.
  assert (redis_up (outside (snd second)) = true) as Hup2 by (by rewrite Ho2).
  destruct (releaseStampedeLock_frees key (snd second) Hup2) as (Ho3 & Hl3).
  split; [done |]. split; [done |].
  apply acquireStampedeLock_free.
  - by rewrite Ho3.
  - by rewrite Hl3, lookup_delete_eq.
Qed.

(** ** The cache layer and the route, step by step *)

Lemma cacheGet_run (key : string) (w : World) :
  cacheGet key w = (Returned (cache_entry key w), got key w).
Proof.
  unfold cacheGet, client_get, client, try_catch, bind, the_outside, elapse, emit,
    logger, emit, ret, throw, cache_entry, got.
  simpl. destruct (redis_up (outside w)); simpl; [done |].
  by rewrite <- app_assoc.
Qed.

Lemma cacheSet_run (key : string) (value : ExplanationResult.t) (ttl : option nat)
    (w : World) :
  cacheSet key value ttl w = (Returned tt, stored key value ttl w).
Proof.
  unfold cacheSet, client_setEx, client, try_catch, bind, the_outside, elapse, emit,
    logger, emit, ret, throw, stored.
  simpl. destruct (redis_up (outside w)); simpl; [done |].
  by rewrite <- app_assoc.
Qed.

Lemma backend_calls_app (a b : list Event) :
  backend_calls (a ++ b) = backend_calls a + backend_calls b.
Proof. unfold backend_calls. by rewrite List.filter_app, length_app. Qed.

Lemma lock_free_app (a b : list Event) :
  lock_free (a ++ b) = lock_free a && lock_free b.
Proof. apply forallb_app. Qed.

Lemma logs_are_quiet (logs : list Event) :
  forallb is_log logs = true -> backend_calls logs = 0 /\ lock_free logs = true.
Proof.
  induction logs as [|e logs IH]; [done |].
  simpl. intros [He Hl]%andb_true_iff. destruct (IH Hl) as [IHb IHl].
  destruct e; try discriminate. unfold backend_calls in *. simpl. by rewrite IHl.
Qed.

Lemma backend_calls_cons (e : Event) (l : list Event) :
  backend_calls (e :: l) = (if is_backend_call e then 1 else 0) + backend_calls l.
Proof. unfold backend_calls. simpl. by destruct (is_backend_call e). Qed.

Lemma lock_free_cons (e : Event) (l : list Event) :
  lock_free (e :: l) = negb (is_lock_command e) && lock_free l.
Proof. reflexivity. Qed.

Ltac tally :=
  repeat first [ rewrite backend_calls_app | rewrite backend_calls_cons
               | rewrite lock_free_app | rewrite lock_free_cons ];
  change (backend_calls []) with 0; change (lock_free []) with true;
  cbn [is_backend_call is_lock_command negb andb Nat.add].

Section RouteSteps.
Context `{Engine}.

Lemma plan_outcome_quiet (explainPlan : option string) (dialect : string) :
  backend_calls (snd (plan_outcome explainPlan dialect)) = 0
  /\ lock_free (snd (plan_outcome explainPlan dialect)) = true.
Proof.
  unfold plan_outcome. destruct explainPlan as [text|]; [|done].
  destruct (JS.truthy (Some text)); [|done].
  by destruct (parseExplainPlan text dialect).
Qed.

(** What a run of the service does to the world: the cache store and the
    locks are left alone, and the backend is invoked exactly once unless
    no provider can be constructed. *)
Lemma explainSQLService_effect (originalSql sanitizedSql dialect : string)
    (schema explainPlan : option string) (w : World) :
  let w' := snd (explainSQLService originalSql sanitizedSql dialect schema explainPlan w) in
  outside w' = outside w /\ cache w' = cache w /\ locks w' = locks w
  /\ now w <= now w'
  /\ exists added,
       events w' = events w ++ added
       /\ backend_calls added
          = match createLLMProvider (env (outside w)) None with
            | Returned _ => 1
            | Thrown _ => 0
            end
       /\ lock_free added = true.
Proof.
  rewrite explainSQLService_run.
  destruct (createLLMProvider (env (outside w)) None) as [p|e].
  2:{ simpl. repeat split; try done. exists []. by rewrite app_nil_r. }
  pose proof (plan_outcome_quiet explainPlan dialect) as [Hpb Hpl].
  destruct (plan_outcome explainPlan dialect) as [parsed parsing]. simpl in Hpb, Hpl.
  cbv zeta.
  match goal with |- context [explainSQL p ?r ?w0] =>
    pose proof (explainSQL_effect p r w0) as (Ho & Hc & Hk & Ht & Hn & logs & He & Hl);
    destruct (explainSQL p r w0) as [[backend|e] w2] end;
    cbn [snd set_events events outside now cache locks explanation_cache] in *;
    destruct (logs_are_quiet logs Hl) as [Hlb Hll].
  - destruct (mergeHeuristics parsed backend) as [merged|e].
    2:{ cbn [snd]. repeat split; try done.
        rewrite He. eexists. split; [list_norm; reflexivity |].
        tally; rewrite ?Hpb, ?Hpl, ?Hlb, ?Hll; done. }
    cbn [snd]. unfold persisted.
    destruct (write_succeeds _ w2);
      cbn [set_events set_explanation_cache set_now events outside now cache locks];
      (repeat split; try done; try lia);
      rewrite He; eexists; (split; [list_norm; reflexivity |]);
      tally; rewrite ?Hpb, ?Hpl, ?Hlb, ?Hll; done.
  - repeat split; try done.
    rewrite He. eexists. split; [list_norm; reflexivity |].
    tally; rewrite ?Hpb, ?Hpl, ?Hlb, ?Hll; done.
Qed.

Local Arguments explainSQLService : simpl never.

Lemma checkCache_run (req : ExplainRequest.t) (w : World) :
  checkCache req w = (Returned (checked_result req w), checked req w).
Proof.
  unfold checkCache, checked_result, checked.
  destruct (ExplainRequest.cache req); [|done].
  unfold bind. rewrite cacheGet_run.
  destruct (cache_entry (cacheKeyOf req) (w)) as [r|]; [|done].
  cbn [if_truthy]. destruct (ExplanationResult.truthy r); [|done].
  unfold logger, emit, ret. simpl. by rewrite <- app_assoc.
Qed.

Lemma respond_hit_run (startTime : nat) (request : Request.t) (req : ExplainRequest.t)
    (result : ExplanationResult.t) (w : World) :
  try_catch (respond startTime request req (Some result)) (on_error startTime request) w
  = (Returned (success_reply request req result true (now w)),
     set_events (events w ++ [RequestMetrics "POST" "/v1/explain" 200 (now w - startTime);
                              Send 200]) w).
Proof.
  unfold respond, send, try_catch, bind, ret, Date_now, emit, success_reply. simpl.
  by rewrite <- app_assoc.
Qed.

Lemma respond_miss_run (startTime : nat) (request : Request.t) (req : ExplainRequest.t)
    (w : World) :
  try_catch (respond startTime request req None) (on_error startTime request) w
  = match explainSQLService (ExplainRequest.sql req)
            (sanitizeSQL (ExplainRequest.sql req) (ExplainRequest.privacyMode req))
            (ExplainRequest.dialect req) (ExplainRequest.schema req)
            (ExplainRequest.explainPlan req) (missed w) with
    | (Returned result, w1) =>
        let w2 := if ExplainRequest.cache req
                  then stored (cacheKeyOf req) result (Some 3600) w1 else w1 in
        (Returned (success_reply request req result false (now w2)),
         set_events (events w2 ++ [RequestMetrics "POST" "/v1/explain" 200
                                     (now w2 - startTime); Send 200]) w2)
    | (Thrown error, w1) =>
        (Returned (failure_reply request error (now w1)),
         set_events (events w1 ++ [RequestMetrics "POST" "/v1/explain" 500
                                     (now w1 - startTime);
                                   Log LogError "Explain endpoint error"; Send 500]) w1)
    end.
Proof.
  unfold respond, compute, try_catch.
  unfold bind at 1. unfold bind at 1. unfold bind at 1. unfold emit at 1.
  unfold bind at 1. unfold logger, emit at 1. unfold bind at 1.
  change (set_events (events (set_events ?a w) ++ ?b) (set_events ?a w))
    with (set_events (a ++ b) w).
  rewrite <- app_assoc. cbn [app]. fold (missed w).
  destruct (explainSQLService _ _ _ _ _ (missed w)) as [[result|error] w1].
  - unfold bind at 1.
    destruct (ExplainRequest.cache req).
    + rewrite cacheSet_run. unfold send, bind, ret, Date_now, emit, success_reply. simpl.
      by rewrite <- app_assoc.
    + unfold send, bind, ret, Date_now, emit, success_reply. simpl.
      by rewrite <- app_assoc.
  - unfold on_error, send, bind, ret, Date_now, emit, logger, emit, failure_reply. simpl.
    by rewrite <- !app_assoc.
Qed.

Lemma explainRoute_run (request : Request.t) (w : World) :
  explainRoute request w
  = match ExplainRequestSchema_safeParse (Request.body request) with
    | Thrown error => bad_request request error w
    | Returned req =>
        try_catch (respond (now w) request req (checked_result req w))
          (on_error (now w) request) (checked req w)
    end.
Proof.
  unfold explainRoute. unfold bind at 1. unfold Date_now at 1.
  destruct (ExplainRequestSchema_safeParse (Request.body request)) as [req|error].
  - unfold try_catch. unfold bind at 1. by rewrite checkCache_run.
  - unfold try_catch, bad_request, send, bind, Date_now, emit, ret. done.
Qed.



End RouteSteps.

(** ** Concurrent requests *)

Section Concurrency.
Context `{Engine}.

Local Arguments explainSQLService : simpl never.

Lemma schedule_app (first second : list nat) (tasks : list Task) (w : World) :
  schedule (first ++ second) tasks w
  = let '(tasks', w') := schedule first tasks w in schedule second tasks' w'.
Proof.
  revert tasks w. induction first as [|i first IH]; intros tasks w; [done |].
  simpl. destruct (schedule_one i tasks w) as [tasks1 w1]. apply IH.
Qed.

Lemma resume_arrived (request : Request.t) (req : ExplainRequest.t) (w : World) :
  ExplainRequestSchema_safeParse (Request.body request) = Returned req ->
  resume (Arrived request) w
  = (Returned (Looked (now w) request req (checked_result req w)), checked req w).
Proof.
  intros Hparse. unfold resume. unfold bind at 1. unfold Date_now at 1.
  rewrite Hparse. unfold bind. by rewrite checkCache_run.
Qed.

(** A resumed handler always ends with a reply. *)
Lemma resume_looked (startTime : nat) (request : Request.t) (req : ExplainRequest.t)
    (cached : option ExplanationResult.t) (w : World) :
  exists reply w',
    try_catch (respond startTime request req cached) (on_error startTime request) w
    = (Returned reply, w')
    /\ resume (Looked startTime request req cached) w = (Returned (Finished reply), w').
Proof.
  assert (exists reply w',
            try_catch (respond startTime request req cached)
              (on_error startTime request) w = (Returned reply, w')) as (reply & w' & Hrun).
  { destruct cached as [result|].
    - rewrite respond_hit_run. by eexists _, _.
    - rewrite respond_miss_run.
      destruct (explainSQLService _ _ _ _ _ (missed w)) as [[result|error] w1];
        by eexists _, _. }
  exists reply, w'. split; [exact Hrun |].
  cbn [resume]. unfold bind. by rewrite Hrun.
Qed.

(** The handler is one task run to its end. *)
Lemma explainRoute_as_task (request : Request.t) (w : World) :
  exists reply w',
    explainRoute request w = (Returned reply, w')
    /\ schedule [0; 0] [Arrived request] w = ([Finished reply], w').
Proof.
  rewrite explainRoute_run. unfold schedule, schedule_one. cbn [lookup list_lookup].
  destruct (ExplainRequestSchema_safeParse (Request.body request)) as [req|error] eqn:Hparse.
  - rewrite (resume_arrived _ _ _ Hparse). cbn [insert list_insert lookup list_lookup].
    destruct (resume_looked (now w) request req (checked_result req w) (checked req w))
      as (reply & w' & Hrespond & Hresume).
    rewrite Hresume, Hrespond. by eexists _, _.
  - unfold resume. unfold bind at 1. unfold Date_now at 1. rewrite Hparse.
    unfold bad_request, send, bind, Date_now, emit, ret. cbn.
    by eexists _, _.
Qed.

Lemma advanced_trans (a b : nat) (w1 w2 w3 : World) :
  advanced a w1 w2 -> advanced b w2 w3 -> advanced (a + b) w1 w3.
Proof.
  intros (Ho1 & Hl1 & e1 & He1 & Hb1 & Hf1) (Ho2 & Hl2 & e2 & He2 & Hb2 & Hf2).
  split; [congruence |]. split; [congruence |].
  exists (e1 ++ e2). rewrite He2, He1, <- app_assoc. split; [done |].
  by rewrite backend_calls_app, lock_free_app, Hb1, Hb2, Hf1, Hf2.
Qed.

Lemma checked_miss (req : ExplainRequest.t) (w : World) :
  cache w !! cacheKeyOf req = None ->
  checked_result req w = None
  /\ cache (checked req w) = cache w
  /\ advanced 0 w (checked req w).
Proof.
  intros Hmiss. unfold checked_result, checked, cache_entry, got, advanced. rewrite Hmiss.
  destruct (ExplainRequest.cache req).
  - destruct (redis_up (outside w)); cbn; repeat split; eexists; (split; [reflexivity | done]).
  - repeat split. exists []. by rewrite app_nil_r.
Qed.

Lemma resumed_miss (startTime : nat) (request : Request.t) (req : ExplainRequest.t)
    (w : World) (llmProvider : LLMProvider) :
  createLLMProvider (env (outside w)) None = Returned llmProvider ->
  exists reply w',
    resume (Looked startTime request req None) w = (Returned (Finished reply), w')
    /\ advanced 1 w w'.
Proof.
  intros Hprov.
  destruct (resume_looked startTime request req None w)
    as (reply & w' & Hrespond & Hresume).
  exists reply, w'. split; [exact Hresume |].
  rewrite respond_miss_run in Hrespond.
  match type of Hrespond with context [explainSQLService ?a ?b ?c ?d ?e ?w0] =>
    pose proof (explainSQLService_effect a b c d e w0)
      as (Ho & _ & Hk & _ & more & He & Hb & Hf);
    destruct (explainSQLService a b c d e w0) as [[result|error] w1] end;
    unfold missed in *; cbn [snd outside locks events set_events] in *;
    rewrite Hprov in Hb; injection Hrespond as _ <-.
  - unfold stored.
    destruct (ExplainRequest.cache req), (redis_up (outside w1));
      cbn [outside locks events set_events set_cache set_now];
      (split; [done |]); (split; [done |]);
      rewrite He; cbn [events set_events];
      eexists; (split; [list_norm; reflexivity |]); tally; rewrite Hb, ?Hf; done.
  - cbn [outside locks events set_events].
    split; [done |]. split; [done |].
    rewrite He. cbn [events set_events].
    eexists. split; [list_norm; reflexivity |]. tally. by rewrite Hb, ?Hf.
Qed.

Lemma schedule_one_middle (done rest : list Task) (t t' : Task) (w w' : World) :
  resume t w = (Returned t', w') ->
  schedule_one (length done) (done ++ t :: rest) w = ((done ++ [t']) ++ rest, w').
Proof.
  intros Hresume. unfold schedule_one.
  rewrite list_lookup_middle by done. rewrite Hresume.
  rewrite insert_app_r_alt by lia. rewrite Nat.sub_diag. cbn.
  by rewrite <- app_assoc.
Qed.

(** All requests look the cache up before any of them has computed. *)
Lemma arrivals_all_miss (req : ExplainRequest.t) (pending : list Request.t) :
  forall (done : list Task) (w : World),
    Forall (fun r => ExplainRequestSchema_safeParse (Request.body r) = Returned req) pending ->
    cache w !! cacheKeyOf req = None ->
    exists looked w',
      schedule (seq (length done) (length pending)) (done ++ map Arrived pending) w
      = (done ++ looked, w')
      /\ Forall (is_missed req) looked
      /\ length looked = length pending
      /\ advanced 0 w w'.
Proof.
  induction pending as [|r rest IH]; intros done w Hparse Hmiss.
  - exists [], w. cbn. repeat split; try done. exists []. by rewrite app_nil_r.
  - apply Forall_cons in Hparse as [Hr Hrest].
    destruct (checked_miss req w Hmiss) as (Hnone & Hcache & Hadv).
    cbn [length seq map schedule].
    rewrite (schedule_one_middle done (map Arrived rest) _ _ _ _ (resume_arrived r req w Hr)).
    rewrite Hnone.
    assert (cache (checked req w) !! cacheKeyOf req = None) as Hmiss' by (by rewrite Hcache).
    destruct (IH (done ++ [Looked (now w) r req None]) (checked req w) Hrest Hmiss')
      as (looked & w' & Hrun & Hall & Hlen & Hadv').
    rewrite length_app in Hrun. cbn [length] in Hrun.
    replace (length done + 1) with (S (length done)) in Hrun by lia.
    rewrite Hrun. exists (Looked (now w) r req None :: looked), w'.
    rewrite <- app_assoc. split; [done |].
    split; [constructor; [by eexists _, _ | done] |].
    split; [cbn; lia |].
    exact (advanced_trans 0 0 _ _ _ Hadv Hadv').
Qed.

(** Then every one of them computes. *)
Lemma misses_all_compute (req : ExplainRequest.t) (llmProvider : LLMProvider)
    (pending : list Task) :
  forall (done : list Task) (w : World),
    Forall (is_missed req) pending ->
    createLLMProvider (env (outside w)) None = Returned llmProvider ->
    exists finished w',
      schedule (seq (length done) (length pending)) (done ++ pending) w
      = (done ++ finished, w')
      /\ forallb is_finished finished = true
      /\ length finished = length pending
      /\ advanced (length pending) w w'.
Proof.
  induction pending as [|t rest IH]; intros done w Hall Hprov.
  - exists [], w. cbn. repeat split; try done. exists []. by rewrite app_nil_r.
  - apply Forall_cons in Hall as [(startTime & request & ->) Hrest].
    destruct (resumed_miss startTime request req w llmProvider Hprov)
      as (reply & w1 & Hresume & Hadv).
    cbn [length seq schedule].
    rewrite (schedule_one_middle done rest _ _ _ _ Hresume).
    assert (createLLMProvider (env (outside w1)) None = Returned llmProvider) as Hprov1.
    { destruct Hadv as (-> & _). exact Hprov. }
    destruct (IH (done ++ [Finished reply]) w1 Hrest Hprov1)
      as (finished & w' & Hrun & Hfin & Hlen & Hadv').
    rewrite length_app in Hrun. cbn [length] in Hrun.
    replace (length done + 1) with (S (length done)) in Hrun by lia.
    rewrite Hrun. exists (Finished reply :: finished), w'.
    rewrite <- app_assoc. split; [done |].
    split; [by cbn |]. split; [cbn; lia |].
    exact (advanced_trans 1 (length rest) _ _ _ Hadv Hadv').
Qed.

(** Whatever the order in which the handlers run, none of them issues a
    command on a lock key, and the locks stay as they were. *)
Lemma resume_never_locks (task : Task) (w : World) :
  exists task' w',
    resume task w = (Returned task', w')
    /\ outside w' = outside w /\ locks w' = locks w
    /\ exists added, events w' = events w ++ added /\ lock_free added = true.
Proof.
  destruct task as [request|startTime request req cached|reply].
  - destruct (ExplainRequestSchema_safeParse (Request.body request)) as [req|error] eqn:Hparse.
    + rewrite (resume_arrived request req w Hparse). eexists _, _. split; [reflexivity |].
      unfold checked, got.
      destruct (ExplainRequest.cache req);
        [|repeat split; exists []; by rewrite app_nil_r].
      destruct (if_truthy (cache_entry (cacheKeyOf req) w)), (redis_up (outside w));
        cbn [outside locks events set_events set_now];
        (repeat split); eexists; (split; [list_norm; reflexivity | done]).
    + cbn [resume]. unfold bind at 1. unfold Date_now at 1. rewrite Hparse.
      unfold bad_request, send, bind, Date_now, emit, ret.
      cbn [outside locks events set_events]. eexists _, _. split; [reflexivity |].
      repeat split. eexists. split; [list_norm; reflexivity | done].
  - destruct (resume_looked startTime request req cached w)
      as (reply & w' & Hrespond & Hresume).
    exists (Finished reply), w'. split; [exact Hresume |].
    destruct cached as [result|].
    + rewrite respond_hit_run in Hrespond. injection Hrespond as _ <-.
      cbn [outside locks events set_events]. repeat split.
      eexists. split; [reflexivity | done].
    + rewrite respond_miss_run in Hrespond.
      match type of Hrespond with context [explainSQLService ?a ?b ?c ?d ?e ?w0] =>
        pose proof (explainSQLService_effect a b c d e w0)
          as (Ho & _ & Hk & _ & more & He & _ & Hf);
        destruct (explainSQLService a b c d e w0) as [[result|error] w1] end;
        unfold missed in *; cbn [snd outside locks events set_events] in *;
        injection Hrespond as _ <-.
      * unfold stored.
        destruct (ExplainRequest.cache req), (redis_up (outside w1));
          cbn [outside locks events set_events set_cache set_now];
          (split; [done |]); (split; [done |]);
          rewrite He; eexists; (split; [list_norm; reflexivity |]); tally;
          by rewrite Hf.
      * cbn [outside locks events set_events].
        split; [done |]. split; [done |].
        rewrite He. eexists. split; [list_norm; reflexivity |]. tally. by rewrite Hf.
  - exists (Finished reply), w. split; [reflexivity |]. repeat split.
    exists []. by rewrite app_nil_r.
Qed.

Lemma schedule_never_locks (order : list nat) :
  forall (tasks : list Task) (w : World),
    locks (snd (schedule order tasks w)) = locks w
    /\ exists added,
         events (snd (schedule order tasks w)) = events w ++ added
         /\ lock_free added = true.
Proof.
  induction order as [|i order IH]; intros tasks w.
  - split; [done |]. exists []. by rewrite app_nil_r.
  - cbn [schedule]. unfold schedule_one.
    destruct (tasks !! i) as [task|]; [|apply IH].
    destruct (resume_never_locks task w) as (task' & w' & -> & _ & Hl & e1 & He1 & Hf1).
    destruct (IH (<[i := task']> tasks) w') as (Hl2 & e2 & He2 & Hf2).
    split; [congruence |]. exists (e1 ++ e2).
    by rewrite He2, He1, <- app_assoc, lock_free_app, Hf1, Hf2.
Qed.

(** C1 fails on the code: the route never takes the stampede lock.  When n
    identical requests with the cache enabled arrive at an empty cache and
    all look it up before the first of them has stored its result, every
    one of them misses and invokes the backend: n invocations, and no
    command on a lock key. *)
Theorem stampede_unprotected (requests : list Request.t) (req : ExplainRequest.t)
    (w : World) (llmProvider : LLMProvider) :
  Forall (fun r => ExplainRequestSchema_safeParse (Request.body r) = Returned req) requests ->
  ExplainRequest.cache req = true ->
  cache w !! cacheKeyOf req = None ->
  createLLMProvider (env (outside w)) None = Returned llmProvider ->
  let n := length requests in
  exists tasks w',
    schedule (seq 0 n ++ seq 0 n) (map Arrived requests) w = (tasks, w')
    /\ length tasks = n
    /\ forallb is_finished tasks = true
    /\ locks w' = locks w
    /\ exists added,
         events w' = events w ++ added
         /\ backend_calls added = n
         /\ lock_free added = true.
Proof.
  intros Hparse _ Hmiss Hprov n. rewrite schedule_app.
  destruct (arrivals_all_miss req requests [] w Hparse Hmiss)
    as (looked & w1 & Hrun1 & Hall & Hlen1 & Hadv1).
  cbn [length app] in Hrun1. fold n in Hrun1. rewrite Hrun1.
  assert (createLLMProvider (env (outside w1)) None = Returned llmProvider) as Hprov1.
  { destruct Hadv1 as (-> & _). exact Hprov. }
  destruct (misses_all_compute req llmProvider looked [] w1 Hall Hprov1)
    as (finished & w2 & Hrun2 & Hfin & Hlen2 & Hadv2).
  cbn [length app] in Hrun2. rewrite Hlen1 in Hrun2. fold n in Hrun2.
  exists finished, w2. split; [exact Hrun2 |].
  split; [unfold n; congruence |]. split; [exact Hfin |].
  destruct (advanced_trans _ _ _ _ _ Hadv1 Hadv2) as (_ & Hlocks & added & He & Hb & Hf).
  split; [exact Hlocks |]. exists added. rewrite Hlen1 in Hb. by repeat split.
Qed.

End Concurrency.

(** ** The properties on the concrete deployment *)

Lemma stampede_unprotected_witness :
  exists tasks w',
    schedule (H := Demo.engine) (seq 0 3 ++ seq 0 3)
      (map Arrived [Demo.request "a"; Demo.request "b"; Demo.request "c"]) Demo.world
    = (tasks, w')
    /\ length tasks = 3
    /\ forallb is_finished tasks = true
    /\ locks w' = locks Demo.world
    /\ exists added,
         events w' = events Demo.world ++ added
         /\ backend_calls added = 3
         /\ lock_free added = true.
Proof.
  refine (stampede_unprotected (H := Demo.engine)
           [Demo.request "a"; Demo.request "b"; Demo.request "c"]
           Demo.parsed Demo.world LocalStubProvider _ _ _ _).
  - repeat constructor.
  - reflexivity.
  - reflexivity.
  - reflexivity.
Defined.

Lemma heuristics_appended_witness :
  Demo.planned_run = (Returned Demo.planned_result, snd Demo.planned_run)
  /\ exists llmProvider backend w2 added,
       createLLMProvider (env (outside Demo.world)) None = Returned llmProvider
       /\ explainSQL (H := Demo.engine) llmProvider
            (llmRequest Demo.sql
               "SELECT name FROM users WHERE id = ?" "postgres" None (Some "[]"))
            (set_events (events Demo.world ++ [Log Debug "Explaining SQL";
                                               PlanParseCall "[]" "postgres"])
               Demo.world)
          = (Returned backend, w2)
       /\ ExplanationResult.optimizations Demo.planned_result
          = ExplanationResult.optimizations backend ++ added
       /\ Forall2 DerivedFrom (analyzeExplainPlan (Engine := Demo.engine) Demo.leaf) added
       /\ Demo.planned_result = ExplanationResult.push_optimizations added backend.
Proof.
  assert (Demo.planned_run = (Returned Demo.planned_result, snd Demo.planned_run)) as Hrun.
  { vm_compute; reflexivity. }
  split; [exact Hrun |].
  refine (heuristics_appended (H := Demo.engine) Demo.sql
            "SELECT name FROM users WHERE id = ?" "postgres" None "[]" Demo.leaf
            Demo.world (snd Demo.planned_run) Demo.planned_result _ _ Hrun).
  - discriminate.
  - reflexivity.
Defined.

Lemma parse_failure_degrades_witness :
  parseExplainPlan (H := Demo.engine) "Seq Scan on users" "postgres"
  = Thrown (MkError "not a text plan")
  /\ fst (explainSQLService (H := Demo.engine) "SELECT 1" "SELECT ?" "postgres" None
            (Some "Seq Scan on users") Demo.world)
     = fst (explainSQLService (H := Demo.engine) "SELECT 1" "SELECT ?" "postgres" None
              None Demo.world).
Proof.
  split; [reflexivity |].
  refine (proj2 (proj2 (proj2
            (parse_failure_degrades (H := Demo.engine) "SELECT 1" "SELECT ?" "postgres"
               None "Seq Scan on users" (MkError "not a text plan") LocalStubProvider
               Demo.world _ _ _))) _).
  - discriminate.
  - reflexivity.
  - reflexivity.
  - reflexivity.
Defined.


(** A write that fails is logged and the request is answered all the same. *)
Lemma failed_write_is_logged :
  let run := explainRoute (H := Demo.engine) (Demo.request "a") Demo.db_down_world in
  (exists reply, fst run = Returned reply /\ Reply.statusCode reply = 200)
  /\ In (Log Warn "Failed to cache explanation in database") (events (snd run)).
Proof.
  split; [eexists; split; vm_compute; reflexivity |].
  vm_compute. tauto.
Qed.

(** ** What the service and the route record *)

Section Traces.
Context `{Engine}.

Lemma explainSQL_fst (p : LLMProvider) (r : LLMRequest.t) (w : World) :
  fst (explainSQL p r w) = backend_result p r w.
Proof.
  destruct p as [key|].
  - unfold explainSQL, OpenAIProvider_explainSQL, chat_completions_create, logger,
      bind, the_outside, elapse, emit, backend_result. simpl.
    destruct (completion _ _ _) as [content|e]; simpl; [|done].
    by destruct (parseResponse _).
  - by rewrite LocalStubProvider_explainSQL_outcome.
Qed.

Lemma plan_passed_verbatim (explainPlan : option string) (dialect : string) :
  JS.or_opt explainPlan (option_map stringifyPlan (fst (plan_outcome explainPlan dialect)))
  = plan_passed explainPlan.
Proof.
  unfold JS.or_opt, plan_passed, plan_outcome.
  destruct (JS.truthy explainPlan) eqn:Ht; [done |].
  by destruct explainPlan.
Qed.

Lemma explainSQLService_trace (originalSql sanitizedSql dialect : string)
    (schema explainPlan : option string) (w : World) :
  let run := explainSQLService originalSql sanitizedSql dialect schema explainPlan w in
  let request := llmRequest originalSql sanitizedSql dialect schema (plan_passed explainPlan) in
  match createLLMProvider (env (outside w)) None with
  | Thrown e => run = (Thrown e, w)
  | Returned p =>
      exists logs,
        forallb is_log logs = true
        /\ outside (snd run) = outside w /\ cache (snd run) = cache w
        /\ locks (snd run) = locks w
        /\ match backend_result p request
                   (set_events (events w ++ Log Debug "Explaining SQL"
                                  :: snd (plan_outcome explainPlan dialect)) w) with
           | Thrown e =>
               fst run = Thrown e
               /\ explanation_cache (snd run) = explanation_cache w
               /\ events (snd run)
                  = events w ++ Log Debug "Explaining SQL"
                      :: snd (plan_outcome explainPlan dialect)
                      ++ BackendCall request :: logs
           | Returned explanation =>
               match mergeHeuristics (fst (plan_outcome explainPlan dialect)) explanation with
               | Thrown e =>
                   fst run = Thrown e
                   /\ explanation_cache (snd run) = explanation_cache w
                   /\ events (snd run)
                      = events w ++ Log Debug "Explaining SQL"
                          :: snd (plan_outcome explainPlan dialect)
                          ++ BackendCall request :: logs
               | Returned merged =>
                   let data := cacheRecord originalSql dialect merged in
                   let fulfilled := write_succeeds data w in
                   fst run = Returned merged
                   /\ explanation_cache (snd run)
                      = (if fulfilled then explanation_cache w ++ [data]
                         else explanation_cache w)
                   /\ events (snd run)
                      = events w ++ Log Debug "Explaining SQL"
                          :: snd (plan_outcome explainPlan dialect)
                          ++ BackendCall request :: logs
                          ++ DbCreate data fulfilled
                          :: (if fulfilled then []
                              else [Log Warn "Failed to cache explanation in database"])
               end
           end
  end.
Proof.
  cbv zeta. rewrite explainSQLService_run.
  destruct (createLLMProvider (env (outside w)) None) as [p|e]; [|done].
  pose proof (plan_passed_verbatim explainPlan dialect) as Hplan.
  destruct (plan_outcome explainPlan dialect) as [parsed parsing]. cbn [fst snd] in *.
  rewrite Hplan.
  match goal with |- context [explainSQL p ?r ?w0] =>
    pose proof (explainSQL_effect p r w0) as (Ho & Hc & Hk & Ht & Hn & logs & He & Hl);
    pose proof (explainSQL_fst p r w0) as Hfst;
    destruct (explainSQL p r w0) as [[backend|e] w2] end;
    cbn [fst snd set_events events outside now cache locks explanation_cache] in *;
    exists logs; rewrite <- Hfst.
  - destruct (mergeHeuristics parsed backend) as [merged|e];
      cbn [fst snd set_events events outside now cache locks explanation_cache].
    2:{ repeat split; try done. rewrite He. by list_norm. }
    unfold persisted, write_succeeds. rewrite Ho, Ht.
    cbn [outside explanation_cache set_events].
    destruct (db_up (outside w) && _);
      cbn [set_events set_explanation_cache set_now events outside now cache locks
           explanation_cache fst snd];
      repeat split; try done; rewrite He; by list_norm.
  - repeat split; try done. rewrite He. by list_norm.
Qed.


Lemma logs_are_service_events (logs : list Event) :
  forallb is_log logs = true -> forallb is_service_event logs = true.
Proof.
  induction logs as [|e logs IH]; [done |]. simpl.
  intros [He Hl]%andb_true_iff. rewrite (IH Hl). by destruct e.
Qed.

Lemma plan_outcome_service_events (explainPlan : option string) (dialect : string) :
  forallb is_service_event (snd (plan_outcome explainPlan dialect)) = true.
Proof.
  unfold plan_outcome. destruct explainPlan as [text|]; [|done].
  destruct (JS.truthy (Some text)); [|done].
  by destruct (parseExplainPlan text dialect).
Qed.

(** What a run of the service records, and what it leaves alone. *)
Lemma explainSQLService_events (originalSql sanitizedSql dialect : string)
    (schema explainPlan : option string) (w : World) :
  let w' := snd (explainSQLService originalSql sanitizedSql dialect schema explainPlan w) in
  exists added,
    events w' = events w ++ added /\ forallb is_service_event added = true.
Proof.
  cbv zeta.
  pose proof (explainSQLService_trace originalSql sanitizedSql dialect schema explainPlan w)
    as Ht. cbv zeta in Ht.
  destruct (createLLMProvider (env (outside w)) None) as [p|e].
  2:{ rewrite Ht. exists []. by rewrite app_nil_r. }
  destruct Ht as (logs & Hl & _ & _ & _ & Ht).
  pose proof (plan_outcome_service_events explainPlan dialect) as Hp.
  apply logs_are_service_events in Hl.
  destruct (backend_result p _ _) as [explanation|e].
  - destruct (mergeHeuristics _ explanation) as [merged|e].
    2:{ destruct Ht as (_ & _ & ->). eexists. split; [reflexivity |].
        cbn [forallb is_service_event andb]. rewrite forallb_app, Hp.
        cbn [forallb is_service_event andb]. done. }
    destruct Ht as (_ & _ & ->). eexists. split; [reflexivity |].
    cbn [forallb is_service_event andb]. rewrite forallb_app, Hp.
    cbn [forallb is_service_event andb]. rewrite forallb_app, Hl.
    by destruct (write_succeeds _ _).
  - destruct Ht as (_ & _ & ->). eexists. split; [reflexivity |].
    cbn [forallb is_service_event andb]. rewrite forallb_app, Hp.
    cbn [forallb is_service_event andb]. done.
Qed.

Local Arguments explainSQLService : simpl never.

Lemma explainRoute_valid (request : Request.t) (req : ExplainRequest.t) (w : World) :
  ExplainRequestSchema_safeParse (Request.body request) = Returned req ->
  explainRoute request w
  = let w0 := checked req w in
    match checked_result req w with
    | Some result =>
        (Returned (success_reply request req result true (now w0)),
         set_events (events w0 ++ [RequestMetrics "POST" "/v1/explain" 200 (now w0 - now w);
                                   Send 200]) w0)
    | None =>
        match explainSQLService (ExplainRequest.sql req)
                (sanitizeSQL (ExplainRequest.sql req) (ExplainRequest.privacyMode req))
                (ExplainRequest.dialect req) (ExplainRequest.schema req)
                (ExplainRequest.explainPlan req) (missed w0) with
        | (Returned result, w1) =>
            let w2 := if ExplainRequest.cache req
                      then stored (cacheKeyOf req) result (Some 3600) w1 else w1 in
            (Returned (success_reply request req result false (now w2)),
             set_events (events w2 ++ [RequestMetrics "POST" "/v1/explain" 200
                                         (now w2 - now w); Send 200]) w2)
        | (Thrown error, w1) =>
            (Returned (failure_reply request error (now w1)),
             set_events (events w1 ++ [RequestMetrics "POST" "/v1/explain" 500
                                         (now w1 - now w);
                                       Log LogError "Explain endpoint error"; Send 500]) w1)
        end
    end.
Proof.
  intros Hp. rewrite explainRoute_run, Hp. cbv zeta.
  destruct (checked_result req w); [apply respond_hit_run | apply respond_miss_run].
Qed.

Lemma explainRoute_invalid (request : Request.t) (error : Error) (w : World) :
  ExplainRequestSchema_safeParse (Request.body request) = Thrown error ->
  explainRoute request w
  = (Returned {| Reply.statusCode := 400;
                 Reply.success := false;
                 Reply.data := None;
                 Reply.error := Some ("Invalid request: " +:+ message error);
                 Reply.requestId := Request.id request;
                 Reply.timestamp := now w |},
     set_events (events w ++ [Send 400]) w).
Proof.
  intros Hp. rewrite explainRoute_run, Hp.
  unfold bad_request, send, bind, Date_now, emit, ret. done.
Qed.

Lemma checked_effect (req : ExplainRequest.t) (w : World) :
  outside (checked req w) = outside w /\ cache (checked req w) = cache w
  /\ locks (checked req w) = locks w
  /\ explanation_cache (checked req w) = explanation_cache w
  /\ draws (checked req w) = draws w /\ calls (checked req w) = calls w
  /\ now (checked req w)
     = now w + (if ExplainRequest.cache req then redis_latency (outside w) else 0)
  /\ events (checked req w) = events w ++ lookup_trace req w.
Proof.
  unfold checked, lookup_trace, cache_entry, got.
  destruct (ExplainRequest.cache req).
  2:{ repeat split; try done; try lia; by rewrite ?app_nil_r. }
  destruct (redis_up (outside w)).
  - destruct (if_truthy (fst <$> cache w !! cacheKeyOf req));
      cbn [set_events set_now events outside now cache
           locks explanation_cache draws calls]; repeat split; by list_norm.
  - cbn [set_events set_now events outside now cache locks explanation_cache draws calls].
    repeat split; by list_norm.
Qed.

Lemma checked_result_hit (req : ExplainRequest.t) (w : World) (result : ExplanationResult.t) :
  checked_result req w = Some result ->
  ExplainRequest.cache req = true /\ redis_up (outside w) = true
  /\ ExplanationResult.truthy result = true
  /\ exists ttl, cache w !! cacheKeyOf req = Some (result, ttl).
Proof.
  unfold checked_result, cache_entry.
  destruct (ExplainRequest.cache req); [|done].
  destruct (redis_up (outside w)); [|done].
  destruct (cache w !! cacheKeyOf req) as [[r ttl]|]; [|done].
  cbn [fmap option_fmap option_map fst if_truthy].
  destruct (ExplanationResult.truthy r) eqn:Htruthy; [|done].
  intros [= <-]. repeat split; [done |]. by exists ttl.
Qed.

(** The lookup finds nothing exactly when there is nothing truthy to find. *)
Lemma checked_result_miss (req : ExplainRequest.t) (w : World) :
  checked_result req w = None
  <-> (ExplainRequest.cache req = false \/ redis_up (outside w) = false
       \/ cache w !! cacheKeyOf req = None
       \/ exists result ttl,
            cache w !! cacheKeyOf req = Some (result, ttl)
            /\ ExplanationResult.truthy result = false).
Proof.
  unfold checked_result, cache_entry.
  destruct (ExplainRequest.cache req); [|by split; [left |]].
  destruct (redis_up (outside w)); [|by split; [right; left |]].
  destruct (cache w !! cacheKeyOf req) as [[r ttl]|]; [|by split; [right; right; left |]].
  cbn [fmap option_fmap option_map fst if_truthy].
  destruct (ExplanationResult.truthy r) eqn:Htruthy.
  - split; [done |]. intros [[=] | [[=] | [[=] | (r' & ttl' & [= <- <-] & Hf)]]]. congruence.
  - split; [|done]. intros _. right; right; right. by exists r, ttl.
Qed.

Lemma stored_effect (req : ExplainRequest.t) (result : ExplanationResult.t) (w : World) :
  let w' := if ExplainRequest.cache req
            then stored (cacheKeyOf req) result (Some 3600) w else w in
  outside w' = outside w /\ locks w' = locks w
  /\ explanation_cache w' = explanation_cache w
  /\ draws w' = draws w /\ calls w' = calls w
  /\ now w' = now w + (if ExplainRequest.cache req then redis_latency (outside w) else 0)
  /\ cache w' = (if ExplainRequest.cache req && redis_up (outside w)
                 then <[cacheKeyOf req := (result, 3600)]> (cache w) else cache w)
  /\ events w' = events w ++ store_trace req w.
Proof.
  unfold stored, store_trace. destruct (ExplainRequest.cache req); cbv zeta.
  2:{ repeat split; try done; try lia; by rewrite ?app_nil_r. }
  destruct (redis_up (outside w));
    cbn [andb set_events set_now set_cache events outside now cache locks explanation_cache
         draws calls ttl_or_default CACHE_TTL_SECONDS]; repeat split; by list_norm.
Qed.

End Traces.

(** ** One run of the route, case by case *)

Section RouteTrace.
Context `{Engine}.
Local Arguments explainSQLService : simpl never.

Lemma explainRoute_trace (request : Request.t) (req : ExplainRequest.t) (w : World) :
  ExplainRequestSchema_safeParse (Request.body request) = Returned req ->
  exists reply w' svc,
    explainRoute request w = (Returned reply, w')
    /\ forallb is_service_event svc = true
    /\ outside w' = outside w /\ locks w' = locks w
    /\ Reply.requestId reply = Request.id request
    /\ Reply.timestamp reply = now w'
    /\ now w <= now w'
    /\ match checked_result req w with
       | Some result =>
           reply = success_reply request req result true (now w')
           /\ svc = []
           /\ cache w' = cache w /\ explanation_cache w' = explanation_cache w
           /\ draws w' = draws w /\ calls w' = calls w
           /\ events w' = events w ++ lookup_trace req w
                ++ [RequestMetrics "POST" "/v1/explain" 200 (now w' - now w); Send 200]
       | None =>
           let service := serviceOf req (missed (checked req w)) in
           events (snd service) = events (missed (checked req w)) ++ svc
           /\ explanation_cache w' = explanation_cache (snd service)
           /\ draws w' = draws (snd service) /\ calls w' = calls (snd service)
           /\ match fst service with
              | Returned result =>
                  reply = success_reply request req result false (now w')
                  /\ cache w'
                     = (if ExplainRequest.cache req && redis_up (outside w)
                        then <[cacheKeyOf req := (result, 3600)]> (cache w) else cache w)
                  /\ events w'
                     = events w ++ lookup_trace req w
                         ++ CacheMiss "explain" :: Log Debug "Computing explanation" :: svc
                         ++ store_trace req w
                         ++ [RequestMetrics "POST" "/v1/explain" 200 (now w' - now w);
                             Send 200]
              | Thrown error =>
                  reply = failure_reply request error (now w')
                  /\ cache w' = cache w
                  /\ events w'
                     = events w ++ lookup_trace req w
                         ++ CacheMiss "explain" :: Log Debug "Computing explanation" :: svc
                         ++ [RequestMetrics "POST" "/v1/explain" 500 (now w' - now w);
                             Log LogError "Explain endpoint error"; Send 500]
              end
       end.
Proof.
  intros Hp. rewrite (explainRoute_valid request req w Hp). cbv zeta.
  destruct (checked_effect req w) as (Ho & Hc & Hk & Ht & Hd & Hcl & Hn & He).
  destruct (checked_result req w) as [result|].
  - eexists _, _, []. split; [reflexivity |].
    cbn [set_events events outside now cache locks explanation_cache draws calls
         success_reply Reply.requestId Reply.timestamp forallb].
    repeat split; try done; try lia. rewrite He. by list_norm.
  - unfold serviceOf.
    match goal with |- context [explainSQLService ?a ?b ?c ?d ?e ?w0] =>
      pose proof (explainSQLService_events a b c d e w0) as (svc & Hev & Hsvc);
      pose proof (explainSQLService_effect a b c d e w0) as (Ho1 & Hc1 & Hk1 & Hn1 & _);
      destruct (explainSQLService a b c d e w0) as [[result|error] w1] end;
      cbn [fst snd] in *; cbn [missed set_events now] in Hn1.
    + destruct (stored_effect req result w1) as (Ho2 & Hk2 & Ht2 & Hd2 & Hcl2 & Hn2 & Hc2 & He2).
      cbv zeta in *.
      eexists _, _, svc. split; [reflexivity |].
      cbn [set_events events outside now cache locks explanation_cache draws calls
           success_reply Reply.requestId Reply.timestamp].
      rewrite Ho2, Hk2, Ht2, Hd2, Hcl2, Hc2, He2, Hn2, Ho1, Hc1, Hk1.
      cbn [missed set_events outside cache locks events] in *. rewrite Ho, Hc, Hk.
      assert (now w <= now w1) as Hle by lia.
      repeat split; try done; try lia.
      all: rewrite ?Hev, ?He; unfold store_trace; rewrite ?Ho1;
        cbn [missed set_events outside events]; rewrite ?Ho, ?He; list_norm; done.
    + assert (now w <= now w1) as Hle by lia.
      eexists _, _, svc. split; [reflexivity |].
      cbn [set_events events outside now cache locks explanation_cache draws calls
           failure_reply Reply.requestId Reply.timestamp].
      rewrite Ho1, Hc1, Hk1. cbn [missed set_events outside cache locks events] in *.
      rewrite Ho, Hc, Hk. repeat split; try done; try lia.
      rewrite Hev, He. by list_norm.
Qed.

End RouteTrace.

(** ** Replies and validation *)

Lemma filter_foreign (p q : Event -> bool) (l : list Event) :
  (forall e, q e = true -> p e = false) ->
  forallb q l = true -> List.filter p l = [].
Proof.
  intros Hpq. induction l as [|e l IH]; [done |]. simpl.
  intros [He Hl]%andb_true_iff. by rewrite (Hpq e He), IH.
Qed.

Lemma forallb_foreign (p q : Event -> bool) (l : list Event) :
  (forall e, q e = true -> p e = false) ->
  forallb q l = true -> forallb (fun e => negb (p e)) l = true.
Proof.
  intros Hpq. induction l as [|e l IH]; [done |]. simpl.
  intros [He Hl]%andb_true_iff. by rewrite (Hpq e He), IH.
Qed.

Lemma service_event_not_send (e : Event) : is_service_event e = true -> is_send e = false.
Proof. by destruct e. Qed.
Lemma service_event_not_redis (e : Event) : is_service_event e = true -> is_redis e = false.
Proof. by destruct e. Qed.
Lemma service_event_not_request_metrics (e : Event) :
  is_service_event e = true -> is_request_metrics e = false.
Proof. by destruct e. Qed.
Lemma service_event_not_cache_metric (e : Event) :
  is_service_event e = true -> is_cache_metric e = false.
Proof. by destruct e. Qed.

Section Replies.
Context `{Engine}.
Local Arguments explainSQLService : simpl never.

Lemma lookup_trace_no_send (req : ExplainRequest.t) (w : World) :
  forallb (fun e => negb (is_send e)) (lookup_trace req w) = true.
Proof. unfold lookup_trace. by repeat case_match. Qed.

Lemma store_trace_no_send (req : ExplainRequest.t) (w : World) :
  forallb (fun e => negb (is_send e)) (store_trace req w) = true.
Proof. unfold store_trace. by repeat case_match. Qed.

(** X1: the handler of POST /v1/explain never rejects: from every world and for
    every request it sends exactly one reply, as the last thing it does.
    The status is 400 exactly when the schema rejects the body, and 200 or
    500 otherwise; [success] and [data] are there exactly on 200, [error]
    exactly otherwise; the reply echoes the request id and is stamped no
    earlier than the request came in. *)
Theorem explain_route_always_replies (request : Request.t) (w : World) :
  exists reply w' before,
    explainRoute request w = (Returned reply, w')
    /\ ((Reply.statusCode reply = 400
         /\ exists error, ExplainRequestSchema_safeParse (Request.body request) = Thrown error)
        \/ ((Reply.statusCode reply = 200 \/ Reply.statusCode reply = 500)
            /\ exists req, ExplainRequestSchema_safeParse (Request.body request) = Returned req))
    /\ Reply.success reply = bool_decide (Reply.statusCode reply = 200)
    /\ (is_Some (Reply.data reply) <-> Reply.statusCode reply = 200)
    /\ (is_Some (Reply.error reply) <-> Reply.statusCode reply <> 200)
    /\ Reply.requestId reply = Request.id request
    /\ now w <= Reply.timestamp reply
    /\ events w' = events w ++ before ++ [Send (Reply.statusCode reply)]
    /\ forallb (fun e => negb (is_send e)) before = true.
Proof.
  destruct (ExplainRequestSchema_safeParse (Request.body request)) as [req|error] eqn:Hp.
  - destruct (explainRoute_trace request req w Hp)
      as (reply & w' & svc & Hrun & Hsvc & _ & _ & Hid & Hts & Hnow & Hcase).
    apply (forallb_foreign is_send) in Hsvc; [|exact service_event_not_send].
    pose proof (lookup_trace_no_send req w) as Hl.
    pose proof (store_trace_no_send req w) as Hs.
    rewrite Hrun. clear Hts.
    destruct (checked_result req w) as [result|].
    + destruct Hcase as (-> & _ & _ & _ & _ & _ & Hev).
      eexists _, _, (lookup_trace req w
                       ++ [RequestMetrics "POST" "/v1/explain" 200 (now w' - now w)]).
      split; [reflexivity |]. rewrite Hev.
      cbn [success_reply Reply.statusCode Reply.success Reply.data Reply.error
           Reply.requestId Reply.timestamp].
      split; [right; split; [by left | by exists req] |].
      split; [done |]. split; [done |].
      split; [split; [by intros [? ?] | done] |].
      split; [done |]. split; [done |].
      split; [list_norm; reflexivity |].
      rewrite forallb_app, Hl. done.
    + cbv zeta in Hcase. destruct Hcase as (_ & _ & _ & _ & Hcase).
      destruct (fst (serviceOf req (missed (checked req w)))) as [result|error].
      * destruct Hcase as (-> & _ & Hev).
        eexists _, _, (lookup_trace req w
                         ++ CacheMiss "explain" :: Log Debug "Computing explanation" :: svc
                         ++ store_trace req w
                         ++ [RequestMetrics "POST" "/v1/explain" 200 (now w' - now w)]).
        split; [reflexivity |]. rewrite Hev.
        cbn [success_reply Reply.statusCode Reply.success Reply.data Reply.error
             Reply.requestId Reply.timestamp].
        split; [right; split; [by left | by exists req] |].
        split; [done |]. split; [done |].
        split; [split; [by intros [? ?] | done] |].
        split; [done |]. split; [done |].
        split; [list_norm; reflexivity |].
        rewrite !forallb_app. cbn [forallb is_send negb andb].
        rewrite !forallb_app, Hl, Hsvc, Hs. done.
      * destruct Hcase as (-> & _ & Hev).
        eexists _, _, (lookup_trace req w
                         ++ CacheMiss "explain" :: Log Debug "Computing explanation" :: svc
                         ++ [RequestMetrics "POST" "/v1/explain" 500 (now w' - now w);
                             Log LogError "Explain endpoint error"]).
        split; [reflexivity |]. rewrite Hev.
        cbn [failure_reply Reply.statusCode Reply.success Reply.data Reply.error
             Reply.requestId Reply.timestamp].
        split; [right; split; [by right | by exists req] |].
        split; [done |]. split; [split; [by intros [? ?] | done] |].
        split; [done |].
        split; [done |]. split; [done |].
        split; [list_norm; reflexivity |].
        rewrite !forallb_app. cbn [forallb is_send negb andb].
        rewrite !forallb_app, Hl, Hsvc. done.
  - rewrite (explainRoute_invalid request error w Hp).
    eexists _, _, []. split; [reflexivity |].
    cbn [Reply.statusCode Reply.success Reply.data Reply.error Reply.requestId
         Reply.timestamp set_events events].
    split; [left; split; [done | by exists error] |].
    split; [done |]. split; [split; [by intros [? ?] | done] |].
    split; [done |]. split; [done |]. split; [done |]. done.
Qed.


Lemma is_dialect_names (d : string) :
  is_dialect d = true <-> is_a_dialect (JSON.Str d).
Proof.
  unfold is_dialect, is_a_dialect. rewrite !orb_true_iff, !String.eqb_eq.
  split.
  - intros [[-> | ->] | ->]; tauto.
  - intros [[= ->] | [[= ->] | [= ->]]]; tauto.
Qed.

Lemma schema_sql_returns (member : option JSON.value) (sql : string) :
  schema_sql member = Returned sql <-> member = Some (JSON.Str sql) /\ sql <> "".
Proof.
  unfold schema_sql. destruct member as [[| | |s| |]|];
    try (split; [done | by intros [[=] _]]).
  destruct (String.eqb s "") eqn:He.
  - apply String.eqb_eq in He as ->. split; [done | by intros [[= <-] ?]].
  - apply String.eqb_neq in He. split; [by intros [= <-] | by intros [[= <-] _]].
Qed.

Lemma schema_dialect_returns (member : option JSON.value) (d : string) :
  schema_dialect member = Returned d
  <-> (member = None /\ d = "postgres")
      \/ (member = Some (JSON.Str d) /\ is_a_dialect (JSON.Str d)).
Proof.
  unfold schema_dialect. destruct member as [[| | |s| |]|];
    try (split; [done | by intros [[[=] _] | [[=] _]]]).
  - destruct (is_dialect s) eqn:Hd.
    + apply is_dialect_names in Hd.
      split; [intros [= <-]; by right | by intros [[[=] _] | [[= <-] _]]].
    + split; [done |]. intros [[[=] _] | [[= <-] Hd']].
      apply is_dialect_names in Hd'. congruence.
  - split; [intros [= <-]; by left | by intros [[_ ->] | [[=] _]]].
Qed.

Lemma schema_optional_string_returns (member : option JSON.value) (o : option string) :
  schema_optional_string member = Returned o <-> member = JSON.Str <$> o.
Proof.
  unfold schema_optional_string. destruct member as [[| | |s| |]|], o as [s'|]; cbn;
    split; try done; try (by intros [= <-]); by intros [= ->].
Qed.

Lemma schema_boolean_returns (member : option JSON.value) (b : bool) :
  schema_boolean member = Returned b
  <-> (member = None /\ b = true) \/ member = Some (JSON.Bool b).
Proof.
  unfold schema_boolean. destruct member as [[|b'| | | |]|];
    try (split; [done | by intros [[[=] _] | [=]]]).
  - split; [intros [= <-]; by right | by intros [[[=] _] | [= <-]]].
  - split; [intros [= <-]; by left | by intros [[_ ->] | [=]]].
Qed.

Lemma and_then_returns {A B} (o : Outcome A) (k : A -> Outcome B) (b : B) :
  and_then o k = Returned b <-> exists a, o = Returned a /\ k a = Returned b.
Proof.
  destruct o as [a|e]; cbn; split; try done.
  - by exists a.
  - by intros (a' & [= <-] & Hk).
  - by intros (a' & [=] & _).
Qed.

(** What the schema makes of a body that it accepts. *)
Lemma safeParse_returns (body : option JSON.value) (req : ExplainRequest.t) :
  ExplainRequestSchema_safeParse body = Returned req
  <-> exists members,
        body = Some (JSON.Object members)
        /\ (JSON.get "sql" members = Some (JSON.Str (ExplainRequest.sql req))
            /\ ExplainRequest.sql req <> "")
        /\ ((JSON.get "dialect" members = None /\ ExplainRequest.dialect req = "postgres")
            \/ (JSON.get "dialect" members = Some (JSON.Str (ExplainRequest.dialect req))
                /\ is_a_dialect (JSON.Str (ExplainRequest.dialect req))))
        /\ JSON.get "schema" members = JSON.Str <$> ExplainRequest.schema req
        /\ JSON.get "explainPlan" members = JSON.Str <$> ExplainRequest.explainPlan req
        /\ ((JSON.get "privacyMode" members = None /\ ExplainRequest.privacyMode req = true)
            \/ JSON.get "privacyMode" members
               = Some (JSON.Bool (ExplainRequest.privacyMode req)))
        /\ ((JSON.get "cache" members = None /\ ExplainRequest.cache req = true)
            \/ JSON.get "cache" members = Some (JSON.Bool (ExplainRequest.cache req))).
Proof.
  unfold ExplainRequestSchema_safeParse.
  destruct body as [[| | | | |members]|];
    try (split; [done | by intros (? & [=] & _)]).
  rewrite and_then_returns. setoid_rewrite and_then_returns.
  setoid_rewrite and_then_returns. setoid_rewrite and_then_returns.
  setoid_rewrite and_then_returns. setoid_rewrite and_then_returns.
  setoid_rewrite schema_sql_returns. setoid_rewrite schema_dialect_returns.
  setoid_rewrite schema_optional_string_returns. setoid_rewrite schema_boolean_returns.
  split.
  - intros (sql & [Hsql Hne] & d & Hd & sch & Hsch & plan & Hplan & pm & Hpm & c & Hc
            & [= <-]).
    exists members. cbn. by repeat split.
  - intros (members' & [= <-] & Hsql & Hd & Hsch & Hplan & Hpm & Hc).
    destruct req as [sql d sch plan pm c]. cbn in *.
    exists sql. split; [exact Hsql |]. exists d. split; [exact Hd |].
    exists sch. split; [exact Hsch |]. exists plan. split; [exact Hplan |].
    exists pm. split; [exact Hpm |]. exists c. split; [exact Hc |]. reflexivity.
Qed.

Lemma safeParse_accepts (body : option JSON.value) (req : ExplainRequest.t) :
  ExplainRequestSchema_safeParse body = Returned req ->
  ExplainRequest.sql req <> "" /\ is_dialect (ExplainRequest.dialect req) = true.
Proof.
  intros (members & _ & [_ Hsql] & Hd & _)%safeParse_returns. split; [done |].
  destruct Hd as [[_ ->] | [_ Hd]]; [done | by apply is_dialect_names].
Qed.

(** The schema accepts exactly the valid bodies. *)
Lemma safeParse_valid (body : option JSON.value) :
  (exists req, ExplainRequestSchema_safeParse body = Returned req) <-> ValidBody body.
Proof.
  split.
  - intros (req & (members & -> & Hsql & Hd & Hsch & Hplan & Hpm & Hc)%safeParse_returns).
    exists members. split; [done |]. split; [by eexists |].
    rewrite Hsch, Hplan. repeat split.
    + destruct Hd as [[-> _] | [-> Hd]]; [done | exact Hd].
    + destruct (ExplainRequest.schema req); cbn; [by eexists | done].
    + destruct (ExplainRequest.explainPlan req); cbn; [by eexists | done].
    + destruct Hpm as [[-> _] | ->]; cbn; [done | by eexists].
    + destruct Hc as [[-> _] | ->]; cbn; [done | by eexists].
  - intros (members & -> & (sql & Hsql & Hne) & Hd & Hsch & Hplan & Hpm & Hc).
    assert (exists d,
               (JSON.get "dialect" members = None /\ d = "postgres")
               \/ (JSON.get "dialect" members = Some (JSON.Str d)
                   /\ is_a_dialect (JSON.Str d))) as [d Hd'].
    { destruct (JSON.get "dialect" members) as [v|]; [|exists "postgres"; by left].
      cbn in Hd. destruct Hd as [-> | [-> | ->]]; eexists; right; split; try done;
        unfold is_a_dialect; tauto. }
    assert (exists o, JSON.get "schema" members = JSON.Str <$> o) as [sch Hsch'].
    { destruct (JSON.get "schema" members) as [v|]; [|by exists None].
      destruct Hsch as [s ->]. by exists (Some s). }
    assert (exists o, JSON.get "explainPlan" members = JSON.Str <$> o) as [plan Hplan'].
    { destruct (JSON.get "explainPlan" members) as [v|]; [|by exists None].
      destruct Hplan as [s ->]. by exists (Some s). }
    assert (exists b, (JSON.get "privacyMode" members = None /\ b = true)
                      \/ JSON.get "privacyMode" members = Some (JSON.Bool b)) as [pm Hpm'].
    { destruct (JSON.get "privacyMode" members) as [v|]; [|exists true; by left].
      destruct Hpm as [b ->]. exists b. by right. }
    assert (exists b, (JSON.get "cache" members = None /\ b = true)
                      \/ JSON.get "cache" members = Some (JSON.Bool b)) as [c Hc'].
    { destruct (JSON.get "cache" members) as [v|]; [|exists true; by left].
      destruct Hc as [b ->]. exists b. by right. }
    exists {| ExplainRequest.sql := sql; ExplainRequest.dialect := d;
              ExplainRequest.schema := sch; ExplainRequest.explainPlan := plan;
              ExplainRequest.privacyMode := pm; ExplainRequest.cache := c |}.
    apply safeParse_returns. exists members. cbn. by repeat split.
Qed.

(** X2: a body that is not what the schema asks for (not an object; [sql]
    absent, not a string or empty; a [dialect] that is none of postgres, mysql
    and sqlite; a [schema] or [explainPlan] that is not a string; a
    [privacyMode] or [cache] that is not a boolean, [null] included) is
    answered 400 with a message that begins with "Invalid request: ", at once
    and with nothing else done: no Redis command, no metric, no log line, no
    backend call.  Every other body is not answered 400. *)
Theorem invalid_body_rejected_untouched (request : Request.t) (w : World) :
  (~ ValidBody (Request.body request) ->
   exists reason,
     explainRoute request w
     = (Returned {| Reply.statusCode := 400;
                    Reply.success := false;
                    Reply.data := None;
                    Reply.error := Some ("Invalid request: " +:+ reason);
                    Reply.requestId := Request.id request;
                    Reply.timestamp := now w |},
        set_events (events w ++ [Send 400]) w))
  /\ (ValidBody (Request.body request) ->
      exists reply,
        fst (explainRoute request w) = Returned reply /\ Reply.statusCode reply <> 400).
Proof.
  split.
  - intros Hbad.
    destruct (ExplainRequestSchema_safeParse (Request.body request)) as [req|error] eqn:Hp.
    { destruct Hbad. apply safeParse_valid. by exists req. }
    exists (message error). by apply explainRoute_invalid.
  - intros [req Hp]%safeParse_valid.
    destruct (explainRoute_trace request req w Hp)
      as (reply & w' & svc & Hrun & _ & _ & _ & _ & _ & _ & Hcase).
    exists reply. rewrite Hrun. split; [done |].
    destruct (checked_result req w) as [result|].
    + by destruct Hcase as (-> & _).
    + cbv zeta in Hcase. destruct Hcase as (_ & _ & _ & _ & Hcase).
      destruct (fst (serviceOf req (missed (checked req w)))); by destruct Hcase as (-> & _).
Qed.


Lemma plan_outcome_filter (p : Event -> bool) (explainPlan : option string) (dialect : string) :
  (forall l m, p (Log l m) = false) -> (forall t d, p (PlanParseCall t d) = false) ->
  List.filter p (snd (plan_outcome explainPlan dialect)) = [].
Proof.
  intros Hlog Hplan. unfold plan_outcome. destruct explainPlan as [text|]; [|done].
  destruct (JS.truthy (Some text)); [|done].
  destruct (parseExplainPlan text dialect); cbn [snd List.filter]; by rewrite ?Hlog, ?Hplan.
Qed.

Lemma logs_filter (p : Event -> bool) (logs : list Event) :
  (forall l m, p (Log l m) = false) ->
  forallb is_log logs = true -> List.filter p logs = [].
Proof.
  intros Hlog. apply filter_foreign. intros [] He; try discriminate. apply Hlog.
Qed.

(** The backend calls and the table writes of one run of the service. *)
Lemma explainSQLService_calls (originalSql sanitizedSql dialect : string)
    (schema explainPlan : option string) (w : World) :
  let run := explainSQLService originalSql sanitizedSql dialect schema explainPlan w in
  exists svc,
    events (snd run) = events w ++ svc
    /\ List.filter is_backend_call svc
       = match createLLMProvider (env (outside w)) None with
         | Returned _ =>
             [BackendCall (llmRequest originalSql sanitizedSql dialect schema
                             (plan_passed explainPlan))]
         | Thrown _ => []
         end
    /\ List.filter is_db_create svc
       = match fst run with
         | Returned merged =>
             [DbCreate (cacheRecord originalSql dialect merged)
                (write_succeeds (cacheRecord originalSql dialect merged) w)]
         | Thrown _ => []
         end
    /\ explanation_cache (snd run)
       = match fst run with
         | Returned merged =>
             if write_succeeds (cacheRecord originalSql dialect merged) w
             then explanation_cache w ++ [cacheRecord originalSql dialect merged]
             else explanation_cache w
         | Thrown _ => explanation_cache w
         end.
Proof.
  cbv zeta.
  pose proof (explainSQLService_trace originalSql sanitizedSql dialect schema explainPlan w)
    as Ht. cbv zeta in Ht.
  destruct (createLLMProvider (env (outside w)) None) as [p|e].
  2:{ rewrite Ht. exists []. by rewrite app_nil_r. }
  destruct Ht as (logs & Hl & _ & _ & _ & Ht).
  destruct (backend_result p _ _) as [explanation|e].
  - destruct (mergeHeuristics _ explanation) as [merged|e].
    2:{ destruct Ht as (-> & -> & ->). eexists. split; [reflexivity |].
        cbn [List.filter is_backend_call is_db_create]. rewrite !List.filter_app.
        cbn [List.filter is_backend_call is_db_create].
        rewrite !plan_outcome_filter, !(logs_filter _ logs) by done. done. }
    destruct Ht as (-> & -> & ->). eexists. split; [reflexivity |].
    cbn [List.filter is_backend_call is_db_create]. rewrite !List.filter_app.
    cbn [List.filter is_backend_call is_db_create]. rewrite !List.filter_app.
    rewrite !plan_outcome_filter, !(logs_filter _ logs) by done.
    destruct (write_succeeds _ _); done.
  - destruct Ht as (-> & -> & ->). eexists. split; [reflexivity |].
    cbn [List.filter is_backend_call is_db_create]. rewrite !List.filter_app.
    cbn [List.filter is_backend_call is_db_create].
    rewrite !plan_outcome_filter, !(logs_filter _ logs) by done. done.
Qed.

Lemma lookup_trace_filter (p : Event -> bool) (req : ExplainRequest.t) (w : World) :
  (forall e, is_route_event e = true -> p e = false) ->
  List.filter p (lookup_trace req w) = [].
Proof.
  intros Hp. unfold lookup_trace. repeat case_match; cbn [List.filter];
    rewrite ?Hp; done.
Qed.

Lemma store_trace_filter (p : Event -> bool) (req : ExplainRequest.t) (w : World) :
  (forall e, is_route_event e = true -> p e = false) ->
  List.filter p (store_trace req w) = [].
Proof.
  intros Hp. unfold store_trace. repeat case_match; cbn [List.filter];
    rewrite ?Hp; done.
Qed.

(** Of the events no route statement records, a run of the route has the
    ones of its service call. *)
Lemma explainRoute_filter (p : Event -> bool) (request : Request.t)
    (req : ExplainRequest.t) (w : World) :
  (forall e, is_route_event e = true -> p e = false) ->
  ExplainRequestSchema_safeParse (Request.body request) = Returned req ->
  exists added,
    events (snd (explainRoute request w)) = events w ++ added
    /\ match checked_result req w with
       | Some _ => List.filter p added = []
       | None =>
           forall svc,
             events (snd (serviceOf req (missed (checked req w))))
             = events (missed (checked req w)) ++ svc ->
             List.filter p added = List.filter p svc
       end.
Proof.
  intros Hp Hparse.
  destruct (explainRoute_trace request req w Hparse)
    as (reply & w' & svc & Hrun & _ & _ & _ & _ & _ & _ & Hcase).
  rewrite Hrun. cbn [snd].
  pose proof (lookup_trace_filter p req w Hp) as Hl.
  pose proof (store_trace_filter p req w Hp) as Hs.
  destruct (checked_result req w) as [result|].
  - destruct Hcase as (_ & _ & _ & _ & _ & _ & ->). eexists. split; [reflexivity |].
    rewrite List.filter_app, Hl. cbn [List.filter]. by rewrite !Hp.
  - cbv zeta in Hcase. destruct Hcase as (Hsvc & _ & _ & _ & Hcase).
    destruct (fst (serviceOf req (missed (checked req w)))) as [result|error];
      destruct Hcase as (_ & _ & ->); (eexists; split; [reflexivity |]);
      intros svc' Hsvc'; rewrite Hsvc in Hsvc'; apply app_inv_head in Hsvc' as <-;
      rewrite List.filter_app, Hl; cbn [List.filter app]; rewrite !Hp by done;
      rewrite !List.filter_app, ?Hs; cbn [List.filter app]; rewrite ?Hp by done;
      by rewrite ?app_nil_r.
Qed.

End Replies.

(** ** What reaches the backend *)

Section Backend.
Context `{Engine}.
Local Arguments explainSQLService : simpl never.

Lemma backend_result_inputs (p : LLMProvider) (r : LLMRequest.t) (w1 w2 : World) :
  outside w1 = outside w2 -> draws w1 = draws w2 -> calls w1 = calls w2 ->
  backend_result p r w1 = backend_result p r w2.
Proof. intros Ho Hd Hc. unfold backend_result. by rewrite Ho, Hd, Hc. Qed.

(** The value of a run of the service. *)
Lemma explainSQLService_fst (originalSql sanitizedSql dialect : string)
    (schema explainPlan : option string) (w : World) :
  fst (explainSQLService originalSql sanitizedSql dialect schema explainPlan w)
  = match createLLMProvider (env (outside w)) None with
    | Thrown e => Thrown e
    | Returned p =>
        match backend_result p
                (llmRequest originalSql sanitizedSql dialect schema (plan_passed explainPlan))
                w with
        | Returned explanation =>
            mergeHeuristics (fst (plan_outcome explainPlan dialect)) explanation
        | Thrown e => Thrown e
        end
    end.
Proof.
  pose proof (explainSQLService_trace originalSql sanitizedSql dialect schema explainPlan w)
    as Ht. cbv zeta in Ht.
  destruct (createLLMProvider (env (outside w)) None) as [p|e]; [|by rewrite Ht].
  destruct Ht as (logs & _ & _ & _ & _ & Ht).
  rewrite (backend_result_inputs p _ _ w) in Ht by done.
  destruct (backend_result p _ w) as [explanation|e]; [|by destruct Ht as (-> & _)].
  destruct (mergeHeuristics _ explanation); by destruct Ht as (-> & _).
Qed.

(** X3: one run of the route invokes the backend at most once, and only with
    the request that the schema made of the body: a statement that is not
    empty, one of the three dialects, the sanitizer's text for the
    request's privacy mode, the plan text as it came (none when it is
    empty), and privacy mode on whatever the request asked for. *)
Theorem backend_sees_validated_requests (request : Request.t) (w : World) :
  exists added,
    events (snd (explainRoute request w)) = events w ++ added
    /\ backend_calls added <= 1
    /\ forall r,
         In (BackendCall r) added ->
         exists req,
           ExplainRequestSchema_safeParse (Request.body request) = Returned req
           /\ r = serviceRequest req
           /\ LLMRequest.sql r <> ""
           /\ is_dialect (LLMRequest.dialect r) = true
           /\ LLMRequest.privacyMode r = true.
Proof.
  destruct (ExplainRequestSchema_safeParse (Request.body request)) as [req|error] eqn:Hp.
  2:{ rewrite (explainRoute_invalid request error w Hp). eexists. split; [reflexivity |].
      split; [cbn; lia |]. intros r [Hr | []]. discriminate. }
  destruct (explainRoute_filter is_backend_call request req w) as (added & Hev & Hf);
    [by intros [] | done |].
  exists added. split; [done |].
  assert (List.filter is_backend_call added = []
          \/ List.filter is_backend_call added = [BackendCall (serviceRequest req)])
    as Hcalls.
  { destruct (checked_result req w); [by left |].
    destruct (explainSQLService_calls (ExplainRequest.sql req)
                (sanitizeSQL (ExplainRequest.sql req) (ExplainRequest.privacyMode req))
                (ExplainRequest.dialect req) (ExplainRequest.schema req)
                (ExplainRequest.explainPlan req) (missed (checked req w)))
      as (svc & Hsvc & Hb & _).
    rewrite (Hf svc Hsvc), Hb. destruct (createLLMProvider _ _); [by right | by left]. }
  split.
  { unfold backend_calls. destruct Hcalls as [-> | ->]; cbn; lia. }
  intros r Hr.
  assert (In (BackendCall r) (List.filter is_backend_call added)) as Hin
    by (by apply filter_In).
  destruct Hcalls as [Hc | Hc]; rewrite Hc in Hin; [done |].
  destruct Hin as [[= <-] | []].
  destruct (safeParse_accepts _ _ Hp) as (Hsql & Hd).
  exists req. repeat split; done.
Qed.

(** X4: with [cache: false] in the request the route issues no Redis command
    at all, neither a lookup nor a store: the stores are as they were, an
    entry for the statement is neither served nor replaced, and the request
    is counted as a cache miss. *)
Theorem cache_disabled_bypasses_redis (request : Request.t) (req : ExplainRequest.t)
    (w : World) :
  ExplainRequestSchema_safeParse (Request.body request) = Returned req ->
  ExplainRequest.cache req = false ->
  exists reply w' added,
    explainRoute request w = (Returned reply, w')
    /\ events w' = events w ++ added
    /\ List.filter is_redis added = []
    /\ List.filter is_cache_metric added = [CacheMiss "explain"]
    /\ cache w' = cache w /\ locks w' = locks w
    /\ served_from_cache reply = false.
Proof.
  intros Hp Hoff.
  destruct (explainRoute_trace request req w Hp)
    as (reply & w' & svc & Hrun & Hsvc & _ & Hk & _ & _ & _ & Hcase).
  assert (checked_result req w = None) as Hnone by (unfold checked_result; by rewrite Hoff).
  rewrite Hnone in Hcase. cbv zeta in Hcase.
  destruct Hcase as (_ & _ & _ & _ & Hcase).
  assert (lookup_trace req w = []) as Hl by (unfold lookup_trace; by rewrite Hoff).
  assert (store_trace req w = []) as Hs by (unfold store_trace; by rewrite Hoff).
  pose proof (filter_foreign is_redis _ svc service_event_not_redis Hsvc) as Hr.
  pose proof (filter_foreign is_cache_metric _ svc service_event_not_cache_metric Hsvc) as Hm.
  rewrite Hl, Hs, Hoff in Hcase.
  exists reply, w'.
  destruct (fst (serviceOf req (missed (checked req w)))) as [result|error];
    destruct Hcase as (-> & Hc & Hev); eexists; (split; [done |]);
    (split; [exact Hev |]); cbn [app List.filter is_redis is_cache_metric];
    rewrite !List.filter_app, Hr, Hm; done.
Qed.

(** X8: when no provider can be constructed (the provider name is unknown, or
    it is openai without a key), every request that is not served from the
    cache is answered 500 with the factory's message, before the backend is
    reached: no backend call, no table write, nothing stored in Redis; the
    lookup is the only Redis command. *)
Theorem unconfigured_backend_fails_every_miss (request : Request.t)
    (req : ExplainRequest.t) (w : World) (e : Error) :
  ExplainRequestSchema_safeParse (Request.body request) = Returned req ->
  createLLMProvider (env (outside w)) None = Thrown e ->
  checked_result req w = None ->
  exists w' added,
    explainRoute request w = (Returned (failure_reply request e (now w')), w')
    /\ events w' = events w ++ added
    /\ backend_calls added = 0
    /\ List.filter is_db_create added = []
    /\ List.filter is_redis added
       = (if ExplainRequest.cache req then [Redis (GET (cacheKeyOf req))] else [])
    /\ cache w' = cache w
    /\ explanation_cache w' = explanation_cache w.
Proof.
  intros Hp Hprov Hnone.
  destruct (explainRoute_trace request req w Hp)
    as (reply & w' & svc & Hrun & Hsvc & _ & Hk & _ & _ & _ & Hcase).
  rewrite Hnone in Hcase. cbv zeta in Hcase.
  destruct Hcase as (Hev & Ht & _ & _ & Hcase).
  unfold serviceOf in *.
  assert (explainSQLService (ExplainRequest.sql req)
            (sanitizeSQL (ExplainRequest.sql req) (ExplainRequest.privacyMode req))
            (ExplainRequest.dialect req) (ExplainRequest.schema req)
            (ExplainRequest.explainPlan req) (missed (checked req w))
          = (Thrown e, missed (checked req w))) as Hservice.
  { rewrite explainSQLService_run.
    destruct (checked_effect req w) as (Ho & _). cbn [missed set_events outside].
    by rewrite Ho, Hprov. }
  rewrite Hservice in Hev, Ht, Hcase. cbn [fst snd] in *.
  assert (svc = []) as ->.
  { apply (app_inv_head (events (missed (checked req w)))). by rewrite app_nil_r. }
  destruct Hcase as (-> & Hc & Hevents).
  exists w'. eexists. split; [done |]. split; [exact Hevents |].
  destruct (checked_effect req w) as (_ & _ & _ & Ht0 & _).
  cbn [missed set_events explanation_cache] in Ht. rewrite Ht0 in Ht.
  assert (lookup_trace req w
          = if ExplainRequest.cache req
            then Redis (GET (cacheKeyOf req))
                 :: (if redis_up (outside w) then [] else [Log LogError "Cache get failed"])
            else []) as Hl.
  { unfold lookup_trace. unfold checked_result, cache_entry in Hnone.
    destruct (ExplainRequest.cache req); [|done].
    destruct (redis_up (outside w)); [|done].
    by rewrite Hnone. }
  rewrite Hl. unfold backend_calls.
  destruct (ExplainRequest.cache req), (redis_up (outside w)); done.
Qed.

End Backend.

(** ** Failures, metrics and fingerprints *)

Section Failures.
Context `{Engine}.
Local Arguments explainSQLService : simpl never.

Lemma lookup_trace_miss (req : ExplainRequest.t) (w : World) :
  checked_result req w = None ->
  lookup_trace req w
  = if ExplainRequest.cache req
    then Redis (GET (cacheKeyOf req))
         :: (if redis_up (outside w) then [] else [Log LogError "Cache get failed"])
    else [].
Proof.
  intros Hnone. unfold lookup_trace. unfold checked_result, cache_entry in Hnone.
  destruct (ExplainRequest.cache req); [|done].
  destruct (redis_up (outside w)); [|done].
  by rewrite Hnone.
Qed.

Lemma lookup_trace_hit (req : ExplainRequest.t) (w : World) (result : ExplanationResult.t) :
  checked_result req w = Some result ->
  lookup_trace req w
  = [Redis (GET (cacheKeyOf req)); CacheHit "explain"; Log Debug "Cache hit"].
Proof.
  intros (Hc & Hup & Htruthy & ttl & He)%checked_result_hit. unfold lookup_trace.
  rewrite Hc, Hup, He. cbn [fmap option_fmap option_map fst if_truthy]. by rewrite Htruthy.
Qed.

(** X9: when the backend fails (the API call rejects, or its reply is not
    JSON), the route answers 500 with the backend's message as it is.  The
    backend was invoked once, nothing is written to the table and nothing
    is stored in Redis. *)
Theorem backend_failure_surfaces_uncached (request : Request.t) (req : ExplainRequest.t)
    (w : World) (llmProvider : LLMProvider) (e : Error) :
  ExplainRequestSchema_safeParse (Request.body request) = Returned req ->
  createLLMProvider (env (outside w)) None = Returned llmProvider ->
  checked_result req w = None ->
  fst (explainSQL llmProvider (serviceRequest req) w) = Thrown e ->
  exists w' added,
    explainRoute request w = (Returned (failure_reply request e (now w')), w')
    /\ events w' = events w ++ added
    /\ backend_calls added = 1
    /\ List.filter is_db_create added = []
    /\ List.filter is_redis added
       = (if ExplainRequest.cache req then [Redis (GET (cacheKeyOf req))] else [])
    /\ cache w' = cache w
    /\ explanation_cache w' = explanation_cache w.
Proof.
  intros Hp Hprov Hnone Hfail. rewrite explainSQL_fst in Hfail.
  destruct (explainRoute_trace request req w Hp)
    as (reply & w' & svc & Hrun & Hsvc & _ & Hk & _ & _ & _ & Hcase).
  rewrite Hnone in Hcase. cbv zeta in Hcase.
  destruct Hcase as (Hev & Ht & _ & _ & Hcase).
  destruct (checked_effect req w) as (Ho & _ & _ & Ht0 & Hd & Hc & _).
  unfold serviceOf in *.
  destruct (explainSQLService_calls (ExplainRequest.sql req)
              (sanitizeSQL (ExplainRequest.sql req) (ExplainRequest.privacyMode req))
              (ExplainRequest.dialect req) (ExplainRequest.schema req)
              (ExplainRequest.explainPlan req) (missed (checked req w)))
    as (svc' & Hsvc' & Hb & Hdb & Htable).
  cbv zeta in Hsvc', Hb, Hdb, Htable.
  rewrite Hev in Hsvc'. apply app_inv_head in Hsvc' as <-.
  pose proof (explainSQLService_fst (ExplainRequest.sql req)
                (sanitizeSQL (ExplainRequest.sql req) (ExplainRequest.privacyMode req))
                (ExplainRequest.dialect req) (ExplainRequest.schema req)
                (ExplainRequest.explainPlan req) (missed (checked req w))) as Hfst.
  cbn [missed set_events outside explanation_cache] in Hfst, Hb, Htable.
  rewrite Ho, Hprov in Hfst, Hb.
  rewrite (backend_result_inputs llmProvider _ _ w) in Hfst by done.
  fold (serviceRequest req) in Hfst. rewrite Hfail in Hfst.
  rewrite Hfst in Hcase, Hdb, Htable.
  destruct Hcase as (-> & Hcache & Hevents).
  exists w'. eexists. split; [done |]. split; [exact Hevents |].
  pose proof (filter_foreign is_redis _ svc service_event_not_redis Hsvc) as Hr.
  rewrite (lookup_trace_miss req w Hnone).
  unfold backend_calls. rewrite !List.filter_app. cbn [List.filter is_backend_call
    is_db_create is_redis]. rewrite !List.filter_app, Hb, Hdb, Hr.
  rewrite Ht, Htable, Ht0.
  destruct (ExplainRequest.cache req), (redis_up (outside w)); done.
Qed.

(** X11: a request that passes the schema records exactly one request metric,
    with the status of its reply and the time from arrival to reply, and
    exactly one cache metric: a hit when the reply comes from the cache, a
    miss otherwise, also for a request that switched caching off and for
    one that fails.  A request answered 400 records neither. *)
Theorem metrics_account_for_requests (request : Request.t) (w : World) :
  exists reply w' added,
    explainRoute request w = (Returned reply, w')
    /\ events w' = events w ++ added
    /\ List.filter is_request_metrics added
       = (if bool_decide (Reply.statusCode reply = 400) then []
          else [RequestMetrics "POST" "/v1/explain" (Reply.statusCode reply)
                  (Reply.timestamp reply - now w)])
    /\ List.filter is_cache_metric added
       = (if bool_decide (Reply.statusCode reply = 400) then []
          else if served_from_cache reply then [CacheHit "explain"]
               else [CacheMiss "explain"]).
Proof.
  destruct (ExplainRequestSchema_safeParse (Request.body request)) as [req|error] eqn:Hp.
  2:{ rewrite (explainRoute_invalid request error w Hp). by eexists _, _, _. }
  destruct (explainRoute_trace request req w Hp)
    as (reply & w' & svc & Hrun & Hsvc & _ & _ & _ & _ & _ & Hcase).
  pose proof (filter_foreign is_request_metrics _ svc service_event_not_request_metrics Hsvc)
    as Hr.
  pose proof (filter_foreign is_cache_metric _ svc service_event_not_cache_metric Hsvc) as Hm.
  exists reply, w'.
  destruct (checked_result req w) as [result|] eqn:Hlook.
  - destruct Hcase as (-> & _ & _ & _ & _ & _ & Hev).
    eexists. split; [done |]. split; [exact Hev |].
    rewrite (lookup_trace_hit req w result Hlook). done.
  - cbv zeta in Hcase. destruct Hcase as (_ & _ & _ & _ & Hcase).
    rewrite (lookup_trace_miss req w Hlook) in Hcase. unfold store_trace in Hcase.
    destruct (fst (serviceOf req (missed (checked req w)))) as [result|error];
      destruct Hcase as (-> & _ & Hev); (eexists; split; [done |]);
      (split; [exact Hev |]);
      rewrite !List.filter_app; cbn [List.filter is_request_metrics is_cache_metric app];
      rewrite !List.filter_app, Hr, Hm;
      destruct (ExplainRequest.cache req), (redis_up (outside w)); done.
Qed.

(** X10: the payload of every successful reply carries the engine's fingerprint
    of the request's statement, whatever fingerprint the backend or the
    cache entry had; and [cached] is set exactly when caching is on, Redis
    answers and the store holds an entry for the statement that is truthy:
    an entry that is 0, false or the empty string counts as none. *)
Theorem reply_carries_request_fingerprint (request : Request.t) (req : ExplainRequest.t)
    (w w' : World) (reply : Reply.t) (d : ReplyData.t) :
  ExplainRequestSchema_safeParse (Request.body request) = Returned req ->
  explainRoute request w = (Returned reply, w') ->
  Reply.data reply = Some d ->
  ExplanationResult.fingerprint (ReplyData.result d)
  = fingerprint (ExplainRequest.sql req)
  /\ (ReplyData.cached d = true
      <-> ExplainRequest.cache req = true /\ redis_up (outside w) = true
          /\ exists stored ttl,
               cache w !! cacheKeyOf req = Some (stored, ttl)
               /\ ExplanationResult.truthy stored = true).
Proof.
  intros Hp Hrun Hd.
  destruct (explainRoute_trace request req w Hp)
    as (reply0 & w0 & svc & Hrun0 & _ & _ & _ & _ & _ & _ & Hcase).
  rewrite Hrun in Hrun0. injection Hrun0 as <- <-.
  destruct (checked_result req w) as [result|] eqn:Hlook.
  - destruct Hcase as (-> & _). injection Hd as <-. split; [done |].
    apply checked_result_hit in Hlook as (Hc & Hup & Htruthy & ttl & He).
    split; [intros _ | done]. split; [done |]. split; [done |]. by exists result, ttl.
  - cbv zeta in Hcase. destruct Hcase as (_ & _ & _ & _ & Hcase).
    destruct (fst (serviceOf req (missed (checked req w)))) as [result|error];
      destruct Hcase as (-> & _); [|done].
    injection Hd as <-. split; [done |]. cbn. split; [done |].
    intros (Hc & Hup & stored & ttl & He & Htruthy).
    apply checked_result_miss in Hlook
      as [Hoff | [Hdown | [Hnone | (r & ttl' & Hentry & Hfalsy)]]]; congruence.
Qed.

End Failures.

(** ** The cache in front of the service *)

Section CacheKey.
Context `{Engine}.
Local Arguments explainSQLService : simpl never.

Lemma serviceOf_fst_inputs (req : ExplainRequest.t) (w1 w2 : World) :
  outside w1 = outside w2 -> draws w1 = draws w2 -> calls w1 = calls w2 ->
  fst (serviceOf req w1) = fst (serviceOf req w2).
Proof.
  intros Ho Hd Hc. unfold serviceOf. rewrite !explainSQLService_fst, Ho.
  destruct (createLLMProvider (env (outside w2)) None) as [p|e]; [|done].
  by rewrite (backend_result_inputs p _ w1 w2).
Qed.

(** X5: with Redis unreachable a request with caching on gets the status, the
    payload and the error that the same request with caching off gets: the
    lookup fails into a miss and is logged, the result is computed, and
    the store is as it was. *)
Theorem redis_outage_only_disables_caching (with_cache without : Request.t)
    (req : ExplainRequest.t) (w : World) :
  ExplainRequestSchema_safeParse (Request.body with_cache) = Returned req ->
  ExplainRequest.cache req = true ->
  ExplainRequestSchema_safeParse (Request.body without) = Returned (uncached req) ->
  redis_up (outside w) = false ->
  exists reply1 reply2 w1 w2,
    explainRoute with_cache w = (Returned reply1, w1)
    /\ explainRoute without w = (Returned reply2, w2)
    /\ Reply.statusCode reply1 = Reply.statusCode reply2
    /\ Reply.data reply1 = Reply.data reply2
    /\ Reply.error reply1 = Reply.error reply2
    /\ served_from_cache reply1 = false
    /\ cache w1 = cache w
    /\ In (Log LogError "Cache get failed") (events w1).
Proof.
  intros Hp1 Hon Hp2 Hdown.
  destruct (explainRoute_trace with_cache req w Hp1)
    as (reply1 & w1 & svc1 & Hrun1 & _ & _ & _ & _ & _ & _ & Hcase1).
  destruct (explainRoute_trace without (uncached req) w Hp2)
    as (reply2 & w2 & svc2 & Hrun2 & _ & _ & _ & _ & _ & _ & Hcase2).
  assert (checked_result req w = None) as Hnone1.
  { unfold checked_result, cache_entry. by rewrite Hon, Hdown. }
  assert (checked_result (uncached req) w = None) as Hnone2 by done.
  rewrite Hnone1 in Hcase1. rewrite Hnone2 in Hcase2. cbv zeta in Hcase1, Hcase2.
  destruct Hcase1 as (_ & _ & _ & _ & Hcase1). destruct Hcase2 as (_ & _ & _ & _ & Hcase2).
  assert (fst (serviceOf (uncached req) (missed (checked (uncached req) w)))
          = fst (serviceOf req (missed (checked req w)))) as Hsame.
  { destruct (checked_effect req w) as (Ho & _ & _ & _ & Hd & Hc & _).
    change (serviceOf (uncached req)) with (serviceOf req).
    apply serviceOf_fst_inputs; cbn [missed set_events outside draws calls checked uncached
      ExplainRequest.cache]; by rewrite ?Ho, ?Hd, ?Hc. }
  rewrite Hsame in Hcase2.
  rewrite (lookup_trace_miss req w Hnone1), Hon, Hdown in Hcase1.
  exists reply1, reply2, w1, w2. split; [done |]. split; [done |].
  destruct (fst (serviceOf req (missed (checked req w)))) as [result|error];
    destruct Hcase1 as (-> & Hc1 & Hev1); destruct Hcase2 as (-> & _);
    rewrite ?Hon, ?Hdown in Hc1; cbn [andb] in Hc1; repeat split; try done;
    rewrite Hev1; apply in_or_app; right; cbn; tauto.
Qed.





End CacheKey.

(** ** The table behind the service *)

Section Table.
Context `{Engine}.

Lemma explainSQL_core (p : LLMProvider) (r : LLMRequest.t) (w1 w2 : World) :
  core w1 = core w2 ->
  fst (explainSQL p r w1) = fst (explainSQL p r w2)
  /\ core (snd (explainSQL p r w1)) = core (snd (explainSQL p r w2)).
Proof.
  unfold core. intros [= Ho Hn Hc Hl Hd Hk].
  destruct p as [key|].
  - unfold explainSQL, OpenAIProvider_explainSQL, chat_completions_create, logger,
      bind, the_outside, elapse, emit. simpl. rewrite ?Ho, ?Hk.
    destruct (completion _ _ _) as [content|e]; simpl.
    + destruct (parseResponse _); simpl; by rewrite ?Ho, ?Hk, ?Hn, ?Hc, ?Hl, ?Hd.
    + by rewrite ?Ho, ?Hk, ?Hn, ?Hc, ?Hl, ?Hd.
  - rewrite !LocalStubProvider_explainSQL_outcome. cbn.
    by rewrite ?Ho, ?Hk, ?Hn, ?Hc, ?Hl, ?Hd.
Qed.

Lemma persisted_core (data1 data2 : CacheRecord.t) (w1 w2 : World) :
  core w1 = core w2 -> core (persisted data1 w1) = core (persisted data2 w2).
Proof.
  unfold core. intros [= Ho Hn Hc Hl Hd Hk]. unfold persisted.
  destruct (write_succeeds data1 w1), (write_succeeds data2 w2); cbn;
    by rewrite ?Ho, ?Hk, ?Hn, ?Hc, ?Hl, ?Hd.
Qed.

Lemma set_events_core (e1 e2 : list Event) (w1 w2 : World) :
  core w1 = core w2 -> core (set_events e1 w1) = core (set_events e2 w2).
Proof. done. Qed.

Lemma explainSQLService_core (originalSql sanitizedSql dialect : string)
    (schema explainPlan : option string) (w1 w2 : World) :
  core w1 = core w2 ->
  let run1 := explainSQLService originalSql sanitizedSql dialect schema explainPlan w1 in
  let run2 := explainSQLService originalSql sanitizedSql dialect schema explainPlan w2 in
  fst run1 = fst run2 /\ core (snd run1) = core (snd run2).
Proof.
  intros Hcore. cbv zeta. rewrite !explainSQLService_run.
  assert (outside w1 = outside w2) as Ho by (by injection Hcore).
  rewrite Ho.
  destruct (createLLMProvider (env (outside w2)) None) as [p|e]; [|done].
  destruct (plan_outcome explainPlan dialect) as [parsed parsing]. cbv beta iota zeta.
  match goal with |- context [explainSQL p ?r (set_events ?e1 w1)] =>
    match goal with |- context [explainSQL p r (set_events ?e2 w2)] =>
      destruct (explainSQL_core p r (set_events e1 w1) (set_events e2 w2)
                  (set_events_core e1 e2 w1 w2 Hcore)) as [Hf Hc];
      destruct (explainSQL p r (set_events e1 w1)) as [o1 w1'];
      destruct (explainSQL p r (set_events e2 w2)) as [o2 w2']
    end end.
  cbn [fst snd] in Hf, Hc. subst o2.
  destruct o1 as [explanation|e]; [|done].
  destruct (mergeHeuristics parsed explanation) as [merged|e]; [|done].
  cbn [fst snd]. split; [done |]. by apply persisted_core.
Qed.

Local Arguments explainSQLService : simpl never.

Lemma checked_core (req : ExplainRequest.t) (w1 w2 : World) :
  core w1 = core w2 ->
  checked_result req w1 = checked_result req w2
  /\ core (checked req w1) = core (checked req w2).
Proof.
  unfold core. intros [= Ho Hn Hc Hl Hd Hk].
  unfold checked_result, checked, cache_entry, got. rewrite Ho, Hc.
  destruct (ExplainRequest.cache req); cbn; [|by rewrite ?Ho, ?Hk, ?Hn, ?Hc, ?Hl, ?Hd].
  split; [done |].
  destruct (redis_up (outside w2));
    [destruct (if_truthy (fst <$> cache w2 !! cacheKeyOf req)) |]; cbn;
    by rewrite ?Ho, ?Hk, ?Hn, ?Hc, ?Hl, ?Hd.
Qed.

Lemma stored_core (req : ExplainRequest.t) (result : ExplanationResult.t) (w1 w2 : World) :
  core w1 = core w2 ->
  core (if ExplainRequest.cache req then stored (cacheKeyOf req) result (Some 3600) w1 else w1)
  = core (if ExplainRequest.cache req then stored (cacheKeyOf req) result (Some 3600) w2
          else w2).
Proof.
  intros Hcore. destruct (ExplainRequest.cache req); [|done].
  revert Hcore. unfold core, stored. intros [= Ho Hn Hc Hl Hd Hk]. rewrite Ho.
  destruct (redis_up (outside w2)); cbn; by rewrite ?Ho, ?Hk, ?Hn, ?Hc, ?Hl, ?Hd.
Qed.

(** The reply and what a run leaves in Redis and on the clock are the same
    from two worlds that differ in the table and the log only. *)
Lemma explainRoute_core (request : Request.t) (w1 w2 : World) :
  core w1 = core w2 ->
  fst (explainRoute request w1) = fst (explainRoute request w2)
  /\ core (snd (explainRoute request w1)) = core (snd (explainRoute request w2)).
Proof.
  intros Hcore.
  assert (now w1 = now w2) as Hn by (by injection Hcore).
  destruct (ExplainRequestSchema_safeParse (Request.body request)) as [req|error] eqn:Hp.
  2:{ rewrite !(explainRoute_invalid request error _ Hp). cbn [fst snd]. by rewrite Hn. }
  rewrite !(explainRoute_valid request req _ Hp). cbv zeta.
  destruct (checked_core req w1 w2 Hcore) as [Hr Hc]. rewrite Hr.
  assert (now (checked req w1) = now (checked req w2)) as Hn0 by (by injection Hc).
  destruct (checked_result req w2) as [result|].
  - cbn [fst snd]. rewrite Hn0, Hn. split; [done |]. by apply set_events_core.
  - pose proof (explainSQLService_core (ExplainRequest.sql req)
                  (sanitizeSQL (ExplainRequest.sql req) (ExplainRequest.privacyMode req))
                  (ExplainRequest.dialect req) (ExplainRequest.schema req)
                  (ExplainRequest.explainPlan req) (missed (checked req w1))
                  (missed (checked req w2)) (set_events_core _ _ _ _ Hc)) as [Hf Hs].
    cbv zeta in Hf, Hs.
    destruct (explainSQLService _ _ _ _ _ (missed (checked req w1))) as [o1 v1].
    destruct (explainSQLService _ _ _ _ _ (missed (checked req w2))) as [o2 v2].
    cbn [fst snd] in Hf, Hs. subst o2.
    destruct o1 as [result|error].
    + pose proof (stored_core req result v1 v2 Hs) as Hst.
      assert (now (if ExplainRequest.cache req
                   then stored (cacheKeyOf req) result (Some 3600) v1 else v1)
              = now (if ExplainRequest.cache req
                     then stored (cacheKeyOf req) result (Some 3600) v2 else v2)) as Hn2
        by (by injection Hst).
      cbn [fst snd]. rewrite Hn2, Hn. split; [done |]. by apply set_events_core.
    + assert (now v1 = now v2) as Hn2 by (by injection Hs).
      cbn [fst snd]. rewrite Hn2, Hn. split; [done |]. by apply set_events_core.
Qed.

(** X12: the table behind [prisma.explanationCache] is written and never read:
    the reply, the Redis store and the time a run takes are the same
    whatever rows the table holds. *)
Theorem explanation_table_is_never_read (request : Request.t) (w : World)
    (rows : list CacheRecord.t) :
  let run := explainRoute request w in
  let run' := explainRoute request (set_explanation_cache rows w) in
  fst run' = fst run
  /\ cache (snd run') = cache (snd run)
  /\ now (snd run') = now (snd run).
Proof.
  cbv zeta.
  destruct (explainRoute_core request (set_explanation_cache rows w) w eq_refl) as [Hf Hc].
  split; [done |]. unfold core in Hc. by injection Hc.
Qed.

End Table.

Lemma hash_taken_In (h : string) (rows : list CacheRecord.t) :
  hash_taken h rows = false -> ~ In h (map CacheRecord.queryHash rows).
Proof.
  unfold hash_taken. induction rows as [|r rows IH]; [by intros _ [] |].
  cbn [existsb map]. intros [Hr Hrows]%orb_false_iff [Heq | Hin].
  - apply String.eqb_neq in Hr. done.
  - by apply IH.
Qed.

Lemma NoDup_new_hash (rows : list CacheRecord.t) (data : CacheRecord.t) :
  hash_taken (CacheRecord.queryHash data) rows = false ->
  NoDup (map CacheRecord.queryHash rows) ->
  NoDup (map CacheRecord.queryHash (rows ++ [data])).
Proof.
  intros Hfree Hnd. rewrite map_app. cbn [map]. apply NoDup_app.
  split; [done |]. split; [|apply NoDup_singleton].
  intros h Hin ->%list_elem_of_singleton.
  apply (hash_taken_In _ _ Hfree). by apply list_elem_of_In.
Qed.

Section Rows.
Context `{Engine}.
Local Arguments explainSQLService : simpl never.

(** X13: a run of the route adds at most one row to the table and changes no
    row that is there: a row is added only when the database answers and no
    row has the statement's hash yet.  It holds the raw statement, the
    sanitizer's text with privacy on, and the request's dialect.  So the
    hashes of the table stay without repeats. *)
Theorem table_gains_only_new_hashes (request : Request.t) (w : World) :
  let w' := snd (explainRoute request w) in
  exists new,
    explanation_cache w' = explanation_cache w ++ new
    /\ (new = []
        \/ exists req data,
             new = [data]
             /\ ExplainRequestSchema_safeParse (Request.body request) = Returned req
             /\ db_up (outside w) = true
             /\ hash_taken (CacheRecord.queryHash data) (explanation_cache w) = false
             /\ CacheRecord.queryHash data
                = QueryFingerprint.hash (fingerprint (ExplainRequest.sql req))
             /\ CacheRecord.sql data = ExplainRequest.sql req
             /\ CacheRecord.sanitizedSql data = sanitizeSQL (ExplainRequest.sql req) true
             /\ CacheRecord.dialect data = ExplainRequest.dialect req)
    /\ (NoDup (map CacheRecord.queryHash (explanation_cache w)) ->
        NoDup (map CacheRecord.queryHash (explanation_cache w'))).
Proof.
  cbv zeta.
  cut (exists new,
          explanation_cache (snd (explainRoute request w)) = explanation_cache w ++ new
          /\ (new = []
              \/ exists req data,
                   new = [data]
                   /\ ExplainRequestSchema_safeParse (Request.body request) = Returned req
                   /\ db_up (outside w) = true
                   /\ hash_taken (CacheRecord.queryHash data) (explanation_cache w) = false
                   /\ CacheRecord.queryHash data
                      = QueryFingerprint.hash (fingerprint (ExplainRequest.sql req))
                   /\ CacheRecord.sql data = ExplainRequest.sql req
                   /\ CacheRecord.sanitizedSql data
                      = sanitizeSQL (ExplainRequest.sql req) true
                   /\ CacheRecord.dialect data = ExplainRequest.dialect req)).
  { intros (new & Hnew & Hcases). exists new. split; [done |]. split; [done |].
    rewrite Hnew. destruct Hcases as [-> | (req & data & -> & _ & _ & Hfree & _)].
    - by rewrite app_nil_r.
    - by apply NoDup_new_hash. }
  destruct (ExplainRequestSchema_safeParse (Request.body request)) as [req|error] eqn:Hp.
  2:{ rewrite (explainRoute_invalid request error w Hp). exists [].
      split; [by rewrite app_nil_r | by left]. }
  destruct (explainRoute_trace request req w Hp)
    as (reply & w' & svc & Hrun & _ & _ & _ & _ & _ & _ & Hcase).
  rewrite Hrun. cbn [snd].
  destruct (checked_result req w) as [result|].
  { destruct Hcase as (_ & _ & _ & -> & _). exists [].
    split; [by rewrite app_nil_r | by left]. }
  cbv zeta in Hcase. destruct Hcase as (_ & -> & _).
  unfold serviceOf.
  destruct (explainSQLService_calls (ExplainRequest.sql req)
              (sanitizeSQL (ExplainRequest.sql req) (ExplainRequest.privacyMode req))
              (ExplainRequest.dialect req) (ExplainRequest.schema req)
              (ExplainRequest.explainPlan req) (missed (checked req w)))
    as (_ & _ & _ & _ & ->).
  destruct (checked_effect req w) as (Ho & _ & _ & Ht & _).
  cbn [missed set_events explanation_cache]. rewrite Ht.
  destruct (fst (explainSQLService _ _ _ _ _ _)) as [merged|e].
  2:{ exists []. split; [by rewrite app_nil_r | by left]. }
  unfold write_succeeds. cbn [missed set_events explanation_cache outside]. rewrite Ho, Ht.
  destruct (db_up (outside w)) eqn:Hup; cbn [andb].
  2:{ exists []. split; [by rewrite app_nil_r | by left]. }
  destruct (hash_taken _ (explanation_cache w)) eqn:Hfree; cbn [negb].
  { exists []. split; [by rewrite app_nil_r | by left]. }
  eexists. split; [reflexivity |]. right. eexists req, _. split; [reflexivity |].
  repeat split; done.
Qed.

End Rows.

(** ** Requests served in turn *)

Section InTurn.
Context `{Engine}.
Local Arguments explainSQLService : simpl never.






End InTurn.

(** ** The prompt, the plan dispatch, the factory and the cache layer *)

Section Providers.
Context `{Engine}.

Lemma buildPrompt_sanitized (sql1 sql2 sanitizedSql dialect : string)
    (schema explainPlan : option string) :
  sanitizedSql <> "" ->
  buildPrompt (llmRequest sql1 sanitizedSql dialect schema explainPlan)
  = buildPrompt (llmRequest sql2 sanitizedSql dialect schema explainPlan).
Proof.
  intros Hs%String.eqb_neq. unfold buildPrompt, llmRequest, JS.or_else.
  cbn [LLMRequest.privacyMode LLMRequest.sanitizedSql LLMRequest.sql LLMRequest.dialect
       LLMRequest.schema LLMRequest.explainPlan].
  by rewrite Hs.
Qed.

(** X14: with the remote backend, the explanation that the service returns
    depends on the raw statement only through the sanitized text it is
    given: two statements with the same sanitized text, not empty, get the
    same outcome.  An empty sanitized text is replaced by the raw statement
    in the prompt. *)
Theorem remote_backend_sees_sanitized_text (sql1 sql2 sanitizedSql dialect : string)
    (schema explainPlan : option string) (w : World) (key : string) :
  sanitizedSql <> "" ->
  createLLMProvider (env (outside w)) None = Returned (OpenAIProvider key) ->
  fst (explainSQLService sql1 sanitizedSql dialect schema explainPlan w)
  = fst (explainSQLService sql2 sanitizedSql dialect schema explainPlan w)
  /\ buildPrompt (llmRequest sql1 "" dialect schema explainPlan)
     = buildPrompt (llmRequest sql1 sql1 dialect schema explainPlan).
Proof.
  intros Hs Hprov. split.
  - rewrite !explainSQLService_fst, Hprov. unfold backend_result.
    by rewrite (buildPrompt_sanitized sql1 sql2).
  - unfold buildPrompt, llmRequest, JS.or_else.
    cbn [LLMRequest.privacyMode LLMRequest.sanitizedSql LLMRequest.sql LLMRequest.dialect
         LLMRequest.schema LLMRequest.explainPlan String.eqb].
    by destruct (String.eqb sql1 "") eqn:He; [apply String.eqb_eq in He as -> |].
Qed.

(** X15: for dialect mysql a plan is accepted exactly when it is JSON that the
    engine's MySQL parser accepts; every failure, a JSON syntax error or an
    error of the engine's parser alike, is reported as "MySQL text format
    EXPLAIN not yet supported". *)
Theorem mysql_plan_failures_share_one_error (explainOutput : string) :
  (forall node,
      parseExplainPlan explainOutput "mysql" = Returned node
      <-> exists parsed,
            JSON.parse explainOutput = Some parsed
            /\ parseMysqlExplainJson parsed = Returned node)
  /\ (forall e,
        parseExplainPlan explainOutput "mysql" = Thrown e ->
        e = MkError "MySQL text format EXPLAIN not yet supported").
Proof.
  unfold parseExplainPlan. cbn [String.eqb Ascii.eqb Bool.eqb].
  destruct (JSON.parse explainOutput) as [parsed|].
  - destruct (parseMysqlExplainJson parsed) as [node|e0] eqn:Hm; split.
    + intros node'. split; [intros [= <-]; by exists parsed |].
      intros (parsed' & [= <-] & Hn). congruence.
    + done.
    + intros node'. split; [done |]. intros (parsed' & [= <-] & Hn). congruence.
    + by intros e [= <-].
  - split; [|by intros e [= <-]].
    intros node. split; [done | by intros (parsed & ? & _)].
Qed.

(** X16: for dialect postgres the text parser is the fallback of the JSON one:
    its answer is the result for a plan that is not JSON and for a JSON
    array that the JSON plan parser rejects, whose own error is dropped; a
    JSON array that the JSON plan parser accepts gives its node.  For
    dialect sqlite the plan goes to the SQLite parser as it is. *)
Theorem postgres_plan_falls_back_to_text (explainOutput : string) :
  (JSON.parse explainOutput = None ->
   parseExplainPlan explainOutput "postgres" = parsePostgresExplainText explainOutput)
  /\ (forall items e,
        JSON.parse explainOutput = Some (JSON.Array items) ->
        parsePostgresExplainJson (JSON.Array items) = Thrown e ->
        parseExplainPlan explainOutput "postgres" = parsePostgresExplainText explainOutput)
  /\ (forall items node,
        JSON.parse explainOutput = Some (JSON.Array items) ->
        parsePostgresExplainJson (JSON.Array items) = Returned node ->
        parseExplainPlan explainOutput "postgres" = Returned node)
  /\ parseExplainPlan explainOutput "sqlite" = parseSqliteExplainQueryPlan explainOutput.
Proof.
  split; [apply parseExplainPlan_postgres_text |].
  split; [intros items e Hp He; by rewrite (parseExplainPlan_postgres_array _ _ Hp), He |].
  split; [intros items e Hp He; by rewrite (parseExplainPlan_postgres_array _ _ Hp), He |].
  done.
Qed.

End Providers.

(** X17: the factory yields the remote variant exactly when the chosen name is
    openai and OPENAI_API_KEY is set and not empty, and then with that key.
    It fails only with the missing-key error, for the name openai, or with
    "Unknown LLM provider: " and the name, for a name that is neither
    openai nor stub outside a test context.  A name given as argument and
    not empty is the chosen one, whatever LLM_PROVIDER says. *)
Theorem factory_openai_and_unknown (e : Env) (name : option string) :
  let provider := JS.or_else name (JS.or_else (LLM_PROVIDER e) "openai") in
  (forall key,
      createLLMProvider e name = Returned (OpenAIProvider key)
      <-> provider = "openai" /\ OPENAI_API_KEY e = Some key /\ key <> "")
  /\ (forall error,
        createLLMProvider e name = Thrown error ->
        (provider = "openai" /\ JS.truthy (OPENAI_API_KEY e) = false
         /\ error = MkError "OPENAI_API_KEY environment variable not set")
        \/ (provider <> "openai" /\ provider <> "stub" /\ NODE_ENV e <> Some "test"
            /\ error = MkError ("Unknown LLM provider: " +:+ provider)))
  /\ (forall n, name = Some n -> n <> "" -> provider = n).
Proof.
  intros provider. unfold createLLMProvider. fold provider.
  destruct (String.eqb provider "openai") eqn:Ho.
  - apply String.eqb_eq in Ho. unfold new_OpenAIProvider. cbn [JS.or_else].
    split; [|split].
    + intros key. destruct (OPENAI_API_KEY e) as [k|]; cbn [JS.or_else].
      * destruct (String.eqb k "") eqn:Hk; cbn [String.eqb]; rewrite ?Hk.
        -- apply String.eqb_eq in Hk as ->. split; [done |]. by intros (_ & [= <-] & ?).
        -- apply String.eqb_neq in Hk. split.
           ++ by intros [= <-].
           ++ by intros (_ & [= <-] & _).
      * cbn. split; [done | by intros (_ & ? & _)].
    + intros error. destruct (OPENAI_API_KEY e) as [k|]; cbn [JS.or_else JS.truthy].
      * destruct (String.eqb k "") eqn:Hk; cbn [String.eqb negb]; rewrite ?Hk; [|done].
        intros [= <-]. by left.
      * cbn. intros [= <-]. by left.
    + intros n -> Hn. unfold provider. cbn [JS.or_else].
      apply String.eqb_neq in Hn. by rewrite Hn.
  - apply String.eqb_neq in Ho. split; [|split].
    + intros key. split; [|by intros [? _]].
      by destruct (String.eqb provider "stub" || bool_decide (NODE_ENV e = Some "test")).
    + intros error.
      destruct (String.eqb provider "stub") eqn:Hs; cbn [orb]; [done |].
      apply String.eqb_neq in Hs.
      destruct (bool_decide (NODE_ENV e = Some "test")) eqn:Ht; [done |].
      apply bool_decide_eq_false in Ht. intros [= <-]. by right.
    + intros n -> Hn. unfold provider. cbn [JS.or_else].
      apply String.eqb_neq in Hn. by rewrite Hn.
Qed.

(** X18: [cacheGet], [cacheSet], [acquireStampedeLock] and
    [releaseStampedeLock] never throw.  With Redis unreachable a lookup
    finds nothing, a lock is reported as not acquired, the stores are as
    they were, and each call logs its error. *)
Theorem cache_layer_never_throws (key : string) (value : ExplanationResult.t)
    (ttl : option nat) (w : World) :
  (exists found, fst (cacheGet key w) = Returned found)
  /\ fst (cacheSet key value ttl w) = Returned tt
  /\ (exists acquired, fst (acquireStampedeLock key w) = Returned acquired)
  /\ fst (releaseStampedeLock key w) = Returned tt
  /\ (redis_up (outside w) = false ->
      fst (cacheGet key w) = Returned None
      /\ fst (acquireStampedeLock key w) = Returned false
      /\ cache (snd (cacheSet key value ttl w)) = cache w
      /\ locks (snd (acquireStampedeLock key w)) = locks w
      /\ locks (snd (releaseStampedeLock key w)) = locks w
      /\ In (Log LogError "Cache get failed") (events (snd (cacheGet key w)))
      /\ In (Log LogError "Cache set failed") (events (snd (cacheSet key value ttl w)))
      /\ In (Log LogError "Stampede lock acquisition failed")
           (events (snd (acquireStampedeLock key w)))
      /\ In (Log LogError "Stampede lock release failed")
           (events (snd (releaseStampedeLock key w)))).
Proof.
  rewrite cacheGet_run, cacheSet_run. cbn [fst snd].
  split; [by eexists |]. split; [done |].
  assert (fst (releaseStampedeLock key w) = Returned tt) as Hrel.
  { unfold releaseStampedeLock, client_del, client, try_catch, bind, the_outside, elapse,
      emit, logger, emit, ret, throw.
    cbn [fst snd outside]. by destruct (redis_up (outside w)). }
  destruct (redis_up (outside w)) eqn:Hup.
  - split; [|done].
    destruct (locks w !! ("lock:" +:+ key)) as [held|] eqn:Hl.
    + destruct (acquireStampedeLock_held key w held Hup Hl) as (-> & _). by eexists.
    + destruct (acquireStampedeLock_free key w Hup Hl) as (-> & _). by eexists.
  - unfold acquireStampedeLock, releaseStampedeLock, client_setNX, client_expire,
      client_del, client, try_catch, bind, the_outside, elapse, emit, logger, emit, ret,
      throw, cache_entry, got, stored in *.
    cbn [fst snd outside locks cache events set_now set_events set_locks set_cache] in *.
    rewrite Hup in *.
    cbn [fst snd outside locks cache events set_now set_events set_locks set_cache] in *.
    split; [by eexists |]. split; [done |].
    intros _. repeat split; try done; apply in_or_app; right; cbn; tauto.
Qed.


Lemma lock_key_inj (a b : string) : "lock:" +:+ a = "lock:" +:+ b -> a = b.
Proof. intros Heq. simpl in Heq. by injection Heq. Qed.

(** X20: on a reachable store the first caller acquires a free lock, which then
    has 10 seconds to live; a second caller is refused and leaves the lock
    as it is, its time to live included; after the release the lock can be
    acquired again; and the lock of one key does not block another key. *)
Theorem stampede_lock_is_exclusive (key other : string) (w : World) :
  redis_up (outside w) = true ->
  locks w !! ("lock:" +:+ key) = None ->
  let first := acquireStampedeLock key w in
  let second := acquireStampedeLock key (snd first) in
  let released := releaseStampedeLock key (snd second) in
  fst first = Returned true
  /\ locks (snd first) !! ("lock:" +:+ key) = Some (Some 10)
  /\ fst second = Returned false
  /\ locks (snd second) = locks (snd first)
  /\ fst (acquireStampedeLock key (snd released)) = Returned true
  /\ (other <> key ->
      locks w !! ("lock:" +:+ other) = None ->
      fst (acquireStampedeLock other (snd first)) = Returned true).
Proof.
  intros Hup Hfree first second released.
  destruct (acquireStampedeLock_free key w Hup Hfree) as (H1 & Ho1 & Hl1).
  fold first in H1, Ho1, Hl1.
  assert (redis_up (outside (snd first)) = true) as Hup1 by (by rewrite Ho1).
  assert (locks (snd first) !! ("lock:" +:+ key) = Some (Some STAMPEDE_LOCK_TTL_SECONDS))
    as Hheld by (by rewrite Hl1, lookup_insert_eq).
  destruct (acquireStampedeLock_held key (snd first) _ Hup1 Hheld) as (H2 & Ho2 & Hl2).
  fold second in H2, Ho2, Hl2.
  assert (redis_up (outside (snd second)) = true) as Hup2 by (by rewrite Ho2).
  destruct (releaseStampedeLock_frees key (snd second) Hup2) as (Ho3 & Hl3).
  fold released in Ho3, Hl3.
  split; [done |]. split; [done |]. split; [done |]. split; [done |]. split.
  - apply acquireStampedeLock_free; [by rewrite Ho3 | by rewrite Hl3, lookup_delete_eq].
  - intros Hne Hother. apply acquireStampedeLock_free; [done |].
    rewrite Hl1, lookup_insert_ne; [done |]. intros Heq%lock_key_inj. done.
Qed.

(** ** The rate limiter and the flush *)

Example toISOString_epoch : JSDate.toISOString 0 = "1970-01-01T00:00:00.000Z".
Proof. vm_compute. reflexivity. Qed.
Example toISOString_2023 : JSDate.toISOString 1700000000123 = "2023-11-14T22:13:20.123Z".
Proof. vm_compute. reflexivity. Qed.
Example toISOString_leap : JSDate.toISOString 951782400000 = "2000-02-29T00:00:00.000Z".
Proof. vm_compute. reflexivity. Qed.
Example toISOString_2024a : JSDate.toISOString 1709251199999 = "2024-02-29T23:59:59.999Z".
Proof. vm_compute. reflexivity. Qed.
Example toISOString_2024b : JSDate.toISOString 1709251200000 = "2024-03-01T00:00:00.000Z".
Proof. vm_compute. reflexivity. Qed.
Example toISOString_2100 : JSDate.toISOString 4102444800000 = "2100-01-01T00:00:00.000Z".
Proof. vm_compute. reflexivity. Qed.
Example toISOString_9999 : JSDate.toISOString 253402300799999 = "9999-12-31T23:59:59.999Z".
Proof. vm_compute. reflexivity. Qed.
Example toISOString_10000 : JSDate.toISOString 253402300800000 = "+010000-01-01T00:00:00.000Z".
Proof. vm_compute. reflexivity. Qed.
Example parseInt_ex : map JSNumber.parseInt ["3000"; " 8080abc"; "abc"; ""; "-5"; "+7x"; "0x10"]
  = [Some 3000; Some 8080; None; None; Some (-5); Some 7; Some 0]%Z.
Proof. vm_compute. reflexivity. Qed.
Example toString_ex : map JSNumber.toString [Some 3000; Some 0; Some (-5); None]%Z
  = ["3000"; "0"; "-5"; "NaN"].
Proof. vm_compute. reflexivity. Qed.

Lemma rate_limited_test (s : Settings.t) :
  rate_limited s ->
  negb (JS.truthy (Settings.ENABLE_RATE_LIMITING s))
  || bool_decide (Settings.ENABLE_RATE_LIMITING s = Some "false") = false.
Proof.
  intros (flag & -> & Hne & Hnf). cbn [JS.truthy].
  apply String.eqb_neq in Hne. rewrite Hne. cbn.
  apply bool_decide_eq_false. congruence.
Qed.

(** X21: with ENABLE_RATE_LIMITING unset, empty or "false", [checkRateLimit]
    allows every call and touches nothing: no Redis command, no counter. *)
Theorem rate_limit_off_allows_everything (userId : string) (maxTokens : option number)
    (p : Process.t) :
  Settings.ENABLE_RATE_LIMITING (Process.settings p) = None
  \/ Settings.ENABLE_RATE_LIMITING (Process.settings p) = Some ""
  \/ Settings.ENABLE_RATE_LIMITING (Process.settings p) = Some "false" ->
  checkRateLimit userId maxTokens p = (Returned true, p).
Proof.
  intros Hoff. unfold checkRateLimit, proc_bind, the_process.
  by destruct Hoff as [-> | [-> | ->]].
Qed.


Lemma client_incr_down (key : string) (p : Process.t) :
  redis_up (outside (Process.world p)) = false ->
  client_incr key p
  = (Thrown redis_closed,
     Process.set_world (set_now (now (Process.world p) + redis_latency (outside (Process.world p))) (Process.world p)) p).
Proof.
  intros Hdown. unfold client_incr, proc_bind, in_world, redis_round_trip, bind, the_outside, elapse,
    ret, throw. cbn [outside set_now]. by rewrite Hdown.
Qed.



Lemma free_of_app (c : ascii) (a b : string) :
  free_of c (a +:+ b) = free_of c a && free_of c b.
Proof.
  induction a as [|x a IH]; [done |].
  change (String x a +:+ b) with (String x (a +:+ b)). cbn [free_of].
  by rewrite IH, andb_assoc.
Qed.

Lemma before_app (c : ascii) (a b : string) :
  free_of c a = true -> JSDate.before c (a +:+ String c b) = a.
Proof.
  induction a as [|x a IH].
  - intros _. change ("" +:+ String c b) with (String c b). cbn [JSDate.before].
    by rewrite Ascii.eqb_refl.
  - change (String x a +:+ String c b) with (String x (a +:+ String c b)).
    cbn [free_of JSDate.before].
    intros [Hx Ha]%andb_true_iff. apply negb_true_iff in Hx. by rewrite Hx, IH.
Qed.

Lemma digit_not_T (n : N) : Ascii.eqb (JSDate.digit n) "T" = false.
Proof.
  unfold JSDate.digit.
  assert (n mod 10 < 10)%N as Hlt by (by apply N.mod_upper_bound).
  destruct (n mod 10)%N as [|r]; [done |].
  do 4 (destruct r as [r|r|]; try lia; try done).
Qed.

Lemma pad_free_of_T (width : nat) (n : N) : free_of "T" (JSDate.pad width n) = true.
Proof.
  revert n. induction width as [|k IH]; intros n; [done |].
  cbn [JSDate.pad]. rewrite free_of_app, IH. cbn. by rewrite digit_not_T.
Qed.

Lemma date_free_of_T (day : N) : free_of "T" (JSDate.date day) = true.
Proof.
  unfold JSDate.date. destruct (JSDate.civil day) as [[y m] d].
  destruct (y <=? 9999)%N; rewrite !free_of_app, !pad_free_of_T; done.
Qed.

Lemma date_of_toISOString (ms : N) :
  JSDate.before "T" (JSDate.toISOString ms) = JSDate.date (ms / JSDate.MS_PER_DAY).
Proof. unfold JSDate.toISOString. cbv zeta. apply before_app, date_free_of_T. Qed.

(** X23: the counter of a user is named by the user and the UTC calendar date
    of the call: two calls of a user on the same UTC day use the same
    counter. *)
Theorem rate_limit_window_is_utc_day (userId : string) (t1 t2 : nat) :
  rateLimitKey userId t1
  = "rate_limit:" +:+ userId +:+ ":"
      +:+ JSDate.date (N.of_nat t1 / JSDate.MS_PER_DAY)
  /\ ((N.of_nat t1 / JSDate.MS_PER_DAY = N.of_nat t2 / JSDate.MS_PER_DAY)%N ->
      rateLimitKey userId t1 = rateLimitKey userId t2).
Proof.
  unfold rateLimitKey. rewrite !date_of_toISOString. split; [done |]. by intros ->.
Qed.

(** X24: with rate limiting on and Redis unreachable, [checkRateLimit] allows
    the call, whatever [maxTokens] is, leaves the counters alone and logs
    the failure. *)
Theorem rate_limit_fails_open (userId : string) (maxTokens : option number) (p : Process.t) :
  rate_limited (Process.settings p) ->
  redis_up (outside (Process.world p)) = false ->
  exists p',
    checkRateLimit userId maxTokens p = (Returned true, p')
    /\ Process.counters p' = Process.counters p
    /\ events (Process.world p') = events (Process.world p) ++ [Log LogError "Rate limit check failed"].
Proof.
  intros Hlimited Hdown.
  unfold checkRateLimit. unfold proc_bind at 1. unfold the_process at 1.
  rewrite (rate_limited_test _ Hlimited). unfold proc_try.
  unfold proc_bind at 1. unfold in_world at 1. unfold Date_now at 1. cbn [Process.world Process.set_world].
  assert (Process.set_world (Process.world p) p = p) as -> by (by destruct p).
  unfold proc_bind at 1. rewrite (client_incr_down _ p Hdown).
  unfold proc_bind, in_world, logger, emit, proc_ret. cbn [Process.world Process.set_world events set_events Process.counters].
  by eexists.
Qed.


(** ** Starting and stopping *)

Ltac process_steps :=
  unfold wait_try, wait_bind, settled, proc_try, proc_bind, proc_ret, in_world,
    the_process, db_round_trip, redis_round_trip, bind, the_outside, elapse, ret, throw,
    logger, emit;
  cbn [Process.world Process.set_world Process.set_counters Process.set_isOpen
       Process.set_connected Process.set_listening Process.set_handled Process.set_exited
       Process.settings Process.address_free Process.counters Process.isOpen
       Process.connected Process.listening Process.handled Process.exited
       outside now events set_now set_events cache locks fst snd negb].


Ltac in_list := cbn [In app]; repeat first [left; reflexivity | right].


(** What [initCache] does to the process. *)
Lemma initCache_effect (p : Process.t) :
  let p' := snd (initCache p) in
  fst (initCache p)
  = (if Process.isOpen p || redis_up (outside (Process.world p))
     then Settled (Returned tt) else Pending)
  /\ Process.settings p' = Process.settings p
  /\ Process.address_free p' = Process.address_free p
  /\ Process.connected p' = Process.connected p
  /\ Process.listening p' = Process.listening p
  /\ Process.handled p' = Process.handled p
  /\ Process.exited p' = Process.exited p
  /\ outside (Process.world p') = outside (Process.world p)
  /\ (if Process.isOpen p then p' = p
      else
        Process.isOpen p' = true
        /\ events (Process.world p')
           = events (Process.world p)
               ++ [Log Info ("Attempting " +:+ redisProvider (Process.settings p)
                               +:+ " Redis connection...");
                   if redis_up (outside (Process.world p))
                   then Log Info "Redis connected successfully"
                   else Log LogError "Redis error"]).
Proof.
  cbv zeta. unfold initCache, client_connect. process_steps.
  destruct (Process.isOpen p) eqn:Hopen; process_steps; [done |].
  destruct (redis_up (outside (Process.world p))); process_steps;
    repeat split; rewrite <- ?app_assoc, ?Hopen; reflexivity.
Qed.

(** X26: [initCache] never throws, and it never gives the cache up.  With the
    client open it does nothing.  With the client closed it announces the
    attempt, and the client reports itself open from then on; the function
    returns once Redis answers, and while Redis does not answer it stays
    pending: the failed attempts go to the client's error listener, which
    logs them, and neither the success nor the warning that the cache is
    disabled is logged. *)
Theorem initCache_waits_for_redis (p : Process.t) :
  let p' := snd (initCache p) in
  fst (initCache p)
  = (if Process.isOpen p || redis_up (outside (Process.world p))
     then Settled (Returned tt) else Pending)
  /\ Process.connected p' = Process.connected p
  /\ Process.listening p' = Process.listening p
  /\ Process.exited p' = Process.exited p
  /\ (if Process.isOpen p then p' = p
      else
        Process.isOpen p' = true
        /\ exists rest,
             events (Process.world p')
             = events (Process.world p)
                 ++ Log Info ("Attempting " +:+ redisProvider (Process.settings p)
                                +:+ " Redis connection...") :: rest
             /\ if redis_up (outside (Process.world p))
                then rest = [Log Info "Redis connected successfully"]
                else rest <> []
                     /\ Forall (fun e => e = Log LogError "Redis error") rest).
Proof.
  destruct (initCache_effect p) as (Hf & _ & _ & Hc & Hl & _ & He & _ & Hopen).
  cbv zeta. split; [exact Hf |]. split; [exact Hc |]. split; [exact Hl |].
  split; [exact He |].
  destruct (Process.isOpen p); [exact Hopen |].
  destruct Hopen as [Hopen Hev]. split; [exact Hopen |].
  eexists. split; [exact Hev |].
  destruct (redis_up (outside (Process.world p))); [reflexivity |].
  split; [discriminate | by repeat constructor].
Qed.




(** X28: the signal handler stops listening, quits the Redis client when it is
    open, disconnects from the database and exits with status 0, provided
    that Redis answers the quit of an open client. *)
Theorem shutdown_releases_everything (signal : string) (p : Process.t) :
  Process.isOpen p = false \/ redis_up (outside (Process.world p)) = true ->
  let p' := snd (shutdown signal p) in
  fst (shutdown signal p) = Returned tt
  /\ Process.listening p' = None /\ Process.isOpen p' = false
  /\ Process.connected p' = false /\ Process.exited p' = Some 0
  /\ In (Log Info "Database disconnected") (events (Process.world p')).
Proof.
  intros Hquit. cbv zeta.
  unfold shutdown, app_close, closeCache, closeDB, client_quit, prisma_disconnect,
    process_exit. process_steps.
  destruct (Process.isOpen p) eqn:Hopen; process_steps.
  - destruct Hquit as [[=] | ->]. process_steps.
    split; [done |]. split; [done |]. split; [done |]. split; [done |]. split; [done |].
    rewrite <- !app_assoc. apply in_or_app. right. in_list.
  - split; [done |]. split; [done |]. split; [done |]. split; [done |]. split; [done |].
    rewrite <- !app_assoc. apply in_or_app. right. in_list.
Qed.

(** ** The properties on concrete deployments *)



(** A body whose [explainPlan] is [null], or whose [cache] is a string, is
    answered 400. *)
Example wrong_typed_members_rejected :
  ~ ValidBody Scenario.null_plan_body
  /\ ~ ValidBody Scenario.text_flag_body
  /\ (exists reply,
        fst (explainRoute (H := Demo.engine)
               {| Request.id := "n"; Request.body := Scenario.null_plan_body |} Demo.world)
        = Returned reply
        /\ Reply.statusCode reply = 400)
  /\ (exists reply,
        fst (explainRoute (H := Demo.engine)
               {| Request.id := "t"; Request.body := Scenario.text_flag_body |} Demo.world)
        = Returned reply
        /\ Reply.statusCode reply = 400).
Proof.
  split.
  { intros (members & [= <-] & _ & _ & _ & [s Hs] & _). discriminate. }
  split.
  { intros (members & [= <-] & _ & _ & _ & _ & _ & [b Hb]). discriminate. }
  split; eexists; (split; [vm_compute; reflexivity | reflexivity]).
Qed.

Lemma cache_disabled_bypasses_redis_witness :
  exists reply w' added,
    explainRoute (H := Demo.engine) Scenario.uncached_request Demo.world = (Returned reply, w')
    /\ events w' = events Demo.world ++ added
    /\ List.filter is_redis added = []
    /\ List.filter is_cache_metric added = [CacheMiss "explain"]
    /\ cache w' = cache Demo.world /\ locks w' = locks Demo.world
    /\ served_from_cache reply = false.
Proof.
  refine (cache_disabled_bypasses_redis (H := Demo.engine) Scenario.uncached_request
            (uncached Demo.parsed) Demo.world _ _).
  - reflexivity.
  - reflexivity.
Defined.

Lemma unconfigured_backend_fails_every_miss_witness :
  exists w' added,
    explainRoute (H := Demo.engine) (Demo.request "a") Scenario.unconfigured_world
    = (Returned (failure_reply (Demo.request "a")
                   (MkError "OPENAI_API_KEY environment variable not set") (now w')), w')
    /\ events w' = events Scenario.unconfigured_world ++ added
    /\ backend_calls added = 0
    /\ List.filter is_db_create added = []
    /\ List.filter is_redis added
       = (if ExplainRequest.cache Demo.parsed
          then [Redis (GET (cacheKeyOf (H := Demo.engine) Demo.parsed))] else [])
    /\ cache w' = cache Scenario.unconfigured_world
    /\ explanation_cache w' = explanation_cache Scenario.unconfigured_world.
Proof.
  refine (unconfigured_backend_fails_every_miss (H := Demo.engine) (Demo.request "a")
            Demo.parsed Scenario.unconfigured_world _ _ _ _).
  - reflexivity.
  - reflexivity.
  - reflexivity.
Defined.

Lemma backend_failure_surfaces_uncached_witness :
  exists w' added,
    explainRoute (H := Demo.engine) (Demo.request "a") Scenario.rejecting_world
    = (Returned (failure_reply (Demo.request "a") Scenario.rate_limited_api (now w')), w')
    /\ events w' = events Scenario.rejecting_world ++ added
    /\ backend_calls added = 1
    /\ List.filter is_db_create added = []
    /\ List.filter is_redis added
       = (if ExplainRequest.cache Demo.parsed
          then [Redis (GET (cacheKeyOf (H := Demo.engine) Demo.parsed))] else [])
    /\ cache w' = cache Scenario.rejecting_world
    /\ explanation_cache w' = explanation_cache Scenario.rejecting_world.
Proof.
  refine (backend_failure_surfaces_uncached (H := Demo.engine) (Demo.request "a")
            Demo.parsed Scenario.rejecting_world (OpenAIProvider "sk-test") _ _ _ _ _).
  - reflexivity.
  - reflexivity.
  - reflexivity.
  - reflexivity.
Defined.

Lemma reply_carries_request_fingerprint_witness :
  ExplanationResult.fingerprint
    (ReplyData.result
       {| ReplyData.result :=
            ExplanationResult.with_fingerprint
              (fingerprint (Engine := Demo.engine) Demo.sql)
              (stubResult Demo.sql ((0 # 4) * 100)%Q);
          ReplyData.cached := false |})
  = fingerprint (Engine := Demo.engine) (ExplainRequest.sql Demo.parsed)
  /\ (ReplyData.cached
        {| ReplyData.result :=
             ExplanationResult.with_fingerprint
               (fingerprint (Engine := Demo.engine) Demo.sql)
               (stubResult Demo.sql ((0 # 4) * 100)%Q);
           ReplyData.cached := false |} = true
      <-> ExplainRequest.cache Demo.parsed = true
          /\ redis_up (outside Demo.world) = true
          /\ exists stored ttl,
               cache Demo.world !! cacheKeyOf (H := Demo.engine) Demo.parsed
               = Some (stored, ttl)
               /\ ExplanationResult.truthy stored = true).
Proof.
  refine (reply_carries_request_fingerprint (H := Demo.engine) (Demo.request "a")
            Demo.parsed Demo.world (snd Demo.first_run) Demo.first_reply _ _ _ _).
  - reflexivity.
  - vm_compute; reflexivity.
  - reflexivity.
Defined.

Lemma redis_outage_only_disables_caching_witness :
  exists reply1 reply2 w1 w2,
    explainRoute (H := Demo.engine) (Demo.request "a") Scenario.redis_down_world
    = (Returned reply1, w1)
    /\ explainRoute (H := Demo.engine) Scenario.uncached_request Scenario.redis_down_world
       = (Returned reply2, w2)
    /\ Reply.statusCode reply1 = Reply.statusCode reply2
    /\ Reply.data reply1 = Reply.data reply2
    /\ Reply.error reply1 = Reply.error reply2
    /\ served_from_cache reply1 = false
    /\ cache w1 = cache Scenario.redis_down_world
    /\ In (Log LogError "Cache get failed") (events w1).
Proof.
  refine (redis_outage_only_disables_caching (H := Demo.engine) (Demo.request "a")
            Scenario.uncached_request Demo.parsed Scenario.redis_down_world _ _ _ _).
  - reflexivity.
  - reflexivity.
  - reflexivity.
  - reflexivity.
Defined.



Lemma remote_backend_sees_sanitized_text_witness :
  fst (explainSQLService (H := Demo.engine) "SELECT * FROM t WHERE id = 7" "SELECT * FROM t WHERE id = ?"
         "postgres" None None Demo.openai_world)
  = fst (explainSQLService (H := Demo.engine) "SELECT * FROM t WHERE id = 8" "SELECT * FROM t WHERE id = ?"
           "postgres" None None Demo.openai_world)
  /\ buildPrompt (llmRequest "SELECT * FROM t WHERE id = 7" "" "postgres" None None)
     = buildPrompt (llmRequest "SELECT * FROM t WHERE id = 7" "SELECT * FROM t WHERE id = 7"
                      "postgres" None None).
Proof.
  refine (remote_backend_sees_sanitized_text (H := Demo.engine)
            "SELECT * FROM t WHERE id = 7" "SELECT * FROM t WHERE id = 8"
            "SELECT * FROM t WHERE id = ?" "postgres" None None Demo.openai_world
            "sk-test" _ _).
  - discriminate.
  - reflexivity.
Defined.


Lemma stampede_lock_is_exclusive_witness :
  let first := acquireStampedeLock "k" Demo.world in
  let second := acquireStampedeLock "k" (snd first) in
  let released := releaseStampedeLock "k" (snd second) in
  fst first = Returned true
  /\ locks (snd first) !! ("lock:" +:+ "k") = Some (Some 10)
  /\ fst second = Returned false
  /\ locks (snd second) = locks (snd first)
  /\ fst (acquireStampedeLock "k" (snd released)) = Returned true
  /\ ("j" <> "k" ->
      locks Demo.world !! ("lock:" +:+ "j") = None ->
      fst (acquireStampedeLock "j" (snd first)) = Returned true).
Proof.
  refine (stampede_lock_is_exclusive "k" "j" Demo.world _ _).
  - reflexivity.
  - reflexivity.
Defined.

Lemma rate_limit_off_allows_everything_witness :
  checkRateLimit "alice" None (Scenario.process Demo.world (Some "false"))
  = (Returned true, Scenario.process Demo.world (Some "false")).
Proof.
  refine (rate_limit_off_allows_everything "alice" None
            (Scenario.process Demo.world (Some "false")) _).
  right. right. reflexivity.
Defined.


Lemma rate_limit_fails_open_witness :
  let p := Scenario.process Scenario.redis_down_world (Some "true") in
  exists p',
    checkRateLimit "alice" (Some 0%Q) p = (Returned true, p')
    /\ Process.counters p' = Process.counters p
    /\ events (Process.world p')
       = events (Process.world p) ++ [Log LogError "Rate limit check failed"].
Proof.
  refine (rate_limit_fails_open "alice" (Some 0%Q)
            (Scenario.process Scenario.redis_down_world (Some "true")) _ _).
  - exists "true". repeat split; discriminate.
  - reflexivity.
Defined.

Lemma shutdown_releases_everything_witness :
  let p := snd (start (Scenario.process Demo.world None)) in
  let p' := snd (shutdown "SIGTERM" p) in
  fst (shutdown "SIGTERM" p) = Returned tt
  /\ Process.listening p' = None /\ Process.isOpen p' = false
  /\ Process.connected p' = false /\ Process.exited p' = Some 0
  /\ In (Log Info "Database disconnected") (events (Process.world p')).
Proof.
  refine (shutdown_releases_everything "SIGTERM"
            (snd (start (Scenario.process Demo.world None))) _).
  right. vm_compute. reflexivity.
Defined.

(** The start of the example process: it listens on the default address with
    both connections open. *)
Example start_scenario :
  let p := snd (start (Scenario.process Demo.world None)) in
  Process.listening p = Some ("0.0.0.0", Some 3000%Z)
  /\ Process.isOpen p = true /\ Process.connected p = true /\ Process.exited p = None
  /\ map (fun e => match e with Log _ m => m | _ => "" end) (events (Process.world p))
     = ["Attempting database connection to Local PostgreSQL...";
        "Database connected successfully";
        "Attempting Local/Custom Redis Redis connection...";
        "Redis connected successfully";
        "Health routes registered"; "Explain route registered"; "Metrics route registered";
        "Server listening on http://0.0.0.0:3000";
        "Environment: development"].
Proof. vm_compute. repeat split. Qed.

(** With Redis unreachable the start stays pending after the database is
    connected: nothing listens and the process does not exit. *)
Example start_without_redis :
  let run := start (Scenario.process Scenario.redis_down_world None) in
  fst run = Pending
  /\ Process.connected (snd run) = true /\ Process.isOpen (snd run) = true
  /\ Process.listening (snd run) = None /\ Process.handled (snd run) = []
  /\ Process.exited (snd run) = None.
Proof. vm_compute. repeat split. Qed.

(** A port that is out of range, or not a number, ends the start with
    status 1. *)
Example start_on_invalid_port :
  let high := start (Scenario.process_on_port Demo.world "70000") in
  let text := start (Scenario.process_on_port Demo.world "abc") in
  fst high = Settled (Returned tt)
  /\ Process.exited (snd high) = Some 1 /\ Process.listening (snd high) = None
  /\ fst text = Settled (Returned tt)
  /\ Process.exited (snd text) = Some 1 /\ Process.listening (snd text) = None.
Proof. vm_compute. repeat split. Qed.
